(** * esrgan-evup: the batch pipeline of [run.py]

    A shallow embedding of the orchestration code of [run.py]: format
    normalisation ([convert_if_needed]), batch planning and staggered
    submission ([process_video]), the per-batch worker ([process_batch]) and
    the ordered reassembly of the segment table.

    Conventions.
    - Python floats (probed fps, durations, timestamps) are embedded as exact
      rationals [Q]; Python ints as [Z] or [nat].
    - External processes, the clock and directory listings are inputs of the
      model (an "oracle" record per function); every side effect is recorded
      as an [event] of the trace of the thread that performs it. *)

From Stdlib Require Import ZArith QArith Qround Qabs Qminmax Lia Lqa.
From Stdlib Require Import Ascii String DecimalString Sorted.
From stdpp Require Import base list strings.

Local Open Scope Z_scope.

(** ** Configuration variables (the module-level constants of [run.py]) *)

Record Config := {
  MAX_CONCURRENT_BATCHES : Z;
  MODEL_NAME : string;
  STAGGER_DELAY : Z;
  ESRGAN_SCALE : string;
  ESRGAN_TILE : string;
  ESRGAN_EXTRA_ARGS : list string;       (* [ESRGAN_EXTRA_ARGS.strip().split()] *)
  BATCH_SIZE : Z;
  FFMPEG_REASSEMBLY_ARGS : list string;  (* [FFMPEG_REASSEMBLY_ARGS.strip().split()] *)
  FINAL_FILE_FORMAT_OVERRIDE : string
}.

Definition default_config : Config := {|
  MAX_CONCURRENT_BATCHES := 5;
  MODEL_NAME := "realesr-animevideov3-x2";
  STAGGER_DELAY := 10;
  ESRGAN_SCALE := "2";
  ESRGAN_TILE := "1920";
  ESRGAN_EXTRA_ARGS := [];
  BATCH_SIZE := 20;
  FFMPEG_REASSEMBLY_ARGS := ["-c:v"; "libx265"; "-pix_fmt"; "yuv420p"];
  FINAL_FILE_FORMAT_OVERRIDE := ".mkv"
|}.

(** ** Numbers *)

(** Python's [min(a, b)]: the first argument unless the second is strictly
    smaller. *)
Definition py_min (a b : Q) : Q :=
  if Qlt_le_dec b a then b else a.

(** [range(n)] for an integer [n]: empty when [n <= 0]. *)
Definition range (n : Z) : list nat := seq 0 (Z.to_nat n).

(** ** Batch planning ([process_video], lines 479-484 and 526-529) *)

Record BatchSpec := {
  spec_index : nat;
  spec_start : Q;
  spec_duration : Q
}.

(** [(batch_duration, num_batches)] *)
Definition plan (cfg : Config) (duration : Q) : Q * Z :=
  if BATCH_SIZE cfg =? 0 then (duration, 1)
  else (inject_Z (BATCH_SIZE cfg), Qceiling (duration / inject_Z (BATCH_SIZE cfg))).

Definition batch_duration (cfg : Config) (duration : Q) : Q := fst (plan cfg duration).
Definition num_batches (cfg : Config) (duration : Q) : Z := snd (plan cfg duration).

(** The arguments computed in the body of the submission loop for one
    [batch_index]. *)
Definition batch_spec (cfg : Config) (duration : Q) (batch_index : nat) : BatchSpec :=
  let start_time_batch := (inject_Z (Z.of_nat batch_index) * batch_duration cfg duration)%Q in
  let current_duration := py_min (batch_duration cfg duration) (duration - start_time_batch)%Q in
  {| spec_index := batch_index;
     spec_start := start_time_batch;
     spec_duration := current_duration |}.

Definition batch_specs (cfg : Config) (duration : Q) : list BatchSpec :=
  map (batch_spec cfg duration) (range (num_batches cfg duration)).

(** Python's [round(x)] on a float: nearest integer, ties to even. *)
Definition py_round (x : Q) : Z :=
  let f := Qfloor x in
  match Qcompare (x - inject_Z f) (1 # 2) with
  | Lt => f
  | Gt => f + 1
  | Eq => if Z.even f then f else f + 1
  end.

(** [str(n)] for a Python int. *)
Definition str_int (z : Z) : string := NilZero.string_of_int (Z.to_int z).

(** ** Format normalisation: [is_integer_fps] (lines 67-69) *)

Definition tol : Q := 1 # 1000000.

Definition is_integer_fps (fps : Q) : bool :=
  if Qlt_le_dec (Qabs (fps - inject_Z (py_round fps))) tol then true else false.

(** ** Strings and paths

    [os.path] is embedded for POSIX separators. *)

Definition slash : ascii := "/"%char.
Definition dot : ascii := "."%char.
Definition backslash : ascii := "\"%char.

Definition chars (s : string) : list ascii := list_ascii_of_string s.
Definition str (l : list ascii) : string := string_of_list_ascii l.

Fixpoint has_char (c : ascii) (s : string) : bool :=
  match s with
  | EmptyString => false
  | String d rest => Ascii.eqb c d || has_char c rest
  end.

(** [os.path.basename]: what follows the last separator. *)
Fixpoint basename (p : string) : string :=
  match p with
  | EmptyString => EmptyString
  | String c rest =>
      if Ascii.eqb c slash then basename rest
      else if has_char slash rest then basename rest
      else p
  end.

(** Index of the last occurrence of [c] in [l] ([rfind]). *)
Fixpoint rfind (c : ascii) (l : list ascii) : option nat :=
  match l with
  | [] => None
  | d :: rest =>
      match rfind c rest with
      | Some i => Some (S i)
      | None => if Ascii.eqb c d then Some O else None
      end
  end.

(** [os.path.splitext]: the extension starts at the last dot of the last
    path component, unless only dots precede it there. *)
Definition splitext (p : string) : string * string :=
  let b := chars (basename p) in
  let dir_len := (String.length p - length b)%nat in
  match rfind dot b with
  | Some i =>
      if forallb (Ascii.eqb dot) (take i b) then (p, EmptyString)
      else (str (take (dir_len + i) (chars p)), str (drop i b))
  | None => (p, EmptyString)
  end.

(** [os.path.join] of two components. *)
Definition path_join (a b : string) : string :=
  match chars b with
  | c :: _ => if Ascii.eqb c slash then b else
      match last (chars a) with
      | Some d => if Ascii.eqb d slash then a +:+ b else a +:+ "/" +:+ b
      | None => a +:+ b
      end
  | [] =>
      match last (chars a) with
      | Some d => if Ascii.eqb d slash then a else a +:+ "/"
      | None => a
      end
  end.

(** [str.lower] on ASCII letters. *)
Definition lower_char (c : ascii) : ascii :=
  let n := nat_of_ascii c in
  if (65 <=? n)%nat && (n <=? 90)%nat then ascii_of_nat (n + 32) else c.

Definition lower (s : string) : string := str (map lower_char (chars s)).

(** [s.replace('\\', '\\\\')]: every backslash is doubled. *)
Definition escape_backslashes (s : string) : string :=
  str (flat_map (λ c, if Ascii.eqb c backslash then [backslash; backslash] else [c]) (chars s)).

(** [s.split(sep)] for a non-empty separator: [skip] counts the characters
    of a separator occurrence still to be dropped, [cur] is the piece being
    read, reversed. *)
Fixpoint split_go (sep : string) (s : string) (skip : nat) (cur : list ascii) : list string :=
  match skip with
  | S k =>
      match s with
      | EmptyString => [str (rev cur)]
      | String _ rest => split_go sep rest k cur
      end
  | O =>
      match s with
      | EmptyString => [str (rev cur)]
      | String c rest =>
          if String.prefix sep s
          then str (rev cur) :: split_go sep rest (String.length sep - 1) []
          else split_go sep rest O (c :: cur)
      end
  end.

Definition split (sep s : string) : list string := split_go sep s O [].

(** Whitespace removed by [int] around the literal (ASCII part). *)
Definition is_space (c : ascii) : bool :=
  let n := nat_of_ascii c in
  ((9 <=? n) && (n <=? 13) || (28 <=? n) && (n <=? 32))%nat.

Definition digit_value (c : ascii) : option Z :=
  let n := nat_of_ascii c in
  if (48 <=? n)%nat && (n <=? 57)%nat then Some (Z.of_nat (n - 48)) else None.

(** Digits with single underscores between them. *)
Fixpoint parse_digits (s : list ascii) (acc : Z) (after_digit : bool) : option Z :=
  match s with
  | [] => if after_digit then Some acc else None
  | c :: rest =>
      match digit_value c with
      | Some d => parse_digits rest (10 * acc + d) true
      | None =>
          if Ascii.eqb c "_"%char && after_digit then parse_digits rest acc false
          else None
      end
  end.

Fixpoint lstrip (s : list ascii) : list ascii :=
  match s with
  | c :: rest => if is_space c then lstrip rest else s
  | [] => []
  end.

Definition strip (s : list ascii) : list ascii := rev (lstrip (rev (lstrip s))).

(** [int(s)] for a decimal literal; [None] stands for [ValueError]. *)
Definition py_int (s : string) : option Z :=
  match strip (chars s) with
  | c :: rest =>
      if Ascii.eqb c "-"%char then Z.opp <$> parse_digits rest 0 false
      else if Ascii.eqb c "+"%char then parse_digits rest 0 false
      else parse_digits (c :: rest) 0 false
  | [] => None
  end.

(** [sorted] on a list of [str]: stable insertion sort by the order of
    [String.compare] (code points). *)
Fixpoint insert_str (x : string) (l : list string) : list string :=
  match l with
  | [] => [x]
  | y :: rest => if String.leb x y then x :: l else y :: insert_str x rest
  end.

Definition sorted (l : list string) : list string := foldr insert_str [] l.

Definition ends_with (suffix s : string) : bool :=
  String.prefix (str (rev (chars suffix))) (str (rev (chars s))).

(** [glob.glob(os.path.join(dir, "frame_*.png"))] over the names present in
    [dir]. *)
Definition matches_frame_pattern (name : string) : bool :=
  String.prefix "frame_" name && ends_with ".png" name
  && (10 <=? String.length name)%nat.

Definition glob_frames (dir : string) (names : list string) : list string :=
  map (path_join dir) (filter (λ n, matches_frame_pattern n = true) names).

(** ** Effects

    External commands are argument vectors; [Num q] stands for [str(q)] of a
    number and [Fmt p q] for an f-string made of the literal [p] followed by
    a number. *)

Inductive arg :=
| Lit (s : string)
| Num (q : Q)
| Fmt (prefix : string) (q : Q).

Coercion Lit : string >-> arg.

(** How a [subprocess.run(cmd, check=True, ...)] call ends. *)
Inductive run_result :=
| Completed            (* exit status 0 *)
| NonZeroExit          (* raises [CalledProcessError] *)
| TimedOut             (* raises [TimeoutExpired]; only with [timeout=] *)
| SpawnFailed.         (* any other exception, e.g. [FileNotFoundError] *)

#[global] Instance run_result_eq_dec : EqDecision run_result.
Proof. solve_decision. Defined.

Inductive exn := CalledProcessError | TimeoutExpired | OtherException.

(** Lines of an ffconcat list file. *)
Inductive concat_line :=
| Header                       (* [ffconcat version 1.0] *)
| FileLine (path : string)     (* [file '<path>'] *)
| DurationLine (d : Q).        (* [duration <d>], printed with six decimals *)

Inductive thread := PollThread | ReassemblyThread | ProgressThread.

Inductive message :=
| MsgSkipConversion (video_file : string)
| MsgRemuxing (input_ext : string)
| MsgReencoding (video_file : string) (output_fps : Z)
| MsgExtractError (batch_index : nat)
| MsgTooFewFrames (batch_index : nat) (count : nat)
| MsgPlaceholderError (batch_index : nat)
| MsgEsrganTimeout (batch_index : nat) (attempt : Z)
| MsgEsrganError (batch_index : nat) (attempt : Z)
| MsgEsrganFailed (batch_index : nat) (max_attempts : Z)
| MsgNoProcessedFrames (batch_index : nat)
| MsgFrameParseError (filename : string)
| MsgReassemblyError (batch_index : nat)
| MsgProcessingVideo (video_file : string)
| MsgSkipZeroDuration (video_file : string)
| MsgBatchException (batch_number : nat)
| MsgMissingSegment
| MsgConcatError
| MsgMergeError
| MsgFinished (video_file output_file : string).

Inductive event :=
| EMakeDirs (path : string)                       (* [os.makedirs(path, exist_ok=True)] *)
| ERun (argv : list arg) (r : run_result)         (* [subprocess.run] *)
| ESleep (seconds : Q)                            (* [time.sleep] *)
| ERmTree (path : string)                         (* [shutil.rmtree(path, ignore_errors=True)] *)
| ERemove (path : string)                         (* [if os.path.exists(p): os.remove(p)] *)
| EMove (src dst : string)                        (* [shutil.move] *)
| EOpen (path : string)                           (* [open(path, "w")] *)
| EWriteLine (path : string) (l : concat_line)    (* [f.write] *)
| EProgress (delta : Z)                           (* [update_progress(delta)] *)
| EPrint (m : message)
| EThreadStart (t : thread)
| EThreadJoin (t : thread)
| ESubmit (batch_index : nat) (start_time duration : Q)  (* [executor.submit(process_batch, ...)] *)
| EAssign (batch_index : nat).                    (* [segment_files[batch_index] = result] *)

(** A computation of one thread: the trace of its events and either a value
    or an exception that left it. *)
Inductive res (A : Type) :=
| Val (a : A)
| Raise (e : exn).
Arguments Val {A} a.
Arguments Raise {A} e.

Definition M (A : Type) : Type := list event * res A.

#[global] Instance M_ret : MRet M := λ A a, ([], Val a).

#[global] Instance M_bind : MBind M := λ A B f m,
  match m with
  | (t, Val a) => let '(t', r) := f a in (t ++ t', r)
  | (t, Raise e) => (t, Raise e)
  end.

Definition emit (e : event) : M unit := ([e], Val tt).

Definition raise {A : Type} (e : exn) : M A := ([], Raise e).

(** [try: m except ...: h]; the handler returns [None] for an exception no
    [except] clause matches. *)
Definition try_except {A : Type} (m : M A) (h : exn → option (M A)) : M A :=
  match m with
  | (t, Val a) => (t, Val a)
  | (t, Raise e) =>
      match h e with
      | Some k => let '(t', r) := k in (t ++ t', r)
      | None => (t, Raise e)
      end
  end.

Definition on_called_process_error {A : Type} (k : M A) (e : exn) : option (M A) :=
  match e with
  | CalledProcessError => Some k
  | _ => None
  end.

(** A [for] loop without [break]. *)
Definition for_each {A : Type} (l : list A) (body : A → M unit) : M unit :=
  foldr (λ x k, body x ;; k) (mret tt) l.

Definition enumerate {A : Type} (l : list A) : list (nat * A) := imap pair l.

Definition trace {A : Type} (m : M A) : list event := m.1.
Definition result {A : Type} (m : M A) : res A := m.2.

(** [subprocess.run(argv, check=True, ...)] ending as [r]. *)
Definition subprocess_run (argv : list arg) (r : run_result) : M unit :=
  emit (ERun argv r) ;;
  match r with
  | Completed => mret tt
  | NonZeroExit => raise CalledProcessError
  | TimedOut => raise TimeoutExpired
  | SpawnFailed => raise OtherException
  end.

(** The outcome of [process_batch]: a path, [None], or the tuple
    [(result_container, reassembly_thread)], embedded as the run of the
    thread that fills the container. *)
Inductive outcome :=
| OPath (p : string)
| ONone
| ODeferred (reassembly : M (option string)).

(** ** Frames of a batch (lines 413-422) *)

(** [int(filename.split("frame_")[1].split(".png")[0])]; [None] stands for
    [IndexError] or [ValueError]. *)
Definition frame_number (filepath : string) : option Z :=
  let filename := basename filepath in
  part ← split "frame_" filename !! 1%nat;
  digits ← split ".png" part !! 0%nat;
  py_int digits.

Definition timestamp_of (output_fps : Z) (frame_num : Z) : Q :=
  (inject_Z (frame_num - 1) / inject_Z output_fps)%Q.

(** The body of the [try] in the parse loop; [None] stands for any
    exception, [ZeroDivisionError] included. *)
Definition parse_frame (output_fps : Z) (filepath : string) : option (string * Q) :=
  frame_num ← frame_number filepath;
  if output_fps =? 0 then None
  else Some (filepath, timestamp_of output_fps frame_num).

(** [frames.sort(key=lambda x: x[1])]: the stable sort by timestamp. *)
Fixpoint insert_frame (x : string * Q) (l : list (string * Q)) : list (string * Q) :=
  match l with
  | [] => [x]
  | y :: rest => if Qle_bool x.2 y.2 then x :: l else y :: insert_frame x rest
  end.

Definition sort_frames (l : list (string * Q)) : list (string * Q) :=
  foldr insert_frame [] l.

Definition frame_duration (output_fps : Z) (count : nat) (i : nat) : Q :=
  if decide (Z.of_nat i < Z.of_nat count - 1) then (1 / inject_Z output_fps)%Q else 0%Q.

(** What the world answers to one run of [process_batch]. *)
Record BatchWorld := {
  bw_now : Z;                          (* [int(time.time())] *)
  bw_extract : run_result;             (* the frame extraction command *)
  bw_extracted : list string;          (* names in the extraction directory afterwards *)
  bw_placeholder : run_result;         (* the placeholder command *)
  bw_esrgan : Z → run_result;          (* the engine call made with [attempt = k] *)
  bw_polled : list Z;                  (* deltas reported by [poll_progress] *)
  bw_processed : list string;          (* names in the processed directory afterwards *)
  bw_concat : run_result               (* the frame concatenation command *)
}.

(** What the world answers to one run of [process_video]. *)
Record VideoWorld := {
  vw_fps : Q;                          (* [get_video_info]: fps, duration, time base *)
  vw_duration : Q;
  vw_time_base : Q;
  vw_convert : run_result;             (* the remux or re-encode command *)
  vw_batch : nat → BatchWorld;         (* the world of the worker of each batch *)
  vw_completion : list nat;            (* batch indices in [as_completed] order *)
  vw_concat : run_result;              (* concatenation of the segments *)
  vw_merge : run_result                (* audio and metadata merge *)
}.

Definition max_attempts : Z := 3.
Definition ESRGAN_TIMEOUT : Z := 600.

Section Pipeline.

Variable cfg : Config.
Variable temp_dir : string.            (* [tempfile.gettempdir()] *)

(** *** [convert_if_needed] (lines 72-118) *)

Definition converted_path_of (video_file : string) : string :=
  let base_name := (splitext (basename video_file)).1 in
  path_join temp_dir (base_name +:+ "_converted.mp4").

Definition cmd_remux (video_file converted_path : string) : list arg :=
  [Lit "ffmpeg"; Lit "-hide_banner"; Lit "-loglevel"; Lit "error"; Lit "-y";
   Lit "-i"; Lit video_file; Lit "-c"; Lit "copy"; Lit converted_path].

Definition cmd_encode (video_file : string) (output_fps : Z) (converted_path : string) : list arg :=
  [Lit "ffmpeg"; Lit "-hide_banner"; Lit "-loglevel"; Lit "error"; Lit "-y";
   Lit "-i"; Lit video_file; Lit "-r"; Lit (str_int output_fps);
   Lit "-c:v"; Lit "libx264"; Lit "-preset"; Lit "fast"; Lit "-crf"; Lit "18";
   Lit converted_path].

Definition convert_if_needed (ran : run_result) (video_file : string) (fps : Q) : M string :=
  let input_ext := lower (splitext video_file).2 in
  let output_fps := py_round fps in
  let converted_path := converted_path_of video_file in
  if is_integer_fps fps && String.eqb input_ext ".mp4" then
    emit (EPrint (MsgSkipConversion video_file)) ;;
    mret video_file
  else if is_integer_fps fps then
    if negb (String.eqb input_ext ".mp4") then
      emit (EPrint (MsgRemuxing input_ext)) ;;
      subprocess_run (cmd_remux video_file converted_path) ran ;;
      mret converted_path
    else mret video_file
  else
    emit (EPrint (MsgReencoding video_file output_fps)) ;;
    subprocess_run (cmd_encode video_file output_fps converted_path) ran ;;
    mret converted_path.

(** *** [process_batch] (lines 180-454) *)

Definition batch_id_of (w : BatchWorld) (video_file : string) (batch_index : nat) : string :=
  let base_name := (splitext (basename video_file)).1 in
  base_name +:+ "_batch_" +:+ str_int (Z.of_nat batch_index) +:+ "_" +:+ str_int (bw_now w).

Definition cmd_extract (video_file : string) (start_time duration : Q) (output_fps : Z)
    (extraction_dir : string) : list arg :=
  [Lit "ffmpeg"; Lit "-hide_banner"; Lit "-loglevel"; Lit "error";
   Lit "-ss"; Num start_time; Lit "-t"; Num duration; Lit "-y";
   Lit "-i"; Lit video_file; Lit "-r"; Lit (str_int output_fps);
   Lit (path_join extraction_dir "frame_%06d.png")].

Definition cmd_placeholder (duration : Q) (output_fps : Z) (placeholder_segment : string) : list arg :=
  [Lit "ffmpeg"; Lit "-hide_banner"; Lit "-loglevel"; Lit "error"; Lit "-y";
   Lit "-f"; Lit "lavfi"; Lit "-i"; Fmt "color=c=black:s=1280x720:d=" duration;
   Lit "-r"; Lit (str_int output_fps); Lit "-c:v"; Lit "libx264";
   Lit "-pix_fmt"; Lit "yuv420p"; Lit placeholder_segment].

Definition cmd_esrgan (script_dir extraction_dir processed_dir : string) : list arg :=
  [Lit (path_join (path_join script_dir "bin") "realesrgan-ncnn-vulkan");
   Lit "-i"; Lit extraction_dir; Lit "-o"; Lit processed_dir;
   Lit "-n"; Lit (MODEL_NAME cfg); Lit "-s"; Lit (ESRGAN_SCALE cfg);
   Lit "-t"; Lit (ESRGAN_TILE cfg)]
  ++ map Lit (ESRGAN_EXTRA_ARGS cfg).

(** The frame concatenation command up to the configured arguments; each
    reassembly path appends its own tail. *)
Definition cmd_concat_head (concat_list_path : string) (output_fps : Z) : list arg :=
  [Lit "ffmpeg"; Lit "-hide_banner"; Lit "-loglevel"; Lit "error";
   Lit "-f"; Lit "concat"; Lit "-safe"; Lit "0"; Lit "-i"; Lit concat_list_path;
   Lit "-r"; Lit (str_int output_fps)]
  ++ map Lit (FFMPEG_REASSEMBLY_ARGS cfg).

(** The upscaling loop (lines 269-285). [remaining] is
    [max_attempts - attempt], the variant of the [while]: the loop is left
    with [success = False] when it reaches 0, and with [success = True]
    right after a call that completes. The value is [success]. *)
Fixpoint upscale_loop (remaining : nat) (w : BatchWorld) (cmd : list arg)
    (batch_index : nat) (attempt : Z) : M bool :=
  match remaining with
  | O => mret false
  | S remaining' =>
      try_except
        (subprocess_run cmd (bw_esrgan w attempt) ;; mret true)
        (λ e, match e with
              | TimeoutExpired => Some (
                  emit (EPrint (MsgEsrganTimeout batch_index (attempt + 1))) ;;
                  emit (ESleep 5) ;;
                  upscale_loop remaining' w cmd batch_index (attempt + 1))
              | CalledProcessError => Some (
                  emit (EPrint (MsgEsrganError batch_index (attempt + 1))) ;;
                  emit (ESleep 5) ;;
                  upscale_loop remaining' w cmd batch_index (attempt + 1))
              | OtherException => None
              end)
  end.

(** The parse loop (lines 413-421). *)
Fixpoint parse_loop (output_fps : Z) (frame_files : list string) : M (list (string * Q)) :=
  match frame_files with
  | [] => mret []
  | filepath :: rest =>
      match parse_frame output_fps filepath with
      | Some frame => frames ← parse_loop output_fps rest; mret (frame :: frames)
      | None =>
          emit (EPrint (MsgFrameParseError (basename filepath))) ;;
          parse_loop output_fps rest
      end
  end.

(** Writing the edit-list of the sorted frames (lines 423-433). *)
Definition write_concat_list (concat_list_path : string) (output_fps : Z)
    (frames : list (string * Q)) : M unit :=
  emit (EOpen concat_list_path) ;;
  emit (EWriteLine concat_list_path Header) ;;
  for_each (enumerate frames) (λ '(i, (filepath, timestamp)),
    emit (EWriteLine concat_list_path (FileLine (escape_backslashes filepath))) ;;
    emit (EWriteLine concat_list_path (DurationLine (frame_duration output_fps (length frames) i)))).

(** The three copies of the placeholder fallback differ in what follows a
    successful synthesis. Lines 218-238 and 392-412: both directories are
    deleted and the extracted frame count is reported. *)
Definition placeholder_with_progress (w : BatchWorld) (batch_index : nat) (duration : Q)
    (output_fps : Z) (batch_id extraction_dir processed_dir : string)
    (extracted_count : nat) : M outcome :=
  let placeholder_segment := path_join temp_dir (batch_id +:+ "_placeholder.mp4") in
  try_except
    (subprocess_run (cmd_placeholder duration output_fps placeholder_segment) (bw_placeholder w) ;;
     emit (ERmTree extraction_dir) ;;
     emit (ERmTree processed_dir) ;;
     emit (EProgress (Z.of_nat extracted_count)) ;;
     mret (OPath placeholder_segment))
    (on_called_process_error (
     emit (EPrint (MsgPlaceholderError batch_index)) ;;
     mret ONone)).

(** Lines 291-310: both directories are deleted, nothing is reported. *)
Definition placeholder_after_failure (w : BatchWorld) (batch_index : nat) (duration : Q)
    (output_fps : Z) (batch_id extraction_dir processed_dir : string) : M outcome :=
  let placeholder_segment := path_join temp_dir (batch_id +:+ "_placeholder.mp4") in
  try_except
    (subprocess_run (cmd_placeholder duration output_fps placeholder_segment) (bw_placeholder w) ;;
     emit (ERmTree extraction_dir) ;;
     emit (ERmTree processed_dir) ;;
     mret (OPath placeholder_segment))
    (on_called_process_error (
     emit (EPrint (MsgPlaceholderError batch_index)) ;;
     mret ONone)).

(** Lines 322-339, inside [do_reassembly]: nothing is deleted or reported. *)
Definition placeholder_in_thread (w : BatchWorld) (batch_index : nat) (duration : Q)
    (output_fps : Z) (batch_id : string) : M (option string) :=
  let placeholder_segment := path_join temp_dir (batch_id +:+ "_placeholder.mp4") in
  try_except
    (subprocess_run (cmd_placeholder duration output_fps placeholder_segment) (bw_placeholder w) ;;
     mret (Some placeholder_segment))
    (on_called_process_error (
     emit (EPrint (MsgPlaceholderError batch_index)) ;;
     mret None)).

(** [do_reassembly] (lines 318-380), the body of the reassembly thread of
    the decoupled path. *)
Definition do_reassembly (w : BatchWorld) (batch_index : nat) (duration : Q)
    (output_fps : Z) (batch_id reassembly_dir : string) : M (option string) :=
  let frame_files := sorted (glob_frames reassembly_dir (bw_processed w)) in
  if decide (frame_files = []) then
    emit (EPrint (MsgNoProcessedFrames batch_index)) ;;
    placeholder_in_thread w batch_index duration output_fps batch_id
  else
    frames ← parse_loop output_fps frame_files;
    let frames := sort_frames frames in
    let concat_list_path := path_join temp_dir (batch_id +:+ "_frames.txt") in
    write_concat_list concat_list_path output_fps frames ;;
    let segment_output := path_join temp_dir (batch_id +:+ "_segment.mp4") in
    let cmd_concat :=
      cmd_concat_head concat_list_path output_fps
      ++ [Lit "-y"; Lit "-c:v"; Lit "libx264"; Lit "-pix_fmt"; Lit "yuv420p"; Lit segment_output] in
    try_except (subprocess_run cmd_concat (bw_concat w))
      (on_called_process_error (emit (EPrint (MsgReassemblyError batch_index)))) ;;
    emit (ERemove concat_list_path) ;;
    emit (ERmTree reassembly_dir) ;;
    mret (Some segment_output).

(** The [else] branch of the reassembly phase (lines 388-454). *)
Definition standard_reassembly (w : BatchWorld) (batch_index : nat) (duration : Q)
    (output_fps : Z) (batch_id extraction_dir processed_dir : string)
    (extracted_count : nat) : M outcome :=
  let frame_files := sorted (glob_frames processed_dir (bw_processed w)) in
  if decide (frame_files = []) then
    emit (EPrint (MsgNoProcessedFrames batch_index)) ;;
    placeholder_with_progress w batch_index duration output_fps batch_id
      extraction_dir processed_dir extracted_count
  else
    frames ← parse_loop output_fps frame_files;
    let frames := sort_frames frames in
    let concat_list_path := path_join temp_dir (batch_id +:+ "_frames.txt") in
    write_concat_list concat_list_path output_fps frames ;;
    let segment_output := path_join temp_dir (batch_id +:+ "_segment.mp4") in
    let cmd_concat :=
      cmd_concat_head concat_list_path output_fps ++ [Lit "-y"; Lit segment_output] in
    try_except (subprocess_run cmd_concat (bw_concat w))
      (on_called_process_error (emit (EPrint (MsgReassemblyError batch_index)))) ;;
    emit (ERemove concat_list_path) ;;
    emit (ERmTree extraction_dir) ;;
    emit (ERmTree processed_dir) ;;
    mret (OPath segment_output).

(** The reassembly phase (lines 313-454). In the decoupled branch the
    thread's run is computed here and carried by the outcome; its events
    belong to the reassembly thread, not to the worker. *)
Definition reassembly_phase (w : BatchWorld) (batch_index : nat) (duration : Q)
    (output_fps : Z) (batch_id extraction_dir processed_dir : string)
    (extracted_count : nat) : M outcome :=
  if MAX_CONCURRENT_BATCHES cfg =? 1 then
    let reassembly_dir := processed_dir +:+ "_for_reassembly" in
    emit (EMove processed_dir reassembly_dir) ;;
    emit (EThreadStart ReassemblyThread) ;;
    emit (ERmTree extraction_dir) ;;
    mret (ODeferred (do_reassembly w batch_index duration output_fps batch_id reassembly_dir))
  else
    standard_reassembly w batch_index duration output_fps batch_id
      extraction_dir processed_dir extracted_count.

(** The processing phase (lines 240-310) and what follows it. The reports
    of the polling thread are placed before its join. *)
Definition processing_phase (w : BatchWorld) (batch_index : nat) (duration : Q)
    (output_fps : Z) (script_dir batch_id extraction_dir processed_dir : string)
    (extracted_count : nat) : M outcome :=
  emit (EThreadStart PollThread) ;;
  success ← upscale_loop (Z.to_nat (max_attempts - 0)) w
               (cmd_esrgan script_dir extraction_dir processed_dir) batch_index 0;
  for_each (bw_polled w) (λ delta, emit (EProgress delta)) ;;
  emit (EThreadJoin PollThread) ;;
  if negb success then
    emit (EPrint (MsgEsrganFailed batch_index max_attempts)) ;;
    placeholder_after_failure w batch_index duration output_fps batch_id
      extraction_dir processed_dir
  else
    reassembly_phase w batch_index duration output_fps batch_id
      extraction_dir processed_dir extracted_count.

(** [process_batch]. The parameters [time_base], [ffmpeg_extra_args] are not
    used by the body and are left out; [update_progress] is the event
    [EProgress]. *)
Definition process_batch (w : BatchWorld) (video_file : string) (batch_index : nat)
    (start_time duration : Q) (output_fps : Z) (script_dir : string) : M outcome :=
  let batch_id := batch_id_of w video_file batch_index in
  let extraction_dir := path_join temp_dir (batch_id +:+ "_extraction") in
  let processed_dir := path_join temp_dir (batch_id +:+ "_processed") in
  emit (EMakeDirs extraction_dir) ;;
  emit (EMakeDirs processed_dir) ;;
  (* Extraction Phase *)
  try_except
    (subprocess_run (cmd_extract video_file start_time duration output_fps extraction_dir)
       (bw_extract w))
    (on_called_process_error (emit (EPrint (MsgExtractError batch_index)))) ;;
  emit (ESleep 2) ;;
  let extracted_frames := glob_frames extraction_dir (bw_extracted w) in
  if decide (length extracted_frames < 2)%nat then
    emit (EPrint (MsgTooFewFrames batch_index (length extracted_frames))) ;;
    placeholder_with_progress w batch_index duration output_fps batch_id
      extraction_dir processed_dir (length extracted_frames)
  else
    processing_phase w batch_index duration output_fps script_dir batch_id
      extraction_dir processed_dir (length extracted_frames).

(** *** [process_video] (lines 457-632) *)

Definition total_frames (duration : Q) (output_fps : Z) : Z :=
  Qceiling (duration * inject_Z output_fps).

(** The submission loop (lines 526-542): the events of the coordinator. *)
Definition submit_batches (duration : Q) : M unit :=
  for_each (range (num_batches cfg duration)) (λ batch_index,
    emit (ESleep (inject_Z (STAGGER_DELAY cfg))) ;;
    let spec := batch_spec cfg duration batch_index in
    emit (ESubmit batch_index (spec_start spec) (spec_duration spec))).

(** The run of the worker of each batch: what its future holds. *)
Definition worker (w : VideoWorld) (converted_video : string) (duration : Q)
    (output_fps : Z) (script_dir : string) (batch_index : nat) : M outcome :=
  let spec := batch_spec cfg duration batch_index in
  process_batch (vw_batch w batch_index) converted_video batch_index
    (spec_start spec) (spec_duration spec) output_fps script_dir.

(** One iteration of the join loop (lines 544-551) on the state
    [(segment_files, batches_completed)]. An index out of range raises
    [IndexError] inside the [try], which the [except Exception] catches. *)
Definition join_step (futures : nat → res outcome) (st : list outcome * Z)
    (batch_index : nat) : M (list outcome * Z) :=
  let '(segment_files, batches_completed) := st in
  match futures batch_index with
  | Val result =>
      if decide (batch_index < length segment_files)%nat then
        emit (EAssign batch_index) ;;
        mret (<[batch_index := result]> segment_files, batches_completed + 1)
      else
        emit (EPrint (MsgBatchException (batch_index + 1))) ;;
        mret st
  | Raise _ =>
      emit (EPrint (MsgBatchException (batch_index + 1))) ;;
      mret st
  end.

Fixpoint join_loop (futures : nat → res outcome) (completed : list nat)
    (st : list outcome * Z) : M (list outcome * Z) :=
  match completed with
  | [] => mret st
  | batch_index :: rest =>
      st' ← join_step futures st batch_index;
      join_loop futures rest st'
  end.

(** Lines 557-561: every tuple is replaced by the content of its container
    after joining its thread. *)
Fixpoint resolve_deferred (segment_files : list outcome) : M (list (option string)) :=
  match segment_files with
  | [] => mret []
  | seg :: rest =>
      resolved ←
        match seg with
        | OPath p => mret (Some p)
        | ONone => mret None
        | ODeferred reassembly =>
            emit (EThreadJoin ReassemblyThread) ;;
            mret (match result reassembly with Val r => r | Raise _ => None end)
        end;
      others ← resolve_deferred rest;
      mret (resolved :: others)
  end.

(** Lines 569-574: the segment list of the job. *)
Definition write_segment_list (concat_list_file : string)
    (segment_files : list (option string)) : M unit :=
  emit (EOpen concat_list_file) ;;
  for_each segment_files (λ seg,
    match seg with
    | Some p => emit (EWriteLine concat_list_file (FileLine (escape_backslashes p)))
    | None => emit (EPrint MsgMissingSegment)
    end).

Definition cmd_concat_segments (concat_list_file video_no_audio : string) : list arg :=
  [Lit "ffmpeg"; Lit "-hide_banner"; Lit "-loglevel"; Lit "error";
   Lit "-f"; Lit "concat"; Lit "-safe"; Lit "0"; Lit "-y";
   Lit "-i"; Lit concat_list_file; Lit "-c"; Lit "copy"; Lit video_no_audio].

Definition cmd_merge (video_no_audio video_file output_file : string) : list arg :=
  [Lit "ffmpeg"; Lit "-hide_banner"; Lit "-loglevel"; Lit "error"; Lit "-y";
   Lit "-i"; Lit video_no_audio; Lit "-i"; Lit video_file;
   Lit "-map"; Lit "0:v"; Lit "-map"; Lit "1:a"; Lit "-c"; Lit "copy";
   Lit "-map_metadata"; Lit "1"; Lit output_file].

(** Lines 563-632, after every batch is resolved. [Some tt] stands for the
    elapsed time returned on success, [None] for the bare [return]. *)
Definition assemble (w : VideoWorld) (video_file script_dir converted_video : string)
    (segment_files : list (option string)) : M (option unit) :=
  (if decide (converted_video ≠ video_file) then emit (ERemove converted_video) else mret tt) ;;
  let base_name := (splitext (basename video_file)).1 in
  let concat_list_file := path_join temp_dir (base_name +:+ "_segments.txt") in
  write_segment_list concat_list_file segment_files ;;
  let video_no_audio := path_join temp_dir (base_name +:+ "_no_audio.mp4") in
  concatenated ←
    try_except
      (subprocess_run (cmd_concat_segments concat_list_file video_no_audio) (vw_concat w) ;;
       mret true)
      (on_called_process_error (emit (EPrint MsgConcatError) ;; mret false));
  if negb concatenated then mret None else
  let final_ext :=
    if negb (String.eqb (lower (FINAL_FILE_FORMAT_OVERRIDE cfg)) "false")
    then FINAL_FILE_FORMAT_OVERRIDE cfg
    else (splitext video_file).2 in
  let output_dir := path_join script_dir "output" in
  emit (EMakeDirs output_dir) ;;
  let output_file := path_join output_dir (base_name +:+ final_ext) in
  merged ←
    try_except
      (subprocess_run (cmd_merge video_no_audio video_file output_file) (vw_merge w) ;;
       mret true)
      (on_called_process_error (emit (EPrint MsgMergeError) ;; mret false));
  if negb merged then mret None else
  for_each segment_files (λ seg,
    match seg with
    | Some p => if decide (p ≠ EmptyString) then emit (ERemove p) else mret tt
    | None => mret tt
    end) ;;
  emit (ERemove concat_list_file) ;;
  emit (ERemove video_no_audio) ;;
  emit (EPrint (MsgFinished video_file output_file)) ;;
  mret (Some tt).

(** [process_video]: the events of the coordinator thread. The workers run
    in the pool; their runs are [worker]. The reporter thread only prints
    the status line and is kept as its start and join. *)
Definition process_video (w : VideoWorld) (video_file script_dir : string) : M (option unit) :=
  emit (EPrint (MsgProcessingVideo video_file)) ;;
  let fps := vw_fps w in
  let duration := vw_duration w in
  if Qle_bool duration 0 then
    emit (EPrint (MsgSkipZeroDuration video_file)) ;;
    mret None
  else
    converted_video ← convert_if_needed (vw_convert w) video_file fps;
    let output_fps := py_round fps in
    emit (EThreadStart ProgressThread) ;;
    let segment_files := replicate (Z.to_nat (num_batches cfg duration)) ONone in
    submit_batches duration ;;
    let futures := λ i, result (worker w converted_video duration output_fps script_dir i) in
    '(segment_files, batches_completed) ←
      join_loop futures (vw_completion w) (segment_files, 0);
    emit (EThreadJoin ProgressThread) ;;
    segment_files ← resolve_deferred segment_files;
    assemble w video_file script_dir converted_video segment_files.

End Pipeline.

(** ** Observations on traces *)

(** The indices assigned in the segment table, in order. *)
Definition assigned (t : list event) : list nat :=
  omap (λ e, match e with EAssign i => Some i | _ => None end) t.

(** The lines written to [path], in order. *)
Definition written (path : string) (t : list event) : list concat_line :=
  omap (λ e, match e with
             | EWriteLine p l => if decide (p = path) then Some l else None
             | _ => None
             end) t.

(** The argument vectors of the commands run, in order. *)
Definition commands (t : list event) : list (list arg) :=
  omap (λ e, match e with ERun argv _ => Some argv | _ => None end) t.

#[global] Instance Q_eq_dec : EqDecision Q.
Proof. solve_decision. Defined.

#[global] Instance arg_eq_dec : EqDecision arg.
Proof. solve_decision. Defined.

(** How many times the command [cmd] was run. *)
Definition calls (cmd : list arg) (t : list event) : nat :=
  length (filter (λ c, c = cmd) (commands t)).

(** The deltas passed to [update_progress], in order. *)
Definition progress_reports (t : list event) : list Z :=
  omap (λ e, match e with EProgress d => Some d | _ => None end) t.

(** The waits, in order. *)
Definition sleeps (t : list event) : list Q :=
  omap (λ e, match e with ESleep s => Some s | _ => None end) t.

(** The batch indices submitted, in order. *)
Definition submissions (t : list event) : list nat :=
  omap (λ e, match e with ESubmit i _ _ => Some i | _ => None end) t.

(** The messages printed, in order. *)
Definition printed (t : list event) : list message :=
  omap (λ e, match e with EPrint m => Some m | _ => None end) t.

Definition is_missing_segment (m : message) : bool :=
  match m with MsgMissingSegment => true | _ => false end.

(** The paths that exist after a trace, starting from [fs]: directories
    made, files opened for writing, the file produced by a completed
    [ffmpeg] command (its last argument, unless it is a [%] pattern of
    frames inside a directory), minus what was removed or moved away. *)
Definition output_of (argv : list arg) : option string :=
  match argv, last argv with
  | Lit "ffmpeg" :: _, Some (Lit p) => if has_char "%"%char p then None else Some p
  | _, _ => None
  end.

Definition remove_path (p : string) (fs : list string) : list string :=
  filter (λ q, q ≠ p) fs.

Definition remove_tree (p : string) (fs : list string) : list string :=
  filter (λ q, q ≠ p ∧ String.prefix (p +:+ "/") q = false) fs.

Definition add_path (p : string) (fs : list string) : list string :=
  if decide (p ∈ fs) then fs else fs ++ [p].

Definition apply_event (fs : list string) (e : event) : list string :=
  match e with
  | EMakeDirs p => add_path p fs
  | EOpen p => add_path p fs
  | ERun argv Completed =>
      match output_of argv with Some p => add_path p fs | None => fs end
  | EMove src dst => add_path dst (remove_tree src fs)
  | ERmTree p => remove_tree p fs
  | ERemove p => remove_path p fs
  | _ => fs
  end.

Definition leftover (fs : list string) (t : list event) : list string :=
  foldl apply_event fs t.

(** Whether a future holds a value, and the slot of the segment table that
    it fills: [None] is what the table was initialised with. *)
Definition returned (future : res outcome) : bool :=
  match future with Val _ => true | Raise _ => false end.

Definition slot (future : res outcome) : outcome :=
  match future with Val r => r | Raise _ => ONone end.

(** The event of one iteration of the join loop. *)
Definition join_event (futures : nat → res outcome) (i : nat) : event :=
  if returned (futures i) then EAssign i else EPrint (MsgBatchException (i + 1)).

(** What a slot holds once its handle, if any, is joined. *)
Definition resolved (seg : outcome) : option string :=
  match seg with
  | OPath p => Some p
  | ONone => None
  | ODeferred reassembly =>
      match result reassembly with Val r => r | Raise _ => None end
  end.

(** The segment a batch contributes to the final list. *)
Definition final_segment (future : res outcome) : option string :=
  resolved (slot future).

(** The events of the resolution loop for one slot, of the segment list
    loop for one slot, and the kinds of events that follow the segment list
    in [assemble]. *)
Definition join_handle (seg : outcome) : list event :=
  match seg with ODeferred _ => [EThreadJoin ReassemblyThread] | _ => [] end.

Definition segment_line (path : string) (seg : option string) : event :=
  match seg with
  | Some p => EWriteLine path (FileLine (escape_backslashes p))
  | None => EPrint MsgMissingSegment
  end.

Definition job_tail_event (e : event) : Prop :=
  match e with
  | ERun _ _ | EMakeDirs _ | ERemove _ => True
  | EPrint m => is_missing_segment m = false
  | _ => False
  end.

(** The kinds of events of the submission, join and resolution loops. *)
Definition coordination_event (e : event) : Prop :=
  match e with
  | ESleep _ | ESubmit _ _ _ | EAssign _ | EThreadStart _ | EThreadJoin _ => True
  | EPrint m => is_missing_segment m = false
  | _ => False
  end.

(** Neither a wait nor a submission. *)
Definition no_wait (e : event) : Prop :=
  match e with
  | ESleep _ | ESubmit _ _ _ => False
  | _ => True
  end.

(** An engine call that ended with one of the two exceptions the retry
    loop handles. *)
Definition failed (r : run_result) : Prop := r = NonZeroExit ∨ r = TimedOut.

(** The events of the extraction phase of a batch whose extraction command
    ended as [r]. *)
Definition extraction_events (video_file : string) (batch_index : nat)
    (start_time duration : Q) (output_fps : Z) (extraction_dir processed_dir : string)
    (r : run_result) : list event :=
  [EMakeDirs extraction_dir; EMakeDirs processed_dir;
   ERun (cmd_extract video_file start_time duration output_fps extraction_dir) r]
  ++ (if decide (r = NonZeroExit) then [EPrint (MsgExtractError batch_index)] else [])
  ++ [ESleep 2].

(** The frames of the edit-list, the lines written for them and the prints
    of the parse loop. *)
Definition parsed_frames (output_fps : Z) (frame_files : list string) : list (string * Q) :=
  sort_frames (omap (parse_frame output_fps) frame_files).

Definition frame_lines (output_fps : Z) (count : nat) (entry : nat * (string * Q))
    : list concat_line :=
  [FileLine (escape_backslashes entry.2.1);
   DurationLine (frame_duration output_fps count entry.1)].

Definition concat_lines (output_fps : Z) (frames : list (string * Q)) : list concat_line :=
  Header :: flat_map (frame_lines output_fps (length frames)) (enumerate frames).

Definition parse_error_events (output_fps : Z) (frame_files : list string) : list event :=
  flat_map (λ filepath,
    match parse_frame output_fps filepath with
    | Some _ => []
    | None => [EPrint (MsgFrameParseError (basename filepath))]
    end) frame_files.

(** What follows the frame concatenation command, ended as [r], when the
    directories [dirs] are then deleted. *)
Definition after_concat (batch_index : nat) (concat_list_path : string)
    (dirs : list string) (r : run_result) : list event :=
  match r with
  | Completed => ERemove concat_list_path :: map ERmTree dirs
  | NonZeroExit =>
      EPrint (MsgReassemblyError batch_index) :: ERemove concat_list_path :: map ERmTree dirs
  | TimedOut | SpawnFailed => []
  end.

(** The order of the edit-list. *)
Definition by_timestamp (a b : string * Q) : Prop := (a.2 <= b.2)%Q.

(** The second argument of every [ffmpeg] command of the pipeline. *)
Definition is_ffmpeg (cmd : list arg) : Prop := cmd !! 1%nat = Some (Lit "-hide_banner").

(** The same world with another completion order. *)
Definition with_completion (w : VideoWorld) (order : list nat) : VideoWorld :=
  {| vw_fps := vw_fps w; vw_duration := vw_duration w; vw_time_base := vw_time_base w;
     vw_convert := vw_convert w; vw_batch := vw_batch w; vw_completion := order;
     vw_concat := vw_concat w; vw_merge := vw_merge w |}.

(** ** Sample inputs *)

(** A batch in which nothing is extracted and every command completes. *)
Definition empty_batch : BatchWorld := {|
  bw_now := 1700000000; bw_extract := Completed; bw_extracted := [];
  bw_placeholder := Completed; bw_esrgan := λ _, Completed; bw_polled := [];
  bw_processed := []; bw_concat := Completed |}.

(** A batch of three frames that the engine upscales at its third attempt;
    the processed names are not zero-padded. *)
Definition three_frames : BatchWorld := {|
  bw_now := 1700000000; bw_extract := Completed;
  bw_extracted := ["frame_000001.png"; "frame_000002.png"; "frame_000003.png"];
  bw_placeholder := Completed;
  bw_esrgan := λ k, if k =? 2 then Completed else TimedOut;
  bw_polled := [2; 1];
  bw_processed := ["frame_10.png"; "frame_9.png"; "frame_100.png"];
  bw_concat := Completed |}.

Definition with_placeholder (w : BatchWorld) (r : run_result) : BatchWorld :=
  {| bw_now := bw_now w; bw_extract := bw_extract w; bw_extracted := bw_extracted w;
     bw_placeholder := r; bw_esrgan := bw_esrgan w; bw_polled := bw_polled w;
     bw_processed := bw_processed w; bw_concat := bw_concat w |}.

Definition with_esrgan (w : BatchWorld) (f : Z → run_result) : BatchWorld :=
  {| bw_now := bw_now w; bw_extract := bw_extract w; bw_extracted := bw_extracted w;
     bw_placeholder := bw_placeholder w; bw_esrgan := f; bw_polled := bw_polled w;
     bw_processed := bw_processed w; bw_concat := bw_concat w |}.

Definition with_processed (w : BatchWorld) (names : list string) : BatchWorld :=
  {| bw_now := bw_now w; bw_extract := bw_extract w; bw_extracted := bw_extracted w;
     bw_placeholder := bw_placeholder w; bw_esrgan := bw_esrgan w; bw_polled := bw_polled w;
     bw_processed := names; bw_concat := bw_concat w |}.

(** A 50 second video at 30 fps, already MP4, whose batches are all
    [empty_batch]. *)
Definition sample_video : VideoWorld := {|
  vw_fps := 30; vw_duration := 50; vw_time_base := 1 # 1000;
  vw_convert := Completed; vw_batch := λ _, empty_batch;
  vw_completion := [0; 1; 2]%nat; vw_concat := Completed; vw_merge := Completed |}.

Definition with_concat (w : VideoWorld) (r : run_result) : VideoWorld :=
  {| vw_fps := vw_fps w; vw_duration := vw_duration w; vw_time_base := vw_time_base w;
     vw_convert := vw_convert w; vw_batch := vw_batch w; vw_completion := vw_completion w;
     vw_concat := r; vw_merge := vw_merge w |}.

(** The configuration with a pool of one worker. *)
Definition serial_config : Config := {|
  MAX_CONCURRENT_BATCHES := 1;
  MODEL_NAME := MODEL_NAME default_config;
  STAGGER_DELAY := STAGGER_DELAY default_config;
  ESRGAN_SCALE := ESRGAN_SCALE default_config;
  ESRGAN_TILE := ESRGAN_TILE default_config;
  ESRGAN_EXTRA_ARGS := ESRGAN_EXTRA_ARGS default_config;
  BATCH_SIZE := BATCH_SIZE default_config;
  FFMPEG_REASSEMBLY_ARGS := FFMPEG_REASSEMBLY_ARGS default_config;
  FINAL_FILE_FORMAT_OVERRIDE := FINAL_FILE_FORMAT_OVERRIDE default_config
|}.

(** ** Properties stated about the model *)

(** A list of batch specs tiles [[0, D)]: it starts at 0, each spec starts
    where the previous one ends, the last one ends at [D], and no spec is
    empty. *)
Definition tiles (D : Q) (specs : list BatchSpec) : Prop :=
  specs ≠ []
  ∧ (∀ s, head specs = Some s → (spec_start s == 0)%Q)
  ∧ (∀ i s s', specs !! i = Some s → specs !! S i = Some s' →
       (spec_start s' == spec_start s + spec_duration s)%Q)
  ∧ (∀ s, last specs = Some s → (spec_start s + spec_duration s == D)%Q)
  ∧ (∀ s, s ∈ specs → (0 < spec_duration s)%Q).

(** ** Further observations *)

(** The paths passed to [os.remove], in order. *)
Definition removed (t : list event) : list string :=
  omap (λ e, match e with ERemove p => Some p | _ => None end) t.

(** The final extension chosen by lines 592-596. *)
Definition final_ext_of (cfg : Config) (video_file : string) : string :=
  if String.eqb (lower (FINAL_FILE_FORMAT_OVERRIDE cfg)) "false"
  then (splitext video_file).2
  else FINAL_FILE_FORMAT_OVERRIDE cfg.

Definition is_deferred (seg : outcome) : bool :=
  match seg with ODeferred _ => true | _ => false end.

(** ** Probing: [get_video_info] (lines 121-177)

    The three [ffprobe] calls are inputs of the model: how each ends and
    what it prints. [float] is a parameter of the section, [None] standing
    for [ValueError]; floats that are not finite are outside the model. *)

Record ProbeWorld := {
  pw_stream : run_result;              (* the probe of [avg_frame_rate,duration] *)
  pw_stream_lines : list string;       (* [result.stdout.splitlines()] *)
  pw_format : run_result;              (* the probe of the format duration *)
  pw_format_out : string;
  pw_time_base : run_result;           (* the probe of [time_base] *)
  pw_time_base_out : string
}.

Inductive probe_event :=
| ProbeRun (argv : list arg) (r : run_result)
| ProbeError (video_file : string).    (* [Error getting video info for ...] *)

Definition cmd_probe_stream (video_file : string) : list arg :=
  [Lit "ffprobe"; Lit "-v"; Lit "error"; Lit "-select_streams"; Lit "v:0";
   Lit "-show_entries"; Lit "stream=avg_frame_rate,duration";
   Lit "-of"; Lit "default=noprint_wrappers=1:nokey=1"; Lit video_file].

Definition cmd_probe_format (video_file : string) : list arg :=
  [Lit "ffprobe"; Lit "-v"; Lit "error"; Lit "-show_entries"; Lit "format=duration";
   Lit "-of"; Lit "default=noprint_wrappers=1:nokey=1"; Lit video_file].

Definition cmd_probe_time_base (video_file : string) : list arg :=
  [Lit "ffprobe"; Lit "-v"; Lit "error"; Lit "-select_streams"; Lit "v:0";
   Lit "-show_entries"; Lit "stream=time_base";
   Lit "-of"; Lit "default=noprint_wrappers=1:nokey=1"; Lit video_file].

(** [s.strip()]. *)
Definition strip_str (s : string) : string := str (strip (chars s)).

Definition is_completed (r : run_result) : bool :=
  match r with Completed => true | _ => false end.

(** The values returned by the [except] branch. *)
Definition fallback_info : Q * Q * Q := (24, 0, 1 # 1000)%Q.

Section Probe.

Variable float : string → option Q.

(** Lines 150-154 and 166-170: [num/den] or a plain number; [None] stands
    for [ValueError] (a bad literal, or more than one [/]) and
    [ZeroDivisionError]. *)
Definition parse_ratio (s : string) : option Q :=
  if has_char slash s then
    match split "/" s with
    | [num; den] =>
        n ← float num;
        d ← float den;
        if Qeq_bool d 0 then None else Some (n / d)%Q
    | _ => None
    end
  else float s.

(** The duration string after lines 139-148, with the command run for it. *)
Definition probe_duration (pw : ProbeWorld) (video_file duration_str : string)
    : list probe_event * option string :=
  if String.eqb duration_str "N/A" then
    ([ProbeRun (cmd_probe_format video_file) (pw_format pw)],
     if is_completed (pw_format pw) then Some (strip_str (pw_format_out pw)) else None)
  else ([], Some duration_str).

(** The body of the [try]; [None] stands for any exception. *)
Definition probe_body (pw : ProbeWorld) (video_file : string)
    : list probe_event * option (Q * Q * Q) :=
  let stream := ProbeRun (cmd_probe_stream video_file) (pw_stream pw) in
  if negb (is_completed (pw_stream pw)) then ([stream], None) else
  match pw_stream_lines pw with
  | line0 :: line1 :: _ =>
      let fps_str := strip_str line0 in
      let '(format, duration_str) := probe_duration pw video_file (strip_str line1) in
      match duration_str with
      | None => (stream :: format, None)
      | Some duration_str =>
          match parse_ratio fps_str with
          | None => (stream :: format, None)
          | Some fps =>
              match float duration_str with
              | None => (stream :: format, None)
              | Some duration =>
                  let tb := ProbeRun (cmd_probe_time_base video_file) (pw_time_base pw) in
                  if negb (is_completed (pw_time_base pw))
                  then (stream :: format ++ [tb], None)
                  else
                    match parse_ratio (strip_str (pw_time_base_out pw)) with
                    | None => (stream :: format ++ [tb], None)
                    | Some time_base =>
                        (stream :: format ++ [tb], Some (fps, duration, time_base))
                    end
              end
          end
      end
  | _ => ([stream], None)
  end.

Definition get_video_info (pw : ProbeWorld) (video_file : string)
    : list probe_event * (Q * Q * Q) :=
  match probe_body pw video_file with
  | (t, Some info) => (t, info)
  | (t, None) => (t ++ [ProbeError video_file], fallback_info)
  end.

End Probe.

(** The probe commands run, in order. *)
Definition probes (t : list probe_event) : list (list arg) :=
  omap (λ e, match e with ProbeRun argv _ => Some argv | _ => None end) t.

(** A [float] for the witnesses: integer literals only. *)
Definition float_of_int_literal (s : string) : option Q := inject_Z <$> py_int s.

(** The world of a job whose video was probed as [info]. *)
Definition probed_as (info : Q * Q * Q) (w : VideoWorld) : Prop :=
  vw_fps w = info.1.1 ∧ vw_duration w = info.1.2 ∧ vw_time_base w = info.2.

(** ** The script: [main] (lines 635-666)

    The files found by [os.walk] are an input, in the order of the walk,
    each with the world of its job and the time its job takes. *)

Record Job := {
  job_video : string;
  job_world : VideoWorld;
  job_elapsed : Q                      (* [time.time() - video_start_time] *)
}.

Inductive main_event :=
| MainStarted                                        (* the two opening prints *)
| MainNoVideos                                       (* [No video files found ...] *)
| MainVideo (i total : nat) (video_path : string)    (* the banner and the call *)
| MainProgress (processed_videos total : nat)        (* [Global progress: ...] *)
| MainTotal (total_elapsed : Q)                      (* [Total elapsed time ...] *)
| MainNoneProcessed.                                 (* [No videos were processed.] *)

Section Main.

Variable cfg : Config.
Variable temp_dir : string.
Variable script_dir : string.

(** What [process_video] returns to [main]. *)
Definition elapsed_of (job : Job) : res (option Q) :=
  match result (process_video cfg temp_dir (job_world job) (job_video job) script_dir) with
  | Val (Some _) => Val (Some (job_elapsed job))
  | Val None => Val None
  | Raise e => Raise e
  end.

(** The loop of lines 651-657 from video number [i], on the state
    [(processed_videos, total_elapsed)]. *)
Fixpoint main_loop (total_videos i : nat) (jobs : list Job) (st : nat * Q)
    : list main_event * res (nat * Q) :=
  match jobs with
  | [] => ([], Val st)
  | job :: rest =>
      let banner := MainVideo i total_videos (job_video job) in
      match elapsed_of job with
      | Raise e => ([banner], Raise e)
      | Val None =>
          let '(t, r) := main_loop total_videos (S i) rest st in (banner :: t, r)
      | Val (Some elapsed) =>
          let st' := (S st.1, (st.2 + elapsed)%Q) in
          let '(t, r) := main_loop total_videos (S i) rest st' in
          (banner :: MainProgress st'.1 total_videos :: t, r)
      end
  end.

Definition main (jobs : list Job) : list main_event * res unit :=
  let total_videos := length jobs in
  if decide (total_videos = 0%nat) then ([MainStarted; MainNoVideos], Val tt)
  else
    match main_loop total_videos 1 jobs (0%nat, 0%Q) with
    | (t, Raise e) => (MainStarted :: t, Raise e)
    | (t, Val (processed_videos, total_elapsed)) =>
        (MainStarted :: t
         ++ [if decide (0 < processed_videos)%nat then MainTotal total_elapsed
             else MainNoneProcessed],
         Val tt)
    end.

End Main.

(** The videos whose job was started, with their number, and the counts of
    the progress lines, in order. *)
Definition attempted (t : list main_event) : list (nat * string) :=
  omap (λ e, match e with MainVideo i _ p => Some (i, p) | _ => None end) t.

Definition global_progress (t : list main_event) : list nat :=
  omap (λ e, match e with MainProgress k _ => Some k | _ => None end) t.

Definition is_summary (e : main_event) : bool :=
  match e with MainTotal _ | MainNoneProcessed => true | _ => false end.

(** Whether the job of a video returns its elapsed time, and whether it
    raises. *)
Definition finished (cfg : Config) (temp_dir script_dir : string) (job : Job) : bool :=
  match elapsed_of cfg temp_dir script_dir job with Val (Some _) => true | _ => false end.

Definition raises (cfg : Config) (temp_dir script_dir : string) (job : Job) : bool :=
  match elapsed_of cfg temp_dir script_dir job with Raise _ => true | _ => false end.

(** [total_elapsed] after the jobs [jobs], from [start]. *)
Definition add_elapsed (start : Q) (jobs : list Job) : Q :=
  foldl (λ acc job, (acc + job_elapsed job)%Q) start jobs.

(** Sample jobs: a video that is processed, one that is skipped for its
    duration, and one whose conversion fails. *)
Definition processed_job : Job :=
  {| job_video := "/app/input/a.mp4"; job_world := sample_video; job_elapsed := 90 |}.

Definition skipped_job : Job :=
  {| job_video := "/app/input/b.mp4";
     job_world := {| vw_fps := 24; vw_duration := 0; vw_time_base := 1 # 1000;
                     vw_convert := Completed; vw_batch := λ _, empty_batch;
                     vw_completion := []; vw_concat := Completed; vw_merge := Completed |};
     job_elapsed := 0 |}.

Definition failing_job : Job :=
  {| job_video := "/app/input/c.avi";
     job_world := {| vw_fps := 30; vw_duration := 50; vw_time_base := 1 # 1000;
                     vw_convert := NonZeroExit; vw_batch := λ _, empty_batch;
                     vw_completion := [0; 1; 2]%nat; vw_concat := Completed;
                     vw_merge := Completed |};
     job_elapsed := 5 |}.



(** Line 504 (and 515) of [progress_bar]: [(current / total_frames) * 100];
    [None] stands for [ZeroDivisionError]. *)
Definition percentage (current total : Z) : option Q :=
  if total =? 0 then None else Some (inject_Z current / inject_Z total * 100)%Q.

(** ** [setup.py]: the first loop of [download_and_extract] (lines 13-22)

    The names of the archive ([z.namelist()]) are an input. The second
    loop goes through [os.path.relpath], which depends on the working
    directory, and is not embedded. *)

Inductive setup_event :=
| SetupWrite (entry target_path : string).    (* the entry copied to [target_path] *)

Definition bin_files : list string :=
  ["realesrgan-ncnn-vulkan.exe"; "vcomp140.dll"; "vcomp140d.dll"].

Definition extract_bin (names : list string) (bin_folder : string) : list setup_event :=
  flat_map (λ file,
    let basename := basename file in
    if decide (basename ∈ bin_files)
    then [SetupWrite file (path_join bin_folder basename)]
    else []) names.

(** The entries copied, with their targets, in order. *)
Definition copies (t : list setup_event) : list (string * string) :=
  map (λ e, match e with SetupWrite entry target => (entry, target) end) t.

(** * Theorems *)

(** ** Batch planning *)

Lemma py_min_spec (a b : Q) : (py_min a b == Qmin a b)%Q.
Proof.
  unfold py_min. destruct (Qlt_le_dec b a) as [H|H].
  - rewrite Q.min_r; [reflexivity | apply Qlt_le_weak, H].
  - rewrite Q.min_l; [reflexivity | exact H].
Qed.

Lemma range_lookup (n : Z) (i k : nat) :
  range n !! i = Some k → k = i ∧ Z.of_nat i < n.
Proof. unfold range. intros H. apply lookup_seq in H. lia. Qed.

Lemma length_range (n : Z) : length (range n) = Z.to_nat n.
Proof. unfold range. apply length_seq. Qed.

Lemma batch_specs_lookup (cfg : Config) (D : Q) (i : nat) (s : BatchSpec) :
  batch_specs cfg D !! i = Some s →
  s = batch_spec cfg D i ∧ Z.of_nat i < num_batches cfg D.
Proof.
  unfold batch_specs. rewrite list_lookup_fmap.
  destruct (range _ !! i) as [k|] eqn:E; [|discriminate].
  apply range_lookup in E as [-> ?]. simpl. intros [= <-]. done.
Qed.

Lemma length_batch_specs (cfg : Config) (D : Q) :
  length (batch_specs cfg D) = Z.to_nat (num_batches cfg D).
Proof. unfold batch_specs. rewrite length_map. apply length_range. Qed.

Lemma plan_positive (cfg : Config) (D : Q) :
  0 < BATCH_SIZE cfg →
  batch_duration cfg D = inject_Z (BATCH_SIZE cfg)
  ∧ num_batches cfg D = Qceiling (D / inject_Z (BATCH_SIZE cfg)).
Proof.
  intros HL. unfold batch_duration, num_batches, plan.
  destruct (Z.eqb_spec (BATCH_SIZE cfg) 0); [lia|]. done.
Qed.

Lemma plan_zero (cfg : Config) (D : Q) :
  BATCH_SIZE cfg = 0 →
  batch_duration cfg D = D ∧ num_batches cfg D = 1.
Proof.
  intros HL. unfold batch_duration, num_batches, plan. rewrite HL. done.
Qed.

(** The bounds that define the batch count: [(n - 1) * bd < D <= n * bd]. *)
Lemma plan_bounds (cfg : Config) (D : Q) :
  (0 < D)%Q → 0 <= BATCH_SIZE cfg →
  let n := num_batches cfg D in
  let bd := batch_duration cfg D in
  (0 < bd)%Q ∧ 1 <= n ∧ (inject_Z (n - 1) * bd < D)%Q ∧ (D <= inject_Z n * bd)%Q.
Proof.
  intros HD HL n bd.
  destruct (Z.eq_dec (BATCH_SIZE cfg) 0) as [H0|H0].
  - destruct (plan_zero cfg D H0) as [Hbd Hn]. subst n bd. rewrite Hbd, Hn.
    change (inject_Z (1 - 1)) with 0%Q. change (inject_Z 1) with 1%Q.
    repeat split; [done | lia | lra | lra].
  - destruct (plan_positive cfg D ltac:(lia)) as [Hbd Hn]. subst n bd.
    rewrite Hbd, Hn. set (l := inject_Z (BATCH_SIZE cfg)).
    assert (Hl : (0 < l)%Q) by (unfold l; rewrite <- (Zlt_Qlt 0); lia).
    set (q := (D / l)%Q).
    assert (Hq : (D == q * l)%Q) by (unfold q; field; lra).
    assert (Hq0 : (0 < q)%Q).
    { unfold q. apply Qlt_shift_div_l; lra. }
    pose proof (Qle_ceiling q) as Hc1. pose proof (Qceiling_lt q) as Hc2.
    repeat split.
    + done.
    + assert ((0 < inject_Z (Qceiling q))%Q) by lra.
      rewrite <- (Zlt_Qlt 0) in H. lia.
    + rewrite Hq. apply Qmult_lt_compat_r; done.
    + rewrite Hq. apply Qmult_le_compat_r; lra.
Qed.

Lemma last_lookup_length {A : Type} (l : list A) (x : A) :
  last l = Some x → l !! (length l - 1)%nat = Some x.
Proof. rewrite last_lookup. by replace (pred (length l)) with (length l - 1)%nat by lia. Qed.

(** Durations of the batches: a full batch before the last index, the
    remainder at the last index. *)
Lemma batch_spec_duration (cfg : Config) (D : Q) (i : nat) :
  (0 < D)%Q → 0 <= BATCH_SIZE cfg →
  Z.of_nat i < num_batches cfg D →
  let n := num_batches cfg D in
  let bd := batch_duration cfg D in
  let s := batch_spec cfg D i in
  (spec_start s == inject_Z (Z.of_nat i) * bd)%Q
  ∧ (0 < spec_duration s)%Q
  ∧ (Z.of_nat i < n - 1 → (spec_duration s == bd)%Q)
  ∧ (Z.of_nat i = n - 1 → (spec_duration s == D - inject_Z (n - 1) * bd)%Q).
Proof.
  intros HD HL Hi n bd s.
  destruct (plan_bounds cfg D HD HL) as (Hbd & Hn & Hlo & Hhi).
  fold n bd in Hbd, Hn, Hlo, Hhi.
  assert (Hile : (inject_Z (Z.of_nat i) * bd <= inject_Z (n - 1) * bd)%Q).
  { apply Qmult_le_compat_r; [|lra]. rewrite <- Zle_Qle. lia. }
  unfold s, batch_spec; cbn [spec_start spec_duration]. fold bd.
  split; [reflexivity|].
  unfold py_min.
  destruct (Qlt_le_dec _ _) as [Hlt|Hge]; (split; [lra|]); split; intros Hcase.
  - exfalso.
    assert (Hstep : (inject_Z (Z.of_nat i + 1) * bd <= inject_Z (n - 1) * bd)%Q).
    { apply Qmult_le_compat_r; [|lra]. rewrite <- Zle_Qle. lia. }
    rewrite inject_Z_plus in Hstep. change (inject_Z 1) with 1%Q in Hstep. lra.
  - by rewrite Hcase.
  - reflexivity.
  - rewrite Hcase in Hge.
    replace n with ((n - 1) + 1) in Hhi by lia.
    rewrite inject_Z_plus in Hhi. change (inject_Z 1) with 1%Q in Hhi. lra.
Qed.

(** C1. For every duration [D > 0] and batch length [L >= 0]: when [L > 0]
    the planner makes [ceil(D / L)] specs, spec [i] starts at [i * L] and
    lasts [min(L, D - i * L)], and the last spec lasts
    [D - L * (count - 1)]; when [L = 0] there is exactly one spec, starting
    at 0 and lasting [D]; in both cases the specs tile [[0, D)]. *)
Theorem C1_batch_plan_tiles_duration (cfg : Config) (D : Q) :
  (0 < D)%Q → 0 <= BATCH_SIZE cfg →
  let L := BATCH_SIZE cfg in
  let specs := batch_specs cfg D in
  (0 < L →
     Z.of_nat (length specs) = Qceiling (D / inject_Z L)
     ∧ (∀ i s, specs !! i = Some s →
          spec_index s = i
          ∧ (spec_start s == inject_Z (Z.of_nat i) * inject_Z L)%Q
          ∧ (spec_duration s
             == Qmin (inject_Z L) (D - inject_Z (Z.of_nat i) * inject_Z L))%Q)
     ∧ (∀ s, last specs = Some s →
          (spec_duration s
           == D - inject_Z L * inject_Z (Z.of_nat (length specs) - 1))%Q))
  ∧ (L = 0 →
     ∃ s, specs = [s] ∧ spec_index s = 0%nat
          ∧ (spec_start s == 0)%Q ∧ (spec_duration s == D)%Q)
  ∧ tiles D specs.
Proof.
  intros HD HL L specs.
  destruct (plan_bounds cfg D HD HL) as (Hbd & Hn & Hlo & Hhi).
  assert (Hlen : Z.of_nat (length specs) = num_batches cfg D).
  { unfold specs. rewrite length_batch_specs. lia. }
  split; [|split].
  - intros HLpos. destruct (plan_positive cfg D HLpos) as [Ebd En].
    split; [by rewrite Hlen, En|]. split.
    + intros i s Hs. apply batch_specs_lookup in Hs as [-> Hi].
      split; [done|]. unfold batch_spec; cbn [spec_start spec_duration]. rewrite Ebd. fold L.
      split; [reflexivity | apply py_min_spec].
    + intros s Hs. apply last_lookup_length in Hs.
      apply batch_specs_lookup in Hs as [-> Hi]. fold specs in Hi |- *.
      destruct (batch_spec_duration cfg D (length specs - 1) HD HL Hi) as (_ & _ & _ & Hlast).
      rewrite Hlast by lia. rewrite Ebd, Hlen. fold L. ring.
  - intros HL0. destruct (plan_zero cfg D HL0) as [Ebd En].
    exists (batch_spec cfg D 0). unfold specs, batch_specs. rewrite En. simpl.
    split; [done|]. split; [done|].
    unfold py_min. rewrite Ebd. split; [ring|].
    destruct (Qlt_le_dec _ _); ring.
  - unfold tiles. split; [|split; [|split; [|split]]].
    + intros E. rewrite E in Hlen. simpl in Hlen. lia.
    + intros s Hs. rewrite head_lookup in Hs.
      apply batch_specs_lookup in Hs as [-> _]. unfold batch_spec; cbn [spec_start]. ring.
    + intros i s s' Hs Hs'.
      apply batch_specs_lookup in Hs as [-> Hi].
      apply batch_specs_lookup in Hs' as [-> Hi'].
      destruct (batch_spec_duration cfg D i HD HL Hi) as (_ & _ & Hfull & _).
      rewrite Hfull by lia. unfold batch_spec; cbn [spec_start].
      rewrite Nat2Z.inj_succ. unfold Z.succ. rewrite inject_Z_plus.
      change (inject_Z 1) with 1%Q. ring.
    + intros s Hs. apply last_lookup_length in Hs.
      apply batch_specs_lookup in Hs as [-> Hi]. fold specs in Hi |- *.
      destruct (batch_spec_duration cfg D (length specs - 1) HD HL Hi) as (Hst & _ & _ & Hlast).
      rewrite Hlast by lia. rewrite Hst.
      replace (Z.of_nat (length specs - 1)) with (num_batches cfg D - 1) by lia. ring.
    + intros s Hs. apply list_elem_of_lookup in Hs as [i Hs].
      apply batch_specs_lookup in Hs as [-> Hi].
      by destruct (batch_spec_duration cfg D i HD HL Hi) as (_ & Hpos & _).
Qed.

Lemma C1_witness :
  (0 < 50)%Q ∧ 0 <= BATCH_SIZE default_config
  ∧ length (batch_specs default_config 50) = 3%nat
  ∧ tiles 50 (batch_specs default_config 50).
Proof.
  assert (HD : (0 < 50)%Q) by reflexivity.
  assert (HL : 0 <= BATCH_SIZE default_config) by (simpl; lia).
  split; [exact HD|]. split; [exact HL|].
  split; [reflexivity|].
  apply (C1_batch_plan_tiles_duration default_config 50 HD HL).
Defined.

(** ** Computations and their traces *)

Lemma trace_bind {A B : Type} (m : M A) (f : A → M B) :
  trace (m ≫= f)
  = trace m ++ match result m with Val a => trace (f a) | Raise _ => [] end.
Proof.
  destruct m as [t [a|e]]; unfold trace, result; simpl.
  - by destruct (f a).
  - by rewrite app_nil_r.
Qed.

Lemma result_bind {A B : Type} (m : M A) (f : A → M B) :
  result (m ≫= f)
  = match result m with Val a => result (f a) | Raise e => Raise e end.
Proof.
  destruct m as [t [a|e]]; unfold result; simpl; [|done].
  by destruct (f a).
Qed.

Lemma trace_emit_bind {B : Type} (e : event) (k : M B) :
  trace (emit e ;; k) = e :: trace k.
Proof. by rewrite trace_bind. Qed.

Lemma result_emit_bind {B : Type} (e : event) (k : M B) :
  result (emit e ;; k) = result k.
Proof. by rewrite result_bind. Qed.

Lemma result_for_each {A : Type} (l : list A) (body : A → M unit) :
  (∀ x, x ∈ l → result (body x) = Val tt) →
  result (for_each l body) = Val tt.
Proof.
  induction l as [|x l IH]; intros H; [done|].
  unfold for_each; simpl. rewrite result_bind, H by left.
  apply IH. intros y Hy. apply H. by right.
Qed.

Lemma trace_for_each {A : Type} (l : list A) (body : A → M unit) :
  (∀ x, x ∈ l → result (body x) = Val tt) →
  trace (for_each l body) = flat_map (λ x, trace (body x)) l.
Proof.
  induction l as [|x l IH]; intros H; [done|].
  unfold for_each; simpl. rewrite trace_bind, H by left.
  f_equal. apply IH. intros y Hy. apply H. by right.
Qed.

(** ** Staggered submission *)

Lemma omap_flat_map {A B C : Type} (f : B → option C) (g : A → list B) (l : list A) :
  omap f (flat_map g l) = flat_map (λ x, omap f (g x)) l.
Proof.
  induction l as [|x l IH]; [done|]. simpl. by rewrite omap_app, IH.
Qed.

Lemma flat_map_singleton {A B : Type} (f : A → B) (l : list A) :
  flat_map (λ x, [f x]) l = map f l.
Proof. induction l as [|x l IH]; [done|]. simpl. by rewrite IH. Qed.

Lemma trace_submit_batches (cfg : Config) (D : Q) :
  trace (submit_batches cfg D)
  = flat_map (λ i, [ESleep (inject_Z (STAGGER_DELAY cfg));
                    ESubmit i (spec_start (batch_spec cfg D i))
                              (spec_duration (batch_spec cfg D i))])
      (range (num_batches cfg D)).
Proof. unfold submit_batches. by rewrite trace_for_each. Qed.

Lemma result_submit_batches (cfg : Config) (D : Q) :
  result (submit_batches cfg D) = Val tt.
Proof. unfold submit_batches. by apply result_for_each. Qed.

(** ** The join loop *)

Lemma join_step_spec (futures : nat → res outcome) (table : list outcome) (c : Z) (i : nat) :
  (i < length table)%nat →
  join_step futures (table, c) i
  = if returned (futures i)
    then ([EAssign i], Val (<[i := slot (futures i)]> table, c + 1))
    else ([EPrint (MsgBatchException (i + 1))], Val (table, c)).
Proof.
  intros Hi. unfold join_step. destruct (futures i) as [r|e]; simpl; [|done].
  by rewrite decide_True.
Qed.

(** The state and the events of the join loop, for any list of in-range
    indices. *)
Lemma join_loop_spec (futures : nat → res outcome) (order : list nat) :
  ∀ (table : list outcome) (c : Z),
  (∀ i, i ∈ order → (i < length table)%nat) →
  ∃ table',
    join_loop futures order (table, c)
    = (map (join_event futures) order,
       Val (table', c + Z.of_nat (length (filter (λ i, returned (futures i) = true) order))))
    ∧ length table' = length table
    ∧ (∀ i, table' !! i
            = if decide (i ∈ order ∧ returned (futures i) = true)
              then Some (slot (futures i)) else table !! i).
Proof.
  induction order as [|i order IH]; intros table c Hin.
  - exists table. cbn [join_loop map filter length]. rewrite Z.add_0_r.
    split; [done|]. split; [done|].
    intros i. case_decide as H; [|done]. destruct H as [H _]. by apply elem_of_nil in H.
  - assert (Hi : (i < length table)%nat) by (apply Hin; left).
    cbn [join_loop map]. rewrite join_step_spec by done. unfold join_event at 1.
    rewrite filter_cons.
    destruct (returned (futures i)) eqn:Er.
    + destruct (IH (<[i := slot (futures i)]> table) (c + 1)) as (table' & E & Hlen & Hlk).
      { intros j Hj. rewrite length_insert. apply Hin. by right. }
      exists table'. rewrite decide_True by done.
      split.
      { unfold mbind, M_bind. rewrite E. cbn [app length]. do 3 f_equal. lia. }
      split; [by rewrite Hlen, length_insert|].
      intros j. rewrite Hlk. destruct (decide (j = i)) as [->|Hne].
      * rewrite (decide_True (P := i ∈ i :: order ∧ _)) by (split; [left|done]).
        case_decide; [done|]. by rewrite list_lookup_insert_eq.
      * rewrite list_lookup_insert_ne by done.
        apply decide_ext. rewrite elem_of_cons. intuition congruence.
    + destruct (IH table c) as (table' & E & Hlen & Hlk).
      { intros j Hj. apply Hin. by right. }
      exists table'. rewrite decide_False by discriminate.
      split.
      { unfold mbind, M_bind. rewrite E. done. }
      split; [done|].
      intros j. rewrite Hlk. destruct (decide (j = i)) as [->|Hne].
      * rewrite !decide_False; [done| |]; rewrite Er; intros [_ ?]; discriminate.
      * apply decide_ext. rewrite elem_of_cons. intuition congruence.
Qed.

Lemma assigned_join_events (futures : nat → res outcome) (order : list nat) :
  assigned (map (join_event futures) order)
  = filter (λ i, returned (futures i) = true) order.
Proof.
  induction order as [|i order IH]; [done|].
  rewrite filter_cons, <- IH. unfold assigned. cbn [map]. unfold join_event at 1.
  destruct (returned (futures i)); [by rewrite decide_True | by rewrite decide_False].
Qed.

Lemma join_loop_slots (futures : nat → res outcome) (n : nat) (order : list nat) :
  order ≡ₚ seq 0 n →
  ∃ (table : list outcome) (c : Z),
    join_loop futures order (replicate n ONone, 0)
    = (map (join_event futures) order, Val (table, c))
    ∧ length table = n
    ∧ (∀ i, (i < n)%nat → table !! i = Some (slot (futures i))).
Proof.
  intros Hperm.
  assert (Hin : ∀ i, i ∈ order ↔ (i < n)%nat).
  { intros i. rewrite Hperm, elem_of_seq. lia. }
  destruct (join_loop_spec futures order (replicate n ONone) 0) as (table & E & Hlen & Hlk).
  { intros i Hi. rewrite length_replicate. by apply Hin. }
  rewrite length_replicate in Hlen.
  exists table. eexists. split; [exact E|]. split; [done|].
  intros i Hi. rewrite Hlk. case_decide as Hd; [done|].
  rewrite lookup_replicate_2 by done.
  destruct (futures i) as [r|e] eqn:Ef; [|done].
  exfalso. apply Hd. split; [by apply Hin | done].
Qed.

(** C10. In the join loop, over any completion order of the [n] batches:
    the loop ends normally; no slot is assigned twice; a slot is assigned
    exactly when its future holds a value; the slot of a batch whose worker
    raised still holds [None]; [batches_completed] counts exactly the
    futures that hold a value, so it is at most [n]. *)
Theorem C10_join_loop_slots (futures : nat → res outcome) (n : nat) (order : list nat) :
  order ≡ₚ seq 0 n →
  let run := join_loop futures order (replicate n ONone, 0) in
  ∃ (table : list outcome) (batches_completed : Z),
    result run = Val (table, batches_completed)
    ∧ NoDup (assigned (trace run))
    ∧ (∀ i, i ∈ assigned (trace run) ↔ (i < n)%nat ∧ returned (futures i) = true)
    ∧ length table = n
    ∧ (∀ i, (i < n)%nat → returned (futures i) = false → table !! i = Some ONone)
    ∧ (∀ i, (i < n)%nat → table !! i = Some (slot (futures i)))
    ∧ batches_completed
      = Z.of_nat (length (filter (λ i, returned (futures i) = true) (seq 0 n)))
    ∧ 0 <= batches_completed <= Z.of_nat n.
Proof.
  intros Hperm run.
  assert (Hin : ∀ i, i ∈ order ↔ (i < n)%nat).
  { intros i. rewrite Hperm, elem_of_seq. lia. }
  destruct (join_loop_spec futures order (replicate n ONone) 0) as (table & E & Hlen & Hlk).
  { intros i Hi. rewrite length_replicate. by apply Hin. }
  rewrite length_replicate in Hlen.
  assert (Hslot : ∀ i, (i < n)%nat → table !! i = Some (slot (futures i))).
  { intros i Hi. rewrite Hlk. case_decide as Hd; [done|].
    rewrite lookup_replicate_2 by done.
    destruct (futures i) as [r|e] eqn:Ef; [|done].
    exfalso. apply Hd. split; [by apply Hin | done]. }
  exists table, (0 + Z.of_nat (length (filter (λ i, returned (futures i) = true) order))).
  subst run. rewrite E. unfold result, trace. cbn [fst snd].
  rewrite assigned_join_events.
  split; [done|]. split.
  { apply NoDup_filter. rewrite Hperm. apply NoDup_seq. }
  split.
  { intros i. rewrite list_elem_of_filter, Hin. tauto. }
  split; [done|]. split.
  { intros i Hi Hr. rewrite Hslot by done. by destruct (futures i). }
  split; [done|]. split.
  { by rewrite Hperm. }
  pose proof (length_filter (λ i, returned (futures i) = true) order) as Hle.
  rewrite (Permutation_length Hperm), length_seq in Hle. lia.
Qed.

Lemma C10_witness :
  let futures := λ i : nat, if (i =? 1)%nat then Raise OtherException else Val (OPath "s") in
  [2; 0; 1]%nat ≡ₚ seq 0 3
  ∧ ∃ (table : list outcome) (batches_completed : Z),
      result (join_loop futures [2; 0; 1]%nat (replicate 3 ONone, 0))
      = Val (table, batches_completed)
      ∧ table !! 1%nat = Some ONone
      ∧ 0 <= batches_completed <= 3.
Proof.
  intros futures.
  assert (Hperm : [2; 0; 1]%nat ≡ₚ seq 0 3).
  { apply (Permutation_cons_append [0; 1]%nat 2%nat). }
  split; [exact Hperm|].
  destruct (C10_join_loop_slots futures 3 [2; 0; 1]%nat Hperm)
    as (table & c & E & _ & _ & _ & Hnull & _ & _ & Hc).
  exists table, c. split; [exact E|]. split; [|exact Hc].
  apply Hnull; [lia | reflexivity].
Defined.

(** ** Resolution of the handles and the segment list *)

Lemma resolve_deferred_spec (segment_files : list outcome) :
  resolve_deferred segment_files
  = (flat_map join_handle segment_files, Val (map resolved segment_files)).
Proof.
  induction segment_files as [|seg rest IH]; [done|].
  cbn [resolve_deferred flat_map map]. unfold mbind, M_bind in *. rewrite IH.
  destruct seg; simpl; by rewrite app_nil_r.
Qed.

Lemma write_segment_list_spec (path : string) (segment_files : list (option string)) :
  write_segment_list path segment_files
  = (EOpen path :: map (segment_line path) segment_files, Val tt).
Proof.
  unfold write_segment_list.
  assert (E : ∀ l, for_each l (λ seg,
      match seg with
      | Some p => emit (EWriteLine path (FileLine (escape_backslashes p)))
      | None => emit (EPrint MsgMissingSegment)
      end) = (map (segment_line path) l, Val tt)).
  { induction l as [|seg l IH]; [done|].
    unfold for_each in *. cbn [foldr map]. unfold mbind, M_bind in *. rewrite IH.
    by destruct seg. }
  unfold mbind, M_bind. by rewrite E.
Qed.

Lemma omap_cons_Some {A B : Type} (f : A → option B) (x : A) (y : B) (l : list A) :
  f x = Some y → omap f (x :: l) = y :: omap f l.
Proof. intros E. cbn [omap list_omap]. by rewrite E. Qed.

Lemma omap_cons_None {A B : Type} (f : A → option B) (x : A) (l : list A) :
  f x = None → omap f (x :: l) = omap f l.
Proof. intros E. cbn [omap list_omap]. by rewrite E. Qed.

Lemma written_segment_lines (path : string) (segment_files : list (option string)) :
  written path (map (segment_line path) segment_files)
  = omap (λ seg, (λ p, FileLine (escape_backslashes p)) <$> seg) segment_files.
Proof.
  induction segment_files as [|seg l IH]; [done|].
  unfold written in *. cbn [map]. destruct seg as [p|].
  - rewrite !(omap_cons_Some _ _ (FileLine (escape_backslashes p))); [by rewrite IH|done|].
    cbn [segment_line]. by rewrite decide_True.
  - by rewrite !omap_cons_None.
Qed.

Lemma missing_segment_lines (path : string) (segment_files : list (option string)) :
  length (filter (λ m, is_missing_segment m = true)
            (printed (map (segment_line path) segment_files)))
  = length (filter (λ seg, seg = None) segment_files).
Proof.
  induction segment_files as [|seg l IH]; [done|].
  unfold printed in *. cbn [map]. rewrite (filter_cons _ seg). destruct seg as [p|].
  - rewrite omap_cons_None by done. by rewrite decide_False.
  - rewrite (omap_cons_Some _ _ MsgMissingSegment) by done.
    rewrite filter_cons, !decide_True by done. cbn [length]. by rewrite IH.
Qed.

(** ** The end of the job *)

Lemma remove_segments_spec (segment_files : list (option string)) :
  ∃ t, for_each segment_files (λ seg,
         match seg with
         | Some p => if decide (p ≠ EmptyString) then emit (ERemove p) else mret tt
         | None => mret tt
         end) = (t, Val tt)
       ∧ Forall job_tail_event t.
Proof.
  induction segment_files as [|seg l (t & E & Ht)].
  - by exists [].
  - unfold for_each in *. cbn [foldr]. unfold mbind, M_bind in *. rewrite E.
    destruct seg as [p|]; [destruct (decide (p ≠ EmptyString))|].
    + exists (ERemove p :: t). split; [done|]. by constructor.
    + by exists t.
    + by exists t.
Qed.

Lemma assemble_spec (cfg : Config) (temp_dir : string) (w : VideoWorld)
    (video_file script_dir converted_video : string) (segment_files : list (option string)) :
  let base_name := (splitext (basename video_file)).1 in
  let concat_list_file := path_join temp_dir (base_name +:+ "_segments.txt") in
  let video_no_audio := path_join temp_dir (base_name +:+ "_no_audio.mp4") in
  ∃ rest r,
    assemble cfg temp_dir w video_file script_dir converted_video segment_files
    = ((if decide (converted_video ≠ video_file) then [ERemove converted_video] else [])
       ++ EOpen concat_list_file :: map (segment_line concat_list_file) segment_files
       ++ ERun (cmd_concat_segments concat_list_file video_no_audio) (vw_concat w) :: rest, r)
    ∧ Forall job_tail_event rest.
Proof.
  intros base_name concat_list_file video_no_audio.
  unfold assemble. fold base_name. fold concat_list_file. fold video_no_audio.
  rewrite write_segment_list_spec.
  destruct (remove_segments_spec segment_files) as (t & E & Ht).
  set (pre := if decide (converted_video ≠ video_file) then [ERemove converted_video] else []).
  assert (Epre : (if decide (converted_video ≠ video_file)
                  then emit (ERemove converted_video) else mret tt) = (pre, Val tt)).
  { unfold pre. by destruct (decide _). }
  rewrite Epre. unfold mbind, M_bind. rewrite E.
  destruct (vw_concat w), (vw_merge w); simpl; rewrite ?app_nil_r;
    eexists _, _; (split; [reflexivity|]);
    repeat first [apply Forall_nil_2 | apply Forall_cons_2 | apply Forall_app_2]; done.
Qed.

Lemma convert_if_needed_events (temp_dir : string) (ran : run_result)
    (video_file : string) (fps : Q) :
  Forall job_tail_event (trace (convert_if_needed temp_dir ran video_file fps)).
Proof.
  unfold convert_if_needed.
  destruct (is_integer_fps fps), (String.eqb _ _), ran; simpl;
    repeat first [apply Forall_nil_2 | apply Forall_cons_2]; done.
Qed.

(** The table the join loop builds over a completion order of all the
    batches: slot [i] holds what the worker of batch [i] returned. *)
Lemma join_loop_table (futures : nat → res outcome) (n : nat) (order : list nat) :
  order ≡ₚ seq 0 n →
  ∃ c, join_loop futures order (replicate n ONone, 0)
       = (map (join_event futures) order, Val (map (λ i, slot (futures i)) (seq 0 n), c)).
Proof.
  intros Hperm.
  destruct (join_loop_slots futures n order Hperm) as (table & c & E & Hlen & Hslot).
  exists c. rewrite E. do 3 f_equal.
  apply list_eq. intros i. rewrite list_lookup_fmap.
  destruct (decide (i < n)%nat) as [Hi|Hi].
  - rewrite Hslot by done. by rewrite lookup_seq_lt.
  - rewrite !lookup_ge_None_2; [done| |]; rewrite ?length_seq; lia.
Qed.

(** The events of the coordinator for a job that is not skipped, whose
    conversion does not raise, over a completion order of all the batches. *)
Lemma process_video_spec (cfg : Config) (temp_dir : string) (w : VideoWorld)
    (video_file script_dir converted_video : string) (order : list nat) :
  Qle_bool (vw_duration w) 0 = false →
  result (convert_if_needed temp_dir (vw_convert w) video_file (vw_fps w)) = Val converted_video →
  order ≡ₚ range (num_batches cfg (vw_duration w)) →
  let futures := λ i, result (worker cfg temp_dir w converted_video (vw_duration w)
                                (py_round (vw_fps w)) script_dir i) in
  let table := map (λ i, slot (futures i)) (range (num_batches cfg (vw_duration w))) in
  let final := assemble cfg temp_dir w video_file script_dir converted_video
                 (map resolved table) in
  process_video cfg temp_dir (with_completion w order) video_file script_dir
  = (EPrint (MsgProcessingVideo video_file)
     :: trace (convert_if_needed temp_dir (vw_convert w) video_file (vw_fps w))
     ++ EThreadStart ProgressThread
     :: trace (submit_batches cfg (vw_duration w))
     ++ map (join_event futures) order
     ++ EThreadJoin ProgressThread
     :: flat_map join_handle table
     ++ trace final,
     result final).
Proof.
  intros Hdur Hconv Hperm futures table final.
  unfold process_video. cbn [with_completion vw_duration vw_fps vw_convert vw_completion].
  rewrite Hdur.
  destruct (convert_if_needed _ _ _ _) as [tc rc] eqn:Ec.
  unfold result in Hconv; cbn [snd] in Hconv. subst rc.
  pose proof (result_submit_batches cfg (vw_duration w)) as Hsub.
  destruct (submit_batches cfg (vw_duration w)) as [ts rs] eqn:Es.
  unfold result in Hsub; cbn [snd] in Hsub. subst rs.
  destruct (join_loop_table futures _ order Hperm) as [c E].
  unfold mbind, M_bind. cbn [emit].
  change (λ i, result (worker cfg temp_dir (with_completion w order) converted_video
                  (vw_duration w) (py_round (vw_fps w)) script_dir i)) with futures.
  rewrite E. rewrite resolve_deferred_spec.
  change (seq 0 (Z.to_nat (num_batches cfg (vw_duration w))))
    with (range (num_batches cfg (vw_duration w))).
  fold table.
  change (assemble cfg temp_dir (with_completion w order) video_file script_dir
            converted_video (map resolved table)) with final.
  by destruct final as [tf rf].
Qed.

Lemma omap_none_Forall {A B : Type} (f : A → option B) (P : A → Prop) (l : list A) :
  (∀ x, P x → f x = None) → Forall P l → omap f l = [].
Proof.
  intros Hf. induction 1 as [|x l Hx _ IH]; [done|].
  by rewrite omap_cons_None by auto.
Qed.

Lemma written_tail (path : string) (t : list event) :
  Forall job_tail_event t → written path t = [].
Proof. apply omap_none_Forall. by intros []. Qed.

Lemma missing_tail (t : list event) :
  Forall job_tail_event t →
  filter (λ m, is_missing_segment m = true) (printed t) = [].
Proof.
  induction 1 as [|e l He _ IH]; [done|]. unfold printed in *.
  destruct e; try (by rewrite omap_cons_None); try done.
  rewrite (omap_cons_Some _ _ m) by done. rewrite filter_cons, decide_False; [done|].
  cbn [job_tail_event] in He. by rewrite He.
Qed.

Lemma written_coordination (path : string) (t : list event) :
  Forall coordination_event t → written path t = [].
Proof. apply omap_none_Forall. by intros []. Qed.

Lemma missing_coordination (t : list event) :
  Forall coordination_event t →
  filter (λ m, is_missing_segment m = true) (printed t) = [].
Proof.
  induction 1 as [|e l He _ IH]; [done|]. unfold printed in *.
  destruct e; try (by rewrite omap_cons_None); try done.
  rewrite (omap_cons_Some _ _ m) by done. rewrite filter_cons, decide_False; [done|].
  cbn [coordination_event] in He. by rewrite He.
Qed.

Lemma submit_batches_coordination (cfg : Config) (D : Q) :
  Forall coordination_event (trace (submit_batches cfg D)).
Proof.
  rewrite trace_submit_batches. induction (range _) as [|i l IH]; [done|].
  cbn [flat_map app]. by repeat constructor.
Qed.

Lemma join_events_coordination (futures : nat → res outcome) (order : list nat) :
  Forall coordination_event (map (join_event futures) order).
Proof.
  apply Forall_fmap, Forall_true. intros i. cbn. unfold join_event.
  by destruct (returned (futures i)).
Qed.

Lemma join_handles_coordination (table : list outcome) :
  Forall coordination_event (flat_map join_handle table).
Proof.
  induction table as [|seg l IH]; [done|]. cbn [flat_map].
  apply Forall_app_2; [|done]. destruct seg; by repeat constructor.
Qed.

(** C2. For a job that is not skipped and whose conversion does not raise,
    and for every completion order of its batches: the lines written to the
    segment list are the segments the workers of batches 0, 1, ... returned
    (after joining the deferred handles), in ascending batch index; every
    null slot gives one warning and no line; and the concatenation command
    is still run. The right-hand sides do not depend on the order. *)
Theorem C2_segment_list_in_index_order (cfg : Config) (temp_dir : string) (w : VideoWorld)
    (video_file script_dir converted_video : string) (order : list nat) :
  Qle_bool (vw_duration w) 0 = false →
  result (convert_if_needed temp_dir (vw_convert w) video_file (vw_fps w)) = Val converted_video →
  order ≡ₚ range (num_batches cfg (vw_duration w)) →
  let run := process_video cfg temp_dir (with_completion w order) video_file script_dir in
  let base_name := (splitext (basename video_file)).1 in
  let concat_list_file := path_join temp_dir (base_name +:+ "_segments.txt") in
  let video_no_audio := path_join temp_dir (base_name +:+ "_no_audio.mp4") in
  let futures := λ i, result (worker cfg temp_dir w converted_video (vw_duration w)
                                (py_round (vw_fps w)) script_dir i) in
  let segments := map (λ i, final_segment (futures i))
                    (range (num_batches cfg (vw_duration w))) in
  written concat_list_file (trace run)
  = omap (λ seg, (λ p, FileLine (escape_backslashes p)) <$> seg) segments
  ∧ length (filter (λ m, is_missing_segment m = true) (printed (trace run)))
    = length (filter (λ seg, seg = None) segments)
  ∧ ERun (cmd_concat_segments concat_list_file video_no_audio) (vw_concat w) ∈ trace run.
Proof.
  intros Hdur Hconv Hperm run base_name concat_list_file video_no_audio futures segments.
  subst run. rewrite (process_video_spec _ _ _ _ _ _ _ Hdur Hconv Hperm).
  set (table := map (λ i, slot (result (worker cfg temp_dir w converted_video
                  (vw_duration w) (py_round (vw_fps w)) script_dir i)))
                  (range (num_batches cfg (vw_duration w)))).
  assert (Hseg : map resolved table = segments).
  { unfold table, segments. by rewrite <- list_fmap_compose. }
  destruct (assemble_spec cfg temp_dir w video_file script_dir converted_video
              (map resolved table)) as (rest & r & Ea & Hrest).
  fold base_name concat_list_file video_no_audio in Ea. rewrite Ea, Hseg.
  unfold trace. cbn [fst].
  set (tc := (convert_if_needed _ _ _ _).1).
  assert (Htc : Forall job_tail_event tc) by apply convert_if_needed_events.
  set (pre := if decide (converted_video ≠ video_file) then _ else _).
  assert (Hpre : Forall job_tail_event pre).
  { unfold pre. destruct (decide _); by repeat constructor. }
  pose proof (submit_batches_coordination cfg (vw_duration w)) as Hsub.
  unfold trace in Hsub. set (ts := (submit_batches _ _).1) in *.
  pose proof (join_events_coordination futures order) as Hj.
  pose proof (join_handles_coordination table) as Hh.
  change (λ i, result (worker cfg temp_dir w converted_video (vw_duration w)
                         (py_round (vw_fps w)) script_dir i)) with futures.
  split; [|split].
  - unfold written.
    rewrite omap_cons_None by done. rewrite omap_app.
    rewrite (omap_cons_None _ (EThreadStart _)) by done. rewrite !omap_app.
    rewrite (omap_cons_None _ (EThreadJoin _)) by done. rewrite !omap_app.
    rewrite (omap_cons_None _ (EOpen _)) by done. rewrite !omap_app.
    rewrite (omap_cons_None _ (ERun _ _)) by done.
    fold (written concat_list_file tc) (written concat_list_file ts)
      (written concat_list_file (map (join_event futures) order))
      (written concat_list_file (flat_map join_handle table))
      (written concat_list_file pre) (written concat_list_file rest)
      (written concat_list_file (map (segment_line concat_list_file) segments)).
    rewrite (written_tail _ tc Htc), (written_tail _ pre Hpre), (written_tail _ rest Hrest).
    rewrite (written_coordination _ ts Hsub), (written_coordination _ _ Hj),
      (written_coordination _ _ Hh).
    rewrite written_segment_lines. cbn [app]. by rewrite app_nil_r.
  - unfold printed.
    rewrite (omap_cons_Some _ _ (MsgProcessingVideo video_file)) by done.
    rewrite filter_cons, decide_False by done. rewrite omap_app.
    rewrite (omap_cons_None _ (EThreadStart _)) by done. rewrite !omap_app.
    rewrite (omap_cons_None _ (EThreadJoin _)) by done. rewrite !omap_app.
    rewrite (omap_cons_None _ (EOpen _)) by done. rewrite !omap_app.
    rewrite (omap_cons_None _ (ERun _ _)) by done.
    fold (printed tc) (printed ts) (printed (map (join_event futures) order))
      (printed (flat_map join_handle table)) (printed pre) (printed rest)
      (printed (map (segment_line concat_list_file) segments)).
    rewrite !filter_app.
    rewrite (missing_tail tc Htc), (missing_tail pre Hpre), (missing_tail rest Hrest).
    rewrite (missing_coordination ts Hsub), (missing_coordination _ Hj),
      (missing_coordination _ Hh).
    cbn [app]. rewrite app_nil_r. apply missing_segment_lines.
  - repeat first [ apply list_elem_of_here
                 | apply list_elem_of_further
                 | apply elem_of_app; right ].
Qed.



(** ** Stagger waits *)

Lemma sleeps_no_wait (t : list event) : Forall no_wait t → sleeps t = [].
Proof. apply omap_none_Forall. by intros []. Qed.

Lemma submissions_no_wait (t : list event) : Forall no_wait t → submissions t = [].
Proof. apply omap_none_Forall. by intros []. Qed.

Lemma job_tail_no_wait (t : list event) : Forall job_tail_event t → Forall no_wait t.
Proof. intros H. eapply Forall_impl; [exact H|]. by intros []. Qed.

Lemma join_events_no_wait (futures : nat → res outcome) (order : list nat) :
  Forall no_wait (map (join_event futures) order).
Proof.
  apply Forall_fmap, Forall_true. intros i. cbn. unfold join_event.
  by destruct (returned (futures i)).
Qed.

Lemma join_handles_no_wait (table : list outcome) :
  Forall no_wait (flat_map join_handle table).
Proof.
  induction table as [|seg l IH]; [done|]. cbn [flat_map].
  apply Forall_app_2; [|done]. destruct seg; by repeat constructor.
Qed.

Lemma segment_lines_no_wait (path : string) (segment_files : list (option string)) :
  Forall no_wait (map (segment_line path) segment_files).
Proof. apply Forall_fmap, Forall_true. by intros []. Qed.

Lemma sleeps_submit_batches (cfg : Config) (D : Q) :
  sleeps (trace (submit_batches cfg D))
  = replicate (Z.to_nat (num_batches cfg D)) (inject_Z (STAGGER_DELAY cfg)).
Proof.
  rewrite trace_submit_batches. unfold range.
  generalize 0%nat. induction (Z.to_nat _) as [|n IH]; intros k; [done|].
  cbn [seq flat_map app replicate]. unfold sleeps in *.
  rewrite (omap_cons_Some _ _ (inject_Z (STAGGER_DELAY cfg))) by done.
  rewrite omap_cons_None by done. by rewrite IH.
Qed.

Lemma submissions_submit_batches (cfg : Config) (D : Q) :
  submissions (trace (submit_batches cfg D)) = range (num_batches cfg D).
Proof.
  rewrite trace_submit_batches. unfold range.
  generalize 0%nat. induction (Z.to_nat _) as [|n IH]; intros k; [done|].
  cbn [seq flat_map app]. unfold submissions in *.
  rewrite omap_cons_None by done.
  rewrite (omap_cons_Some _ _ k) by done. by rewrite IH.
Qed.

(** C8. The submission loop is a stagger wait followed by a submission, for
    batch 0, 1, ... in this order, whatever the pool size; in a job that is
    not skipped and whose conversion does not raise, the coordinator waits
    exactly once per batch, each time for the configured delay, and every
    wait and submission of the job is one of this loop. *)
Theorem C8_stagger_before_every_submission (cfg : Config) (temp_dir : string)
    (w : VideoWorld) (video_file script_dir converted_video : string) (order : list nat) :
  Qle_bool (vw_duration w) 0 = false →
  result (convert_if_needed temp_dir (vw_convert w) video_file (vw_fps w)) = Val converted_video →
  order ≡ₚ range (num_batches cfg (vw_duration w)) →
  let run := process_video cfg temp_dir (with_completion w order) video_file script_dir in
  let D := vw_duration w in
  let batch_count := Z.to_nat (num_batches cfg D) in
  trace (submit_batches cfg D)
  = flat_map (λ i, [ESleep (inject_Z (STAGGER_DELAY cfg));
                    ESubmit i (spec_start (batch_spec cfg D i))
                              (spec_duration (batch_spec cfg D i))])
      (seq 0 batch_count)
  ∧ submissions (trace run) = seq 0 batch_count
  ∧ sleeps (trace run) = replicate batch_count (inject_Z (STAGGER_DELAY cfg))
  ∧ ∃ before after,
      trace run = before ++ trace (submit_batches cfg D) ++ after
      ∧ Forall no_wait before ∧ Forall no_wait after.
Proof.
  intros Hdur Hconv Hperm run D batch_count.
  assert (Hdecomp : ∃ before after,
      trace run = before ++ trace (submit_batches cfg D) ++ after
      ∧ Forall no_wait before ∧ Forall no_wait after).
  { subst run. rewrite (process_video_spec _ _ _ _ _ _ _ Hdur Hconv Hperm).
    match goal with |- context [assemble ?c ?t ?w ?v ?s ?cv ?segs] =>
      destruct (assemble_spec c t w v s cv segs) as (rest & r & Ea & Hrest) end.
    rewrite Ea. unfold trace at 1. cbn [fst].
    match goal with
    | |- ∃ before after, ?p :: ?tc ++ ?ts :: ?sub ++ ?rest' = _ ∧ _ =>
        exists (p :: tc ++ [ts]), rest'
    end.
    split.
    { cbn [app]. f_equal. by rewrite <- app_assoc. }
    split.
    - constructor; [done|]. apply Forall_app_2; [|by repeat constructor].
      apply job_tail_no_wait, convert_if_needed_events.
    - apply Forall_app_2; [apply join_events_no_wait|].
      constructor; [done|]. apply Forall_app_2; [apply join_handles_no_wait|].
      apply Forall_app_2; [destruct (decide _); by repeat constructor|].
      constructor; [done|]. apply Forall_app_2; [apply segment_lines_no_wait|].
      constructor; [done|]. by apply job_tail_no_wait. }
  split; [apply trace_submit_batches|].
  destruct Hdecomp as (before & after & E & Hb & Ha).
  split; [|split].
  - rewrite E. unfold submissions. rewrite !omap_app.
    fold (submissions before) (submissions after)
      (submissions (trace (submit_batches cfg D))).
    rewrite (submissions_no_wait _ Hb), (submissions_no_wait _ Ha),
      submissions_submit_batches. cbn [app]. by rewrite app_nil_r.
  - rewrite E. unfold sleeps. rewrite !omap_app.
    fold (sleeps before) (sleeps after) (sleeps (trace (submit_batches cfg D))).
    rewrite (sleeps_no_wait _ Hb), (sleeps_no_wait _ Ha), sleeps_submit_batches.
    cbn [app]. by rewrite app_nil_r.
  - by exists before, after.
Qed.

Lemma C2_witness :
  let w := sample_video in
  let order := [2; 0; 1]%nat in
  Qle_bool (vw_duration w) 0 = false
  ∧ result (convert_if_needed "/tmp" (vw_convert w) "/videos/in.mp4" (vw_fps w))
    = Val "/videos/in.mp4"
  ∧ order ≡ₚ range (num_batches default_config (vw_duration w))
  ∧ written "/tmp/in_segments.txt"
      (trace (process_video default_config "/tmp" (with_completion w order)
                "/videos/in.mp4" "/app"))
    = [FileLine "/tmp/in_batch_0_1700000000_placeholder.mp4";
       FileLine "/tmp/in_batch_1_1700000000_placeholder.mp4";
       FileLine "/tmp/in_batch_2_1700000000_placeholder.mp4"].
Proof.
  intros w order.
  assert (Hdur : Qle_bool (vw_duration w) 0 = false) by reflexivity.
  assert (Hconv : result (convert_if_needed "/tmp" (vw_convert w) "/videos/in.mp4" (vw_fps w))
                  = Val "/videos/in.mp4") by reflexivity.
  assert (Hperm : order ≡ₚ range (num_batches default_config (vw_duration w))).
  { apply (Permutation_cons_append [0; 1]%nat 2%nat). }
  split; [exact Hdur|]. split; [exact Hconv|]. split; [exact Hperm|].
  exact (proj1 (C2_segment_list_in_index_order default_config "/tmp" w
                  "/videos/in.mp4" "/app" "/videos/in.mp4" order Hdur Hconv Hperm)).
Defined.
Lemma C8_witness :
  let w := sample_video in
  let order := [2; 0; 1]%nat in
  Qle_bool (vw_duration w) 0 = false
  ∧ result (convert_if_needed "/tmp" (vw_convert w) "/videos/in.mp4" (vw_fps w))
    = Val "/videos/in.mp4"
  ∧ order ≡ₚ range (num_batches default_config (vw_duration w))
  ∧ sleeps (trace (process_video default_config "/tmp" (with_completion w order)
                     "/videos/in.mp4" "/app"))
    = [10; 10; 10]%Q.
Proof.
  intros w order.
  assert (Hdur : Qle_bool (vw_duration w) 0 = false) by reflexivity.
  assert (Hconv : result (convert_if_needed "/tmp" (vw_convert w) "/videos/in.mp4" (vw_fps w))
                  = Val "/videos/in.mp4") by reflexivity.
  assert (Hperm : order ≡ₚ range (num_batches default_config (vw_duration w))).
  { apply (Permutation_cons_append [0; 1]%nat 2%nat). }
  split; [exact Hdur|]. split; [exact Hconv|]. split; [exact Hperm|].
  exact (proj1 (proj2 (proj2 (C8_stagger_before_every_submission default_config "/tmp" w
                  "/videos/in.mp4" "/app" "/videos/in.mp4" order Hdur Hconv Hperm)))).
Defined.

(** ** The worker of a batch *)

Section Batch.
Variables (cfg : Config) (temp_dir : string) (w : BatchWorld).
Variables (video_file : string) (batch_index : nat) (start_time duration : Q).
Variables (output_fps : Z) (script_dir : string).

Let batch_id := batch_id_of w video_file batch_index.
Let extraction_dir := path_join temp_dir (batch_id +:+ "_extraction").
Let processed_dir := path_join temp_dir (batch_id +:+ "_processed").
Let placeholder_segment := path_join temp_dir (batch_id +:+ "_placeholder.mp4").
Let count := length (glob_frames extraction_dir (bw_extracted w)).
Let run := process_batch cfg temp_dir w video_file batch_index start_time duration
             output_fps script_dir.

Hypothesis extraction_ended : bw_extract w = Completed ∨ bw_extract w = NonZeroExit.

Lemma process_batch_few :
  (count < 2)%nat →
  run = (extraction_events video_file batch_index start_time duration output_fps
           extraction_dir processed_dir (bw_extract w)
         ++ EPrint (MsgTooFewFrames batch_index count)
         :: trace (placeholder_with_progress temp_dir w batch_index duration output_fps
                     batch_id extraction_dir processed_dir count),
         result (placeholder_with_progress temp_dir w batch_index duration output_fps
                   batch_id extraction_dir processed_dir count)).
Proof.
  intros Hfew. unfold run, process_batch. cbv zeta.
  fold batch_id. fold extraction_dir. fold processed_dir. fold count.
  rewrite decide_True by done.
  destruct (placeholder_with_progress _ _ _ _ _ _ _ _ _) as [tp rp].
  unfold extraction_events.
  by destruct extraction_ended as [-> | ->].
Qed.

Lemma process_batch_enough :
  (2 <= count)%nat →
  run = (extraction_events video_file batch_index start_time duration output_fps
           extraction_dir processed_dir (bw_extract w)
         ++ trace (processing_phase cfg temp_dir w batch_index duration output_fps
                     script_dir batch_id extraction_dir processed_dir count),
         result (processing_phase cfg temp_dir w batch_index duration output_fps
                   script_dir batch_id extraction_dir processed_dir count)).
Proof.
  intros Hfew. unfold run, process_batch. cbv zeta.
  fold batch_id. fold extraction_dir. fold processed_dir. fold count.
  rewrite decide_False by lia.
  destruct (processing_phase _ _ _ _ _ _ _ _ _ _ _) as [tp rp].
  unfold extraction_events.
  by destruct extraction_ended as [-> | ->].
Qed.
End Batch.

Lemma ffmpeg_is_not_engine (cfg : Config) (script_dir extraction_dir processed_dir : string)
    (cmd : list arg) :
  cmd !! 1%nat = Some (Lit "-hide_banner") →
  cmd ≠ cmd_esrgan cfg script_dir extraction_dir processed_dir.
Proof. intros H ->. discriminate H. Qed.

Lemma placeholder_with_progress_spec (temp_dir : string) (w : BatchWorld) (batch_index : nat)
    (duration : Q) (output_fps : Z) (batch_id extraction_dir processed_dir : string)
    (count : nat) :
  let placeholder_segment := path_join temp_dir (batch_id +:+ "_placeholder.mp4") in
  let cmd := cmd_placeholder duration output_fps placeholder_segment in
  placeholder_with_progress temp_dir w batch_index duration output_fps batch_id
    extraction_dir processed_dir count
  = match bw_placeholder w with
    | Completed =>
        ([ERun cmd Completed; ERmTree extraction_dir; ERmTree processed_dir;
          EProgress (Z.of_nat count)], Val (OPath placeholder_segment))
    | NonZeroExit =>
        ([ERun cmd NonZeroExit; EPrint (MsgPlaceholderError batch_index)], Val ONone)
    | TimedOut => ([ERun cmd TimedOut], Raise TimeoutExpired)
    | SpawnFailed => ([ERun cmd SpawnFailed], Raise OtherException)
    end.
Proof. unfold placeholder_with_progress. by destruct (bw_placeholder w). Qed.

(** C3 (amended). In a batch whose extraction command ended and left fewer
    than 2 frames, the only commands run are the extraction and the
    placeholder synthesis for the requested duration and fps: the engine is
    never run. When the synthesis completes, both working directories are
    deleted, the extracted frame count is reported and the placeholder path
    is returned, in this order; when the synthesis exits with an error the
    batch returns [None]. *)
Theorem C3_too_few_frames (cfg : Config) (temp_dir : string) (w : BatchWorld)
    (video_file : string) (batch_index : nat) (start_time duration : Q)
    (output_fps : Z) (script_dir : string) :
  let batch_id := batch_id_of w video_file batch_index in
  let extraction_dir := path_join temp_dir (batch_id +:+ "_extraction") in
  let processed_dir := path_join temp_dir (batch_id +:+ "_processed") in
  let placeholder_segment := path_join temp_dir (batch_id +:+ "_placeholder.mp4") in
  let count := length (glob_frames extraction_dir (bw_extracted w)) in
  let run := process_batch cfg temp_dir w video_file batch_index start_time duration
               output_fps script_dir in
  (count < 2)%nat →
  bw_extract w = Completed ∨ bw_extract w = NonZeroExit →
  commands (trace run)
  = [cmd_extract video_file start_time duration output_fps extraction_dir;
     cmd_placeholder duration output_fps placeholder_segment]
  ∧ calls (cmd_esrgan cfg script_dir extraction_dir processed_dir) (trace run) = 0%nat
  ∧ (bw_placeholder w = Completed →
       trace run
       = extraction_events video_file batch_index start_time duration output_fps
           extraction_dir processed_dir (bw_extract w)
         ++ [EPrint (MsgTooFewFrames batch_index count);
             ERun (cmd_placeholder duration output_fps placeholder_segment) Completed;
             ERmTree extraction_dir; ERmTree processed_dir;
             EProgress (Z.of_nat count)]
       ∧ result run = Val (OPath placeholder_segment))
  ∧ (bw_placeholder w = NonZeroExit → result run = Val ONone).
Proof.
  intros batch_id extraction_dir processed_dir placeholder_segment count run Hfew Hext.
  assert (Hcmds : commands (trace run)
    = [cmd_extract video_file start_time duration output_fps extraction_dir;
       cmd_placeholder duration output_fps placeholder_segment]).
  { subst run. rewrite (process_batch_few _ _ _ _ _ _ _ _ _ Hext Hfew).
    rewrite placeholder_with_progress_spec. unfold extraction_events.
    destruct Hext as [-> | ->]; by destruct (bw_placeholder w). }
  split; [exact Hcmds|]. split.
  { unfold calls. rewrite Hcmds.
    rewrite !filter_cons, !decide_False; [done| |];
      by apply ffmpeg_is_not_engine. }
  split.
  - intros Hph. subst run. rewrite (process_batch_few _ _ _ _ _ _ _ _ _ Hext Hfew).
    rewrite placeholder_with_progress_spec, Hph. done.
  - intros Hph. subst run. rewrite (process_batch_few _ _ _ _ _ _ _ _ _ Hext Hfew).
    rewrite placeholder_with_progress_spec, Hph. done.
Qed.

Lemma C3_witness :
  let w := empty_batch in
  let run := process_batch default_config "/tmp" w "/videos/in.mp4" 0 0 20 30 "/app" in
  (length (glob_frames "/tmp/in_batch_0_1700000000_extraction" (bw_extracted w)) < 2)%nat
  ∧ (bw_extract w = Completed ∨ bw_extract w = NonZeroExit)
  ∧ calls (cmd_esrgan default_config "/app" "/tmp/in_batch_0_1700000000_extraction"
             "/tmp/in_batch_0_1700000000_processed") (trace run) = 0%nat
  ∧ result run = Val (OPath "/tmp/in_batch_0_1700000000_placeholder.mp4").
Proof.
  intros w run.
  assert (Hfew : (length (glob_frames "/tmp/in_batch_0_1700000000_extraction"
                             (bw_extracted w)) < 2)%nat) by (cbn; lia).
  assert (Hext : bw_extract w = Completed ∨ bw_extract w = NonZeroExit) by (left; reflexivity).
  split; [exact Hfew|]. split; [exact Hext|].
  destruct (C3_too_few_frames default_config "/tmp" w "/videos/in.mp4" 0 0 20 30 "/app"
              Hfew Hext) as (_ & Hcalls & Hok & _).
  split; [exact Hcalls|]. exact (proj2 (Hok eq_refl)).
Defined.

(** C3 as stated fails: with no frame extracted and a placeholder synthesis
    that exits with an error, the batch returns [None], deletes no
    directory and reports nothing. *)
Lemma C3_counterexample :
  let w := with_placeholder empty_batch NonZeroExit in
  let run := process_batch default_config "/tmp" w "/videos/in.mp4" 0 0 20 30 "/app" in
  length (glob_frames "/tmp/in_batch_0_1700000000_extraction" (bw_extracted w)) = 0%nat
  ∧ result run = Val ONone
  ∧ (∀ p, result run ≠ Val (OPath p))
  ∧ progress_reports (trace run) = []
  ∧ leftover [] (trace run)
    = ["/tmp/in_batch_0_1700000000_extraction"; "/tmp/in_batch_0_1700000000_processed"].
Proof.
  intros w run. split; [reflexivity|].
  assert (E : result run = Val ONone) by (vm_compute; reflexivity).
  split; [exact E|]. split; [intros p; rewrite E; discriminate|].
  split; vm_compute; reflexivity.
Qed.

(** ** The retry loop *)

Lemma commands_app (t1 t2 : list event) :
  commands (t1 ++ t2) = commands t1 ++ commands t2.
Proof. apply omap_app. Qed.

Lemma calls_app (cmd : list arg) (t1 t2 : list event) :
  calls cmd (t1 ++ t2) = (calls cmd t1 + calls cmd t2)%nat.
Proof. unfold calls. by rewrite commands_app, filter_app, length_app. Qed.

Lemma calls_replicate (cmd : list arg) (n : nat) (t : list event) :
  commands t = replicate n cmd → calls cmd t = n.
Proof.
  unfold calls. intros ->. induction n as [|n IH]; [done|].
  cbn [replicate]. rewrite filter_cons, decide_True by done. cbn [length]. by rewrite IH.
Qed.

Lemma upscale_loop_failed (w : BatchWorld) (cmd : list arg) (batch_index : nat)
    (remaining : nat) (attempt : Z) :
  failed (bw_esrgan w attempt) →
  ∃ m, upscale_loop (S remaining) w cmd batch_index attempt
       = ([ERun cmd (bw_esrgan w attempt); EPrint m; ESleep 5]
          ++ trace (upscale_loop remaining w cmd batch_index (attempt + 1)),
          result (upscale_loop remaining w cmd batch_index (attempt + 1))).
Proof.
  intros Hf. cbn [upscale_loop].
  destruct (upscale_loop remaining w cmd batch_index (attempt + 1)) as [t r].
  destruct Hf as [-> | ->]; eexists; reflexivity.
Qed.

(** The loop stops at the first call that completes. *)
Lemma upscale_loop_first_success (w : BatchWorld) (cmd : list arg) (batch_index : nat)
    (k : nat) :
  ∀ (remaining : nat) (attempt : Z),
  (k < remaining)%nat →
  (∀ j, (j < k)%nat → failed (bw_esrgan w (attempt + Z.of_nat j))) →
  bw_esrgan w (attempt + Z.of_nat k) = Completed →
  result (upscale_loop remaining w cmd batch_index attempt) = Val true
  ∧ commands (trace (upscale_loop remaining w cmd batch_index attempt))
    = replicate (S k) cmd.
Proof.
  induction k as [|k IH]; intros remaining attempt Hk Hfail Hok.
  - destruct remaining as [|remaining]; [lia|].
    rewrite Z.add_0_r in Hok. cbn [upscale_loop]. by rewrite Hok.
  - destruct remaining as [|remaining]; [lia|].
    destruct (upscale_loop_failed w cmd batch_index remaining attempt) as [m E].
    { specialize (Hfail 0%nat ltac:(lia)). by rewrite Z.add_0_r in Hfail. }
    rewrite E. unfold result, trace. cbn [fst snd].
    destruct (IH remaining (attempt + 1)) as [Hr Hc].
    + lia.
    + intros j Hj. specialize (Hfail (S j) ltac:(lia)).
      by replace (attempt + 1 + Z.of_nat j) with (attempt + Z.of_nat (S j)) by lia.
    + by replace (attempt + 1 + Z.of_nat k) with (attempt + Z.of_nat (S k)) by lia.
    + split; [exact Hr|]. rewrite commands_app. unfold trace in Hc. by rewrite Hc.
Qed.

(** The loop gives up after [remaining] failed calls. *)
Lemma upscale_loop_all_failed (w : BatchWorld) (cmd : list arg) (batch_index : nat)
    (remaining : nat) :
  ∀ (attempt : Z),
  (∀ j, (j < remaining)%nat → failed (bw_esrgan w (attempt + Z.of_nat j))) →
  result (upscale_loop remaining w cmd batch_index attempt) = Val false
  ∧ commands (trace (upscale_loop remaining w cmd batch_index attempt))
    = replicate remaining cmd.
Proof.
  induction remaining as [|remaining IH]; intros attempt Hfail; [done|].
  destruct (upscale_loop_failed w cmd batch_index remaining attempt) as [m E].
  { specialize (Hfail 0%nat ltac:(lia)). by rewrite Z.add_0_r in Hfail. }
  rewrite E. unfold result, trace. cbn [fst snd].
  destruct (IH (attempt + 1)) as [Hr Hc].
  { intros j Hj. specialize (Hfail (S j) ltac:(lia)).
    by replace (attempt + 1 + Z.of_nat j) with (attempt + Z.of_nat (S j)) by lia. }
  split; [exact Hr|]. rewrite commands_app. unfold trace in Hc. by rewrite Hc.
Qed.

(** Whatever the calls do, the loop runs the engine at most [remaining]
    times and runs nothing else. *)
Lemma upscale_loop_bound (w : BatchWorld) (cmd : list arg) (batch_index : nat)
    (remaining : nat) :
  ∀ (attempt : Z),
  ∃ n, (n <= remaining)%nat
       ∧ commands (trace (upscale_loop remaining w cmd batch_index attempt))
         = replicate n cmd.
Proof.
  induction remaining as [|remaining IH]; intros attempt.
  - by exists 0%nat.
  - destruct (bw_esrgan w attempt) eqn:Er.
    + exists 1%nat. split; [lia|]. cbn [upscale_loop]. by rewrite Er.
    + destruct (upscale_loop_failed w cmd batch_index remaining attempt) as [m E].
      { left. exact Er. }
      destruct (IH (attempt + 1)) as (n & Hn & Hc).
      exists (S n). split; [lia|]. rewrite E. unfold trace in *. cbn [fst].
      rewrite commands_app, Hc, Er. done.
    + destruct (upscale_loop_failed w cmd batch_index remaining attempt) as [m E].
      { right. exact Er. }
      destruct (IH (attempt + 1)) as (n & Hn & Hc).
      exists (S n). split; [lia|]. rewrite E. unfold trace in *. cbn [fst].
      rewrite commands_app, Hc, Er. done.
    + exists 1%nat. split; [lia|]. cbn [upscale_loop]. by rewrite Er.
Qed.

(** ** Reassembly *)

Lemma parse_loop_spec (output_fps : Z) (frame_files : list string) :
  parse_loop output_fps frame_files
  = (parse_error_events output_fps frame_files,
     Val (omap (parse_frame output_fps) frame_files)).
Proof.
  induction frame_files as [|f l IH]; [done|].
  cbn [parse_loop parse_error_events flat_map]. unfold mbind at 1, M_bind at 1.
  destruct (parse_frame output_fps f) as [fr|] eqn:E.
  - rewrite IH. rewrite (omap_cons_Some _ _ fr) by done.
    unfold parse_error_events, mret, M_ret. cbn [app]. by rewrite app_nil_r.
  - unfold mbind, M_bind. cbn [emit]. rewrite IH.
    rewrite omap_cons_None by done. done.
Qed.

Lemma write_concat_list_spec (path : string) (output_fps : Z) (frames : list (string * Q)) :
  write_concat_list path output_fps frames
  = (EOpen path :: map (EWriteLine path) (concat_lines output_fps frames), Val tt).
Proof.
  unfold write_concat_list, concat_lines.
  generalize (length frames) as n. unfold enumerate.
  generalize (imap pair frames) as entries. intros entries n.
  assert (E : for_each entries (λ '(i, (filepath, _)),
      emit (EWriteLine path (FileLine (escape_backslashes filepath))) ;;
      emit (EWriteLine path (DurationLine (frame_duration output_fps n i))))
    = (map (EWriteLine path) (flat_map (frame_lines output_fps n) entries), Val tt)).
  { induction entries as [|[i [fp ts]] l IH]; [done|].
    unfold for_each in *. cbn [foldr flat_map frame_lines app map fst snd].
    unfold mbind, M_bind in *. rewrite IH. done. }
  unfold mbind, M_bind in *. by rewrite E.
Qed.

Lemma standard_reassembly_frames (cfg : Config) (temp_dir : string) (w : BatchWorld)
    (batch_index : nat) (duration : Q) (output_fps : Z)
    (batch_id extraction_dir processed_dir : string) (count : nat) :
  let frame_files := sorted (glob_frames processed_dir (bw_processed w)) in
  let concat_list_path := path_join temp_dir (batch_id +:+ "_frames.txt") in
  let segment_output := path_join temp_dir (batch_id +:+ "_segment.mp4") in
  let cmd := cmd_concat_head cfg concat_list_path output_fps
             ++ [Lit "-y"; Lit segment_output] in
  frame_files ≠ [] →
  standard_reassembly cfg temp_dir w batch_index duration output_fps batch_id
    extraction_dir processed_dir count
  = (parse_error_events output_fps frame_files
     ++ EOpen concat_list_path
     :: map (EWriteLine concat_list_path)
          (concat_lines output_fps (parsed_frames output_fps frame_files))
     ++ ERun cmd (bw_concat w)
     :: after_concat batch_index concat_list_path [extraction_dir; processed_dir]
          (bw_concat w),
     match bw_concat w with
     | Completed | NonZeroExit => Val (OPath segment_output)
     | TimedOut => Raise TimeoutExpired
     | SpawnFailed => Raise OtherException
     end).
Proof.
  intros frame_files concat_list_path segment_output cmd Hne.
  unfold standard_reassembly. cbv zeta. fold frame_files.
  rewrite decide_False by done.
  rewrite parse_loop_spec. unfold mbind at 1, M_bind at 1.
  fold (parsed_frames output_fps frame_files). fold concat_list_path.
  rewrite write_concat_list_spec. fold segment_output. fold cmd.
  unfold after_concat.
  destruct (bw_concat w); unfold mbind, M_bind; cbn; by rewrite ?app_nil_r.
Qed.

Lemma do_reassembly_frames (cfg : Config) (temp_dir : string) (w : BatchWorld)
    (batch_index : nat) (duration : Q) (output_fps : Z)
    (batch_id reassembly_dir : string) :
  let frame_files := sorted (glob_frames reassembly_dir (bw_processed w)) in
  let concat_list_path := path_join temp_dir (batch_id +:+ "_frames.txt") in
  let segment_output := path_join temp_dir (batch_id +:+ "_segment.mp4") in
  let cmd := cmd_concat_head cfg concat_list_path output_fps
             ++ [Lit "-y"; Lit "-c:v"; Lit "libx264"; Lit "-pix_fmt"; Lit "yuv420p";
                 Lit segment_output] in
  frame_files ≠ [] →
  do_reassembly cfg temp_dir w batch_index duration output_fps batch_id reassembly_dir
  = (parse_error_events output_fps frame_files
     ++ EOpen concat_list_path
     :: map (EWriteLine concat_list_path)
          (concat_lines output_fps (parsed_frames output_fps frame_files))
     ++ ERun cmd (bw_concat w)
     :: after_concat batch_index concat_list_path [reassembly_dir] (bw_concat w),
     match bw_concat w with
     | Completed | NonZeroExit => Val (Some segment_output)
     | TimedOut => Raise TimeoutExpired
     | SpawnFailed => Raise OtherException
     end).
Proof.
  intros frame_files concat_list_path segment_output cmd Hne.
  unfold do_reassembly. cbv zeta. fold frame_files.
  rewrite decide_False by done.
  rewrite parse_loop_spec. unfold mbind at 1, M_bind at 1.
  fold (parsed_frames output_fps frame_files). fold concat_list_path.
  rewrite write_concat_list_spec. fold segment_output. fold cmd.
  unfold after_concat.
  destruct (bw_concat w); unfold mbind, M_bind; cbn; by rewrite ?app_nil_r.
Qed.

Lemma standard_reassembly_empty (cfg : Config) (temp_dir : string) (w : BatchWorld)
    (batch_index : nat) (duration : Q) (output_fps : Z)
    (batch_id extraction_dir processed_dir : string) (count : nat) :
  sorted (glob_frames processed_dir (bw_processed w)) = [] →
  standard_reassembly cfg temp_dir w batch_index duration output_fps batch_id
    extraction_dir processed_dir count
  = (EPrint (MsgNoProcessedFrames batch_index)
     :: trace (placeholder_with_progress temp_dir w batch_index duration output_fps
                 batch_id extraction_dir processed_dir count),
     result (placeholder_with_progress temp_dir w batch_index duration output_fps
               batch_id extraction_dir processed_dir count)).
Proof.
  intros He. unfold standard_reassembly. cbv zeta. rewrite He, decide_True by done.
  by destruct (placeholder_with_progress _ _ _ _ _ _ _ _ _).
Qed.

Lemma placeholder_in_thread_spec (temp_dir : string) (w : BatchWorld) (batch_index : nat)
    (duration : Q) (output_fps : Z) (batch_id : string) :
  let placeholder_segment := path_join temp_dir (batch_id +:+ "_placeholder.mp4") in
  let cmd := cmd_placeholder duration output_fps placeholder_segment in
  placeholder_in_thread temp_dir w batch_index duration output_fps batch_id
  = match bw_placeholder w with
    | Completed => ([ERun cmd Completed], Val (Some placeholder_segment))
    | NonZeroExit =>
        ([ERun cmd NonZeroExit; EPrint (MsgPlaceholderError batch_index)], Val None)
    | TimedOut => ([ERun cmd TimedOut], Raise TimeoutExpired)
    | SpawnFailed => ([ERun cmd SpawnFailed], Raise OtherException)
    end.
Proof. unfold placeholder_in_thread. by destruct (bw_placeholder w). Qed.

Lemma placeholder_after_failure_spec (temp_dir : string) (w : BatchWorld)
    (batch_index : nat) (duration : Q) (output_fps : Z)
    (batch_id extraction_dir processed_dir : string) :
  let placeholder_segment := path_join temp_dir (batch_id +:+ "_placeholder.mp4") in
  let cmd := cmd_placeholder duration output_fps placeholder_segment in
  placeholder_after_failure temp_dir w batch_index duration output_fps batch_id
    extraction_dir processed_dir
  = match bw_placeholder w with
    | Completed =>
        ([ERun cmd Completed; ERmTree extraction_dir; ERmTree processed_dir],
         Val (OPath placeholder_segment))
    | NonZeroExit =>
        ([ERun cmd NonZeroExit; EPrint (MsgPlaceholderError batch_index)], Val ONone)
    | TimedOut => ([ERun cmd TimedOut], Raise TimeoutExpired)
    | SpawnFailed => ([ERun cmd SpawnFailed], Raise OtherException)
    end.
Proof. unfold placeholder_after_failure. by destruct (bw_placeholder w). Qed.

Lemma do_reassembly_empty (cfg : Config) (temp_dir : string) (w : BatchWorld)
    (batch_index : nat) (duration : Q) (output_fps : Z)
    (batch_id reassembly_dir : string) :
  sorted (glob_frames reassembly_dir (bw_processed w)) = [] →
  do_reassembly cfg temp_dir w batch_index duration output_fps batch_id reassembly_dir
  = (EPrint (MsgNoProcessedFrames batch_index)
     :: trace (placeholder_in_thread temp_dir w batch_index duration output_fps batch_id),
     result (placeholder_in_thread temp_dir w batch_index duration output_fps batch_id)).
Proof.
  intros He. unfold do_reassembly. cbv zeta. rewrite He, decide_True by done.
  by destruct (placeholder_in_thread _ _ _ _ _ _).
Qed.

(** ** The processing phase *)

Lemma poll_reports_spec (polled : list Z) :
  for_each polled (λ delta, emit (EProgress delta)) = (map EProgress polled, Val tt).
Proof.
  induction polled as [|d l IH]; [done|].
  unfold for_each in *. cbn [foldr map]. unfold mbind, M_bind in *. by rewrite IH.
Qed.

Lemma processing_phase_spec (cfg : Config) (temp_dir : string) (w : BatchWorld)
    (batch_index : nat) (duration : Q) (output_fps : Z)
    (script_dir batch_id extraction_dir processed_dir : string) (count : nat) :
  let loop := upscale_loop 3 w (cmd_esrgan cfg script_dir extraction_dir processed_dir)
                batch_index 0 in
  let reassembly := reassembly_phase cfg temp_dir w batch_index duration output_fps
                      batch_id extraction_dir processed_dir count in
  let fallback := placeholder_after_failure temp_dir w batch_index duration output_fps
                    batch_id extraction_dir processed_dir in
  processing_phase cfg temp_dir w batch_index duration output_fps script_dir batch_id
    extraction_dir processed_dir count
  = match result loop with
    | Val true =>
        (EThreadStart PollThread :: trace loop ++ map EProgress (bw_polled w)
         ++ EThreadJoin PollThread :: trace reassembly, result reassembly)
    | Val false =>
        (EThreadStart PollThread :: trace loop ++ map EProgress (bw_polled w)
         ++ EThreadJoin PollThread :: EPrint (MsgEsrganFailed batch_index max_attempts)
         :: trace fallback, result fallback)
    | Raise e => (EThreadStart PollThread :: trace loop, Raise e)
    end.
Proof.
  intros loop reassembly fallback. unfold processing_phase.
  change (Z.to_nat (max_attempts - 0)) with 3%nat. fold loop. fold reassembly. fold fallback.
  rewrite poll_reports_spec.
  destruct loop as [tl [[|]|e]], reassembly as [tr rr], fallback as [tf rf];
    unfold mbind, M_bind, trace, result; cbn; by rewrite <- ?app_assoc.
Qed.

Lemma commands_none (t : list event) :
  Forall (λ e, match e with ERun _ _ => False | _ => True end) t → commands t = [].
Proof. apply omap_none_Forall. by intros []. Qed.

Lemma commands_parse_errors (output_fps : Z) (frame_files : list string) :
  commands (parse_error_events output_fps frame_files) = [].
Proof.
  apply commands_none. unfold parse_error_events.
  induction frame_files as [|f l IH]; [done|]. cbn [flat_map].
  apply Forall_app_2; [|done]. destruct (parse_frame output_fps f); by repeat constructor.
Qed.

Lemma commands_write_lines (path : string) (lines : list concat_line) :
  commands (map (EWriteLine path) lines) = [].
Proof. apply commands_none, Forall_fmap, Forall_true. done. Qed.

Lemma commands_progress (polled : list Z) : commands (map EProgress polled) = [].
Proof. apply commands_none, Forall_fmap, Forall_true. done. Qed.

Lemma commands_after_concat (batch_index : nat) (path : string) (dirs : list string)
    (r : run_result) :
  commands (after_concat batch_index path dirs r) = [].
Proof.
  apply commands_none. unfold after_concat.
  destruct r; repeat constructor; apply Forall_fmap, Forall_true; done.
Qed.

Lemma calls_ffmpeg (cfg : Config) (script_dir extraction_dir processed_dir : string)
    (t : list event) :
  Forall is_ffmpeg (commands t) →
  calls (cmd_esrgan cfg script_dir extraction_dir processed_dir) t = 0%nat.
Proof.
  unfold calls. induction 1 as [|c l Hc _ IH]; [done|].
  rewrite filter_cons, decide_False; [done|]. by apply ffmpeg_is_not_engine.
Qed.

Lemma reassembly_phase_commands (cfg : Config) (temp_dir : string) (w : BatchWorld)
    (batch_index : nat) (duration : Q) (output_fps : Z)
    (batch_id extraction_dir processed_dir : string) (count : nat) :
  Forall is_ffmpeg
    (commands (trace (reassembly_phase cfg temp_dir w batch_index duration output_fps
                        batch_id extraction_dir processed_dir count))).
Proof.
  unfold reassembly_phase. destruct (MAX_CONCURRENT_BATCHES cfg =? 1); [by constructor|].
  destruct (decide (sorted (glob_frames processed_dir (bw_processed w)) = [])) as [He|Hne].
  - rewrite standard_reassembly_empty by done.
    rewrite placeholder_with_progress_spec.
    destruct (bw_placeholder w); by repeat constructor.
  - rewrite standard_reassembly_frames by done. unfold trace. cbn [fst].
    rewrite commands_app, commands_parse_errors. cbn [app].
    unfold commands at 1. rewrite omap_cons_None by done. rewrite omap_app.
    fold (commands (map (EWriteLine (path_join temp_dir (batch_id +:+ "_frames.txt")))
            (concat_lines output_fps (parsed_frames output_fps
               (sorted (glob_frames processed_dir (bw_processed w))))))).
    rewrite commands_write_lines. cbn [app].
    erewrite omap_cons_Some by reflexivity.
    fold (commands (after_concat batch_index
            (path_join temp_dir (batch_id +:+ "_frames.txt"))
            [extraction_dir; processed_dir] (bw_concat w))).
    rewrite commands_after_concat. by repeat constructor.
Qed.

Lemma calls_cons_quiet (cmd : list arg) (e : event) (t : list event) :
  match e with ERun _ _ => False | _ => True end →
  calls cmd (e :: t) = calls cmd t.
Proof. intros He. unfold calls, commands. rewrite omap_cons_None; [done|]. by destruct e. Qed.

Lemma calls_quiet (cmd : list arg) (t : list event) : commands t = [] → calls cmd t = 0%nat.
Proof. unfold calls. by intros ->. Qed.

Lemma calls_extraction_events (cfg : Config) (script_dir : string) (video_file : string)
    (batch_index : nat) (start_time duration : Q) (output_fps : Z)
    (extraction_dir processed_dir : string) (r : run_result) :
  calls (cmd_esrgan cfg script_dir extraction_dir processed_dir)
    (extraction_events video_file batch_index start_time duration output_fps
       extraction_dir processed_dir r) = 0%nat.
Proof.
  apply calls_ffmpeg. unfold extraction_events.
  destruct (decide (r = NonZeroExit)); by repeat constructor.
Qed.

Lemma calls_fallback (cfg : Config) (temp_dir script_dir : string) (w : BatchWorld)
    (batch_index : nat) (duration : Q) (output_fps : Z)
    (batch_id extraction_dir processed_dir : string) :
  calls (cmd_esrgan cfg script_dir extraction_dir processed_dir)
    (trace (placeholder_after_failure temp_dir w batch_index duration output_fps batch_id
              extraction_dir processed_dir)) = 0%nat.
Proof.
  apply calls_ffmpeg. rewrite placeholder_after_failure_spec.
  destruct (bw_placeholder w); by repeat constructor.
Qed.

(** The engine calls of the processing phase are those of the retry loop. *)
Lemma calls_processing_phase (cfg : Config) (temp_dir : string) (w : BatchWorld)
    (batch_index : nat) (duration : Q) (output_fps : Z)
    (script_dir batch_id extraction_dir processed_dir : string) (count n : nat) :
  let engine := cmd_esrgan cfg script_dir extraction_dir processed_dir in
  commands (trace (upscale_loop 3 w engine batch_index 0)) = replicate n engine →
  calls engine (trace (processing_phase cfg temp_dir w batch_index duration output_fps
                         script_dir batch_id extraction_dir processed_dir count)) = n.
Proof.
  intros engine Hloop. apply calls_replicate in Hloop.
  rewrite processing_phase_spec. fold engine.
  destruct (result (upscale_loop 3 w engine batch_index 0)) as [[|]|e];
    unfold trace at 1; cbn [fst];
    rewrite calls_cons_quiet by done.
  - rewrite !calls_app, Hloop, (calls_quiet _ _ (commands_progress _)).
    rewrite calls_cons_quiet by done.
    unfold engine. rewrite (calls_ffmpeg _ _ _ _ _ (reassembly_phase_commands _ _ _ _ _ _ _ _ _ _)).
    lia.
  - rewrite !calls_app, Hloop, (calls_quiet _ _ (commands_progress _)).
    rewrite !calls_cons_quiet by done.
    unfold engine. rewrite calls_fallback. lia.
  - exact Hloop.
Qed.

(** C4 (amended). In a batch whose extraction command ended and left at
    least 2 frames: the engine is run at most 3 times; if the call of
    attempt [k < 3] is the first to complete, the engine is run exactly
    [k + 1] times and the batch goes on with the reassembly phase; if the 3
    calls fail (timeout or error exit), the engine is run exactly 3 times
    and the placeholder is synthesised: when the synthesis completes both
    working directories are deleted and the placeholder path is returned,
    when it exits with an error the batch returns [None]. *)
Theorem C4_upscale_retries (cfg : Config) (temp_dir : string) (w : BatchWorld)
    (video_file : string) (batch_index : nat) (start_time duration : Q)
    (output_fps : Z) (script_dir : string) :
  let batch_id := batch_id_of w video_file batch_index in
  let extraction_dir := path_join temp_dir (batch_id +:+ "_extraction") in
  let processed_dir := path_join temp_dir (batch_id +:+ "_processed") in
  let placeholder_segment := path_join temp_dir (batch_id +:+ "_placeholder.mp4") in
  let count := length (glob_frames extraction_dir (bw_extracted w)) in
  let engine := cmd_esrgan cfg script_dir extraction_dir processed_dir in
  let reassembly := reassembly_phase cfg temp_dir w batch_index duration output_fps
                      batch_id extraction_dir processed_dir count in
  let run := process_batch cfg temp_dir w video_file batch_index start_time duration
               output_fps script_dir in
  (2 <= count)%nat →
  bw_extract w = Completed ∨ bw_extract w = NonZeroExit →
  (calls engine (trace run) <= 3)%nat
  ∧ (∀ k, (k < 3)%nat →
       (∀ j, (j < k)%nat → failed (bw_esrgan w (Z.of_nat j))) →
       bw_esrgan w (Z.of_nat k) = Completed →
       calls engine (trace run) = S k
       ∧ result run = result reassembly
       ∧ ∃ before, trace run = before ++ trace reassembly
                   ∧ commands before
                     = cmd_extract video_file start_time duration output_fps extraction_dir
                       :: replicate (S k) engine)
  ∧ ((∀ j, (j < 3)%nat → failed (bw_esrgan w (Z.of_nat j))) →
       calls engine (trace run) = 3%nat
       ∧ (bw_placeholder w = Completed →
            result run = Val (OPath placeholder_segment)
            ∧ ∃ before,
                trace run
                = before
                  ++ [EPrint (MsgEsrganFailed batch_index max_attempts);
                      ERun (cmd_placeholder duration output_fps placeholder_segment) Completed;
                      ERmTree extraction_dir; ERmTree processed_dir])
       ∧ (bw_placeholder w = NonZeroExit → result run = Val ONone)).
Proof.
  intros batch_id extraction_dir processed_dir placeholder_segment count engine
    reassembly run Hcount Hext.
  assert (Erun := process_batch_enough cfg temp_dir w video_file batch_index start_time
                    duration output_fps script_dir Hext Hcount).
  fold batch_id extraction_dir processed_dir count run in Erun.
  set (events := extraction_events video_file batch_index start_time duration output_fps
                   extraction_dir processed_dir (bw_extract w)) in *.
  set (phase := processing_phase cfg temp_dir w batch_index duration output_fps script_dir
                  batch_id extraction_dir processed_dir count) in *.
  assert (Hcalls : ∀ n,
    commands (trace (upscale_loop 3 w engine batch_index 0)) = replicate n engine →
    calls engine (trace run) = n).
  { intros n Hn. rewrite Erun. unfold trace at 1. cbn [fst].
    rewrite calls_app. unfold events, engine. rewrite calls_extraction_events.
    unfold phase. by rewrite (calls_processing_phase _ _ _ _ _ _ _ _ _ _ _ n). }
  assert (Hevents : commands events
    = [cmd_extract video_file start_time duration output_fps extraction_dir]).
  { unfold events, extraction_events. by destruct (decide _). }
  split; [|split].
  - destruct (upscale_loop_bound w engine batch_index 3 0) as (n & Hn & Hc).
    by rewrite (Hcalls n Hc).
  - intros k Hk Hfail Hok.
    destruct (upscale_loop_first_success w engine batch_index k 3 0 Hk) as [Hr Hc].
    { intros j Hj. rewrite Z.add_0_l. by apply Hfail. }
    { by rewrite Z.add_0_l. }
    split; [by apply Hcalls|].
    rewrite Erun. unfold phase. rewrite processing_phase_spec. fold engine. rewrite Hr.
    fold reassembly. unfold result at 1, trace at 1. cbn [fst snd].
    split; [done|].
    exists (events ++ EThreadStart PollThread
            :: trace (upscale_loop 3 w engine batch_index 0)
            ++ map EProgress (bw_polled w) ++ [EThreadJoin PollThread]).
    split.
    + rewrite <- !app_assoc. cbn [app]. by rewrite <- !app_assoc.
    + rewrite commands_app, Hevents. cbn [app]. f_equal.
      unfold commands at 1. rewrite omap_cons_None by done. rewrite !omap_app.
      fold (commands (trace (upscale_loop 3 w engine batch_index 0))).
      fold (commands (map EProgress (bw_polled w))).
      rewrite Hc, commands_progress. cbn [app]. by rewrite app_nil_r.
  - intros Hfail.
    destruct (upscale_loop_all_failed w engine batch_index 3 0) as [Hr Hc].
    { intros j Hj. rewrite Z.add_0_l. by apply Hfail. }
    split; [by apply Hcalls|].
    rewrite Erun. unfold phase. rewrite processing_phase_spec. fold engine. rewrite Hr.
    rewrite placeholder_after_failure_spec. fold placeholder_segment.
    split; intros ->; unfold result, trace; cbn [fst snd]; [|done].
    split; [done|].
    exists (events ++ EThreadStart PollThread
            :: (upscale_loop 3 w engine batch_index 0).1
            ++ map EProgress (bw_polled w) ++ [EThreadJoin PollThread]).
    rewrite <- !app_assoc. cbn [app]. by rewrite <- !app_assoc.
Qed.

Lemma C4_witness :
  let w := three_frames in
  let run := process_batch default_config "/tmp" w "/videos/in.mp4" 0 0 20 30 "/app" in
  let engine := cmd_esrgan default_config "/app" "/tmp/in_batch_0_1700000000_extraction"
                  "/tmp/in_batch_0_1700000000_processed" in
  (2 <= length (glob_frames "/tmp/in_batch_0_1700000000_extraction" (bw_extracted w)))%nat
  ∧ (bw_extract w = Completed ∨ bw_extract w = NonZeroExit)
  ∧ (calls engine (trace run) <= 3)%nat
  ∧ calls engine (trace run) = 3%nat.
Proof.
  intros w run engine.
  assert (Hcount : (2 <= length (glob_frames "/tmp/in_batch_0_1700000000_extraction"
                                   (bw_extracted w)))%nat) by (vm_compute; lia).
  assert (Hext : bw_extract w = Completed ∨ bw_extract w = NonZeroExit) by (left; reflexivity).
  split; [exact Hcount|]. split; [exact Hext|].
  destruct (C4_upscale_retries default_config "/tmp" w "/videos/in.mp4" 0 0 20 30 "/app"
              Hcount Hext) as (Hbound & Hsuccess & _).
  split; [exact Hbound|].
  refine (proj1 (Hsuccess 2%nat _ _ _)).
  - lia.
  - intros j Hj. right. destruct j as [|[|j]]; [reflexivity | reflexivity | lia].
  - reflexivity.
Defined.

(** C4 as stated fails: when the 3 engine calls and the placeholder
    synthesis all exit with an error, the batch returns [None] and leaves
    both working directories. *)
Lemma C4_counterexample :
  let w := with_placeholder (with_esrgan three_frames (λ _, NonZeroExit)) NonZeroExit in
  let run := process_batch default_config "/tmp" w "/videos/in.mp4" 0 0 20 30 "/app" in
  let engine := cmd_esrgan default_config "/app" "/tmp/in_batch_0_1700000000_extraction"
                  "/tmp/in_batch_0_1700000000_processed" in
  length (glob_frames "/tmp/in_batch_0_1700000000_extraction" (bw_extracted w)) = 3%nat
  ∧ calls engine (trace run) = 3%nat
  ∧ result run = Val ONone
  ∧ (∀ p, result run ≠ Val (OPath p))
  ∧ leftover [] (trace run)
    = ["/tmp/in_batch_0_1700000000_extraction"; "/tmp/in_batch_0_1700000000_processed"].
Proof.
  intros w run engine. split; [reflexivity|].
  split; [vm_compute; reflexivity|].
  assert (E : result run = Val ONone) by (vm_compute; reflexivity).
  split; [exact E|]. split; [intros p; rewrite E; discriminate|].
  vm_compute; reflexivity.
Qed.

(** ** The order of the edit-list *)

Lemma insert_frame_perm (x : string * Q) (l : list (string * Q)) :
  insert_frame x l ≡ₚ x :: l.
Proof.
  induction l as [|y l IH]; [done|]. cbn [insert_frame].
  destruct (Qle_bool x.2 y.2); [done|]. rewrite IH. apply Permutation_swap.
Qed.

Lemma sort_frames_perm (l : list (string * Q)) : sort_frames l ≡ₚ l.
Proof.
  induction l as [|x l IH]; [done|]. unfold sort_frames in *. cbn [foldr].
  by rewrite insert_frame_perm, IH.
Qed.

Lemma insert_frame_sorted (x : string * Q) (l : list (string * Q)) :
  StronglySorted by_timestamp l → StronglySorted by_timestamp (insert_frame x l).
Proof.
  induction 1 as [|y l Hl IH Hy]; cbn [insert_frame]; [by repeat constructor|].
  destruct (Qle_bool x.2 y.2) eqn:E.
  - apply Qle_bool_iff in E. constructor; [by constructor|].
    constructor; [exact E|]. eapply Forall_impl; [exact Hy|].
    intros z Hz. unfold by_timestamp in *. eapply Qle_trans; [exact E | exact Hz].
  - assert (Hyx : by_timestamp y x).
    { unfold by_timestamp. destruct (Qlt_le_dec y.2 x.2) as [H|H]; [by apply Qlt_le_weak|].
      apply Qle_bool_iff in H. congruence. }
    constructor; [exact IH|].
    rewrite (insert_frame_perm x l). by constructor.
Qed.

Lemma sort_frames_sorted (l : list (string * Q)) :
  StronglySorted by_timestamp (sort_frames l).
Proof.
  induction l as [|x l IH]; [constructor|]. unfold sort_frames in *. cbn [foldr].
  by apply insert_frame_sorted.
Qed.

Lemma StronglySorted_lookup {A : Type} (R : A → A → Prop) (l : list A) :
  StronglySorted R l →
  ∀ i j x y, (i < j)%nat → l !! i = Some x → l !! j = Some y → R x y.
Proof.
  induction 1 as [|z l Hl IH Hz]; intros i j x y Hij Hi Hj; [done|].
  destruct j as [|j]; [lia|]. destruct i as [|i].
  - injection Hi as <-. rewrite Forall_forall in Hz. apply Hz.
    by eapply list_elem_of_lookup_2.
  - apply (IH i j); [lia|done|done].
Qed.

Lemma parse_frame_inv (output_fps : Z) (filepath p : string) (t : Q) :
  parse_frame output_fps filepath = Some (p, t) →
  p = filepath ∧ ∃ k, frame_number p = Some k ∧ t = timestamp_of output_fps k.
Proof.
  unfold parse_frame. destruct (frame_number filepath) as [k|] eqn:Ek; [|done]. cbn.
  destruct (output_fps =? 0); [done|]. intros [= <- <-]. split; [done|]. by exists k.
Qed.

Lemma timestamp_of_le (output_fps k k' : Z) :
  0 < output_fps →
  (timestamp_of output_fps k <= timestamp_of output_fps k')%Q ↔ k <= k'.
Proof.
  intros Hfps. unfold timestamp_of.
  assert (Hf : (0 < inject_Z output_fps)%Q) by (rewrite <- (Zlt_Qlt 0); lia).
  split.
  - intros H. apply (Qmult_le_compat_r _ _ (inject_Z output_fps)) in H; [|lra].
    assert (E : ∀ a, (inject_Z a / inject_Z output_fps * inject_Z output_fps
                      == inject_Z a)%Q) by (intros a; field; lra).
    rewrite !E in H. rewrite <- Zle_Qle in H. lia.
  - intros H. apply Qmult_le_compat_r.
    + rewrite <- Zle_Qle. lia.
    + apply Qlt_le_weak, Qinv_lt_0_compat, Hf.
Qed.

Lemma written_quiet (path : string) (t : list event) :
  Forall (λ e, ∀ p l, e ≠ EWriteLine p l) t → written path t = [].
Proof.
  induction 1 as [|e t He _ IH]; [done|]. unfold written in *. cbn [omap list_omap].
  rewrite IH. destruct e; try done. by destruct (He path0 l).
Qed.

Lemma written_write_lines (path : string) (lines : list concat_line) :
  written path (map (EWriteLine path) lines) = lines.
Proof.
  induction lines as [|l lines IH]; [done|]. unfold written in *. cbn [map omap list_omap].
  by rewrite decide_True, IH.
Qed.

Lemma written_app (path : string) (t1 t2 : list event) :
  written path (t1 ++ t2) = written path t1 ++ written path t2.
Proof. apply omap_app. Qed.

Lemma written_parse_errors (path : string) (output_fps : Z) (frame_files : list string) :
  written path (parse_error_events output_fps frame_files) = [].
Proof.
  apply written_quiet. unfold parse_error_events.
  induction frame_files as [|f l IH]; [constructor|]. cbn [flat_map].
  apply Forall_app_2; [|exact IH].
  destruct (parse_frame output_fps f); [constructor|].
  by constructor.
Qed.

Lemma written_after_concat (path : string) (batch_index : nat) (list_path : string)
    (dirs : list string) (r : run_result) :
  written path (after_concat batch_index list_path dirs r) = [].
Proof.
  apply written_quiet. unfold after_concat.
  assert (Forall (λ e, ∀ p l, e ≠ EWriteLine p l) (map ERmTree dirs)).
  { induction dirs; by constructor. }
  destruct r; repeat constructor; done.
Qed.

(** Line [1 + 2 i] and line [2 + 2 i] of the edit-list are the two lines of
    frame [i]. *)
Lemma frame_lines_lookup {A : Type} (f : nat → A → concat_line) (g : nat → A → concat_line)
    (l : list A) (k i : nat) (x : A) :
  l !! i = Some x →
  flat_map (λ e : nat * A, [f e.1 e.2; g e.1 e.2]) (imap (λ j, pair (k + j)%nat) l)
    !! (2 * i)%nat = Some (f (k + i)%nat x)
  ∧ flat_map (λ e : nat * A, [f e.1 e.2; g e.1 e.2]) (imap (λ j, pair (k + j)%nat) l)
      !! S (2 * i)%nat = Some (g (k + i)%nat x).
Proof.
  revert k i. induction l as [|y l IH]; intros k i Hi; [done|].
  cbn [imap flat_map app]. destruct i as [|i].
  - injection Hi as ->. rewrite Nat.add_0_r. done.
  - cbn [lookup list_lookup] in Hi.
    replace (2 * S i)%nat with (S (S (2 * i))) by lia. cbn [lookup list_lookup].
    rewrite (imap_ext _ (λ j, pair (S k + j)%nat)) by (intros; cbn; f_equal; lia).
    replace (k + S i)%nat with (S k + i)%nat by lia.
    by apply IH.
Qed.

Lemma length_frame_lines {A : Type} (f : nat * A → list concat_line) (l : list (nat * A)) :
  (∀ e, length (f e) = 2%nat) → length (flat_map f l) = (2 * length l)%nat.
Proof.
  intros Hf. induction l as [|e l IH]; [done|]. cbn [flat_map].
  rewrite length_app, Hf, IH. cbn [length]. lia.
Qed.

Lemma concat_lines_lookup (output_fps : Z) (frames : list (string * Q)) (i : nat)
    (entry : string * Q) :
  frames !! i = Some entry →
  concat_lines output_fps frames !! (1 + 2 * i)%nat
  = Some (FileLine (escape_backslashes entry.1))
  ∧ concat_lines output_fps frames !! (2 + 2 * i)%nat
    = Some (DurationLine (frame_duration output_fps (length frames) i)).
Proof.
  intros Hi. unfold concat_lines, enumerate.
  exact (frame_lines_lookup (λ _ x, FileLine (escape_backslashes x.1))
           (λ j _, DurationLine (frame_duration output_fps (length frames) j))
           frames 0 i entry Hi).
Qed.

Lemma length_concat_lines (output_fps : Z) (frames : list (string * Q)) :
  length (concat_lines output_fps frames) = (1 + 2 * length frames)%nat.
Proof.
  unfold concat_lines, enumerate. cbn [length].
  rewrite length_frame_lines by done. by rewrite length_imap.
Qed.

Lemma frame_duration_cases (output_fps : Z) (count i : nat) :
  (i < count)%nat →
  frame_duration output_fps count i
  = if decide (S i = count) then 0%Q else (1 / inject_Z output_fps)%Q.
Proof.
  intros Hi. unfold frame_duration. repeat case_decide; try done; lia.
Qed.

(** C5. When the processed directory holds frame files and the output fps
    is positive, the edit-list written by the standard reassembly is the
    header followed by two lines per frame whose name carries a sequence
    number: the frames are those names with the timestamp
    [(sequence number - 1) / output_fps], in ascending order of timestamp,
    that is of sequence number, whatever the order of the names; frame [i]
    is given the duration [1 / output_fps], except the last one, which is
    given the duration 0. *)
Theorem C5_edit_list_by_timestamp (cfg : Config) (temp_dir : string) (w : BatchWorld)
    (batch_index : nat) (duration : Q) (output_fps : Z)
    (batch_id extraction_dir processed_dir : string) (count : nat) :
  let frame_files := sorted (glob_frames processed_dir (bw_processed w)) in
  let concat_list_path := path_join temp_dir (batch_id +:+ "_frames.txt") in
  let frames := parsed_frames output_fps frame_files in
  let lines := written concat_list_path
                 (trace (standard_reassembly cfg temp_dir w batch_index duration output_fps
                           batch_id extraction_dir processed_dir count)) in
  0 < output_fps →
  frame_files ≠ [] →
  frames ≡ₚ omap (parse_frame output_fps) frame_files
  ∧ length lines = (1 + 2 * length frames)%nat
  ∧ lines !! 0%nat = Some Header
  ∧ (∀ i p t, frames !! i = Some (p, t) →
       p ∈ frame_files
       ∧ (∃ k, frame_number p = Some k ∧ t = timestamp_of output_fps k)
       ∧ lines !! (1 + 2 * i)%nat = Some (FileLine (escape_backslashes p))
       ∧ lines !! (2 + 2 * i)%nat
         = Some (DurationLine (if decide (S i = length frames) then 0%Q
                               else (1 / inject_Z output_fps)%Q)))
  ∧ (∀ i j p p' t t' k k', (i < j)%nat →
       frames !! i = Some (p, t) → frames !! j = Some (p', t') →
       frame_number p = Some k → frame_number p' = Some k' →
       (t <= t')%Q ∧ k <= k').
Proof.
  intros frame_files concat_list_path frames lines Hfps Hne.
  assert (Hlines : lines = concat_lines output_fps frames).
  { subst lines. rewrite standard_reassembly_frames by exact Hne. unfold trace. cbn [fst].
    fold frame_files. fold concat_list_path. fold frames.
    rewrite written_app, written_parse_errors. cbn [app].
    change (EOpen concat_list_path :: ?t) with ([EOpen concat_list_path] ++ t).
    rewrite written_app. change (written concat_list_path [EOpen concat_list_path]) with
      (@nil concat_line). cbn [app].
    rewrite written_app, written_write_lines.
    match goal with |- _ ++ written _ (?e :: ?t) = _ =>
      change (e :: t) with ([e] ++ t) end.
    rewrite written_app, written_after_concat. cbn. by rewrite app_nil_r. }
  assert (Hperm : frames ≡ₚ omap (parse_frame output_fps) frame_files)
    by apply sort_frames_perm.
  assert (Hin : ∀ i p t, frames !! i = Some (p, t) →
            p ∈ frame_files ∧ ∃ k, frame_number p = Some k ∧ t = timestamp_of output_fps k).
  { intros i p t Hi. apply list_elem_of_lookup_2 in Hi. rewrite Hperm in Hi.
    apply list_elem_of_omap in Hi as (f & Hf & Hp).
    apply parse_frame_inv in Hp as [-> Hk]. by split. }
  split; [exact Hperm|]. split; [rewrite Hlines; apply length_concat_lines|].
  split; [by rewrite Hlines|]. split.
  - intros i p t Hi. destruct (Hin i p t Hi) as [Hp Hk].
    split; [exact Hp|]. split; [exact Hk|]. rewrite Hlines.
    destruct (concat_lines_lookup output_fps frames i (p, t) Hi) as [Hfile Hdur].
    split; [exact Hfile|]. rewrite Hdur. rewrite frame_duration_cases; [done|].
    by eapply lookup_lt_Some.
  - intros i j p p' t t' k k' Hij Hi Hj Hk Hk'.
    assert (Hle : (t <= t')%Q).
    { exact (StronglySorted_lookup by_timestamp frames (sort_frames_sorted _)
               i j (p, t) (p', t') Hij Hi Hj). }
    split; [exact Hle|].
    destruct (Hin i p t Hi) as [_ (k0 & Hk0 & ->)].
    destruct (Hin j p' t' Hj) as [_ (k1 & Hk1 & ->)].
    rewrite Hk in Hk0. rewrite Hk' in Hk1. injection Hk0 as <-. injection Hk1 as <-.
    by apply (timestamp_of_le output_fps).
Qed.

Lemma C5_witness :
  let w := three_frames in
  let frame_files := sorted (glob_frames "/tmp/b_processed" (bw_processed w)) in
  let lines := written "/tmp/b_frames.txt"
                 (trace (standard_reassembly default_config "/tmp" w 0 20 30 "b"
                           "/tmp/b_extraction" "/tmp/b_processed" 3)) in
  0 < 30
  ∧ frame_files = ["/tmp/b_processed/frame_10.png"; "/tmp/b_processed/frame_100.png";
                   "/tmp/b_processed/frame_9.png"]
  ∧ frame_files ≠ []
  ∧ lines !! 1%nat = Some (FileLine "/tmp/b_processed/frame_9.png")
  ∧ lines !! 2%nat = Some (DurationLine (1 / inject_Z 30)%Q)
  ∧ lines !! 5%nat = Some (FileLine "/tmp/b_processed/frame_100.png")
  ∧ lines !! 6%nat = Some (DurationLine 0%Q).
Proof.
  intros w frame_files lines.
  assert (Hfps : 0 < 30) by lia.
  assert (Hfiles : frame_files = ["/tmp/b_processed/frame_10.png";
                                  "/tmp/b_processed/frame_100.png";
                                  "/tmp/b_processed/frame_9.png"])
    by (vm_compute; reflexivity).
  assert (Hne : frame_files ≠ []) by (rewrite Hfiles; discriminate).
  split; [exact Hfps|]. split; [exact Hfiles|]. split; [exact Hne|].
  destruct (C5_edit_list_by_timestamp default_config "/tmp" w 0 20 30 "b"
              "/tmp/b_extraction" "/tmp/b_processed" 3 Hfps Hne) as (_ & _ & _ & Hl & _).
  destruct (Hl 0%nat "/tmp/b_processed/frame_9.png" (timestamp_of 30 9))
    as (_ & _ & Hf0 & Hd0); [vm_compute; reflexivity|].
  destruct (Hl 2%nat "/tmp/b_processed/frame_100.png" (timestamp_of 30 100))
    as (_ & _ & Hf2 & Hd2); [vm_compute; reflexivity|].
  split; [exact Hf0|]. split; [exact Hd0|]. split; [exact Hf2|]. exact Hd2.
Defined.

(** ** Format normalisation *)

Lemma py_round_nearest (x : Q) : (Qabs (x - inject_Z (py_round x)) <= 1 # 2)%Q.
Proof.
  unfold py_round. pose proof (Qfloor_le x) as Hlo. pose proof (Qlt_floor x) as Hhi.
  rewrite inject_Z_plus in Hhi. change (inject_Z 1) with 1%Q in Hhi.
  apply Qabs_Qle_condition.
  destruct (Qcompare (x - inject_Z (Qfloor x)) (1 # 2)) eqn:E.
  - apply Qeq_alt in E. destruct (Z.even (Qfloor x)).
    + split; lra.
    + rewrite inject_Z_plus. change (inject_Z 1) with 1%Q. split; lra.
  - apply Qlt_alt in E. split; lra.
  - apply Qgt_alt in E. rewrite inject_Z_plus. change (inject_Z 1) with 1%Q. split; lra.
Qed.

Lemma is_integer_fps_spec (fps : Q) :
  is_integer_fps fps = true ↔ (Qabs (fps - inject_Z (py_round fps)) < tol)%Q.
Proof.
  unfold is_integer_fps. destruct (Qlt_le_dec _ tol) as [H|H]; split; try done.
  intros H'. exfalso. by apply (Qlt_not_le _ _ H').
Qed.

(** C7. The decision table of [convert_if_needed], on the probed fps and
    the lower-cased extension of the input. Integer fps (within the
    tolerance) and extension [.mp4]: no command is run and the input path
    is returned. Integer fps and another extension: the one command run is
    the [ffmpeg] remux with [-c copy] into the [.mp4] file of the temporary
    directory, whose path is returned when the command completes. Other
    fps: the one command run is the [ffmpeg] encoding at rate
    [round(fps)], an integer within 1/2 of the fps, with [-preset fast] and
    [-crf 18], into the same [.mp4] file, whose path is returned when the
    command completes. *)
Theorem C7_convert_decision_table (temp_dir : string) (ran : run_result)
    (video_file : string) (fps : Q) :
  let input_ext := lower (splitext video_file).2 in
  let integer_fps := (Qabs (fps - inject_Z (py_round fps)) < 1 # 1000000)%Q in
  let converted_path :=
    path_join temp_dir ((splitext (basename video_file)).1 +:+ "_converted.mp4") in
  let run := convert_if_needed temp_dir ran video_file fps in
  (integer_fps → input_ext = ".mp4" →
     commands (trace run) = [] ∧ result run = Val video_file)
  ∧ (integer_fps → input_ext ≠ ".mp4" →
       commands (trace run)
       = [[Lit "ffmpeg"; Lit "-hide_banner"; Lit "-loglevel"; Lit "error"; Lit "-y";
           Lit "-i"; Lit video_file; Lit "-c"; Lit "copy"; Lit converted_path]]
       ∧ (ran = Completed → result run = Val converted_path))
  ∧ (¬ integer_fps →
       commands (trace run)
       = [[Lit "ffmpeg"; Lit "-hide_banner"; Lit "-loglevel"; Lit "error"; Lit "-y";
           Lit "-i"; Lit video_file; Lit "-r"; Lit (str_int (py_round fps));
           Lit "-c:v"; Lit "libx264"; Lit "-preset"; Lit "fast"; Lit "-crf"; Lit "18";
           Lit converted_path]]
       ∧ (Qabs (fps - inject_Z (py_round fps)) <= 1 # 2)%Q
       ∧ (ran = Completed → result run = Val converted_path)).
Proof.
  intros input_ext integer_fps converted_path run.
  pose proof (is_integer_fps_spec fps) as Hint. fold tol in integer_fps.
  subst run. unfold convert_if_needed. fold input_ext.
  unfold converted_path_of. fold converted_path.
  split; [|split].
  - intros Hi Hext. apply Hint in Hi. rewrite Hi, Hext. done.
  - intros Hi Hext. apply Hint in Hi. rewrite Hi.
    apply String.eqb_neq in Hext. rewrite Hext. cbn [andb negb].
    split; [by destruct ran|]. by intros ->.
  - intros Hi. destruct (is_integer_fps fps) eqn:E.
    { destruct Hi. by apply Hint. }
    cbn [andb]. split; [by destruct ran|]. split; [apply py_round_nearest|].
    by intros ->.
Qed.

Lemma C7_witness :
  commands (trace (convert_if_needed "/tmp" Completed "/videos/in.mp4" 30)) = []
  ∧ result (convert_if_needed "/tmp" Completed "/videos/in.mp4" 30) = Val "/videos/in.mp4"
  ∧ result (convert_if_needed "/tmp" Completed "/videos/in.MKV" 30)
    = Val "/tmp/in_converted.mp4"
  ∧ commands (trace (convert_if_needed "/tmp" Completed "/videos/in.mp4" (2997 # 100)))
    = [[Lit "ffmpeg"; Lit "-hide_banner"; Lit "-loglevel"; Lit "error"; Lit "-y";
        Lit "-i"; Lit "/videos/in.mp4"; Lit "-r"; Lit "30";
        Lit "-c:v"; Lit "libx264"; Lit "-preset"; Lit "fast"; Lit "-crf"; Lit "18";
        Lit "/tmp/in_converted.mp4"]].
Proof.
  destruct (C7_convert_decision_table "/tmp" Completed "/videos/in.mp4" 30)
    as (Hskip & _ & _).
  destruct (C7_convert_decision_table "/tmp" Completed "/videos/in.MKV" 30)
    as (_ & Hremux & _).
  destruct (C7_convert_decision_table "/tmp" Completed "/videos/in.mp4" (2997 # 100))
    as (_ & _ & Hencode).
  destruct Hskip as [Hs1 Hs2]; [by vm_compute|by vm_compute|].
  destruct Hremux as [_ Hr]; [by vm_compute|by vm_compute|].
  destruct Hencode as (He & _ & _); [by vm_compute|].
  split; [exact Hs1|]. split; [exact Hs2|]. split; [exact (Hr eq_refl)|]. exact He.
Defined.

(** ** The two reassembly paths *)

(** C6. With a pool of one worker a batch whose frames were upscaled
    returns a deferred handle, but the reassembly it defers is not the
    standard one. When no processed frame survives, the standard path
    deletes both working directories and reports the extracted frame count
    (here 3), while the deferred one reports nothing and leaves the moved
    directory. With processed frames, the deferred concatenation command
    adds [-c:v libx264 -pix_fmt yuv420p] after the configured arguments,
    which the standard command does not. *)
Theorem C6_decoupled_reassembly_diverges :
  let w := with_esrgan three_frames (λ _, Completed) in
  let w0 := with_processed w [] in
  let serial := λ w, process_batch serial_config "/tmp" w "/videos/in.mp4" 0 0 20 30 "/app" in
  let standard := λ w, process_batch default_config "/tmp" w "/videos/in.mp4" 0 0 20 30 "/app" in
  let list_path := "/tmp/in_batch_0_1700000000_frames.txt" in
  let segment := "/tmp/in_batch_0_1700000000_segment.mp4" in
  let placeholder := "/tmp/in_batch_0_1700000000_placeholder.mp4" in
  (∃ reassembly,
     result (serial w0) = Val (ODeferred reassembly)
     ∧ result reassembly = Val (Some placeholder)
     ∧ progress_reports (trace (serial w0) ++ trace reassembly) = [2; 1]
     ∧ leftover [] (trace (serial w0) ++ trace reassembly)
       = ["/tmp/in_batch_0_1700000000_processed_for_reassembly"; placeholder])
  ∧ result (standard w0) = Val (OPath placeholder)
  ∧ progress_reports (trace (standard w0)) = [2; 1; 3]
  ∧ leftover [] (trace (standard w0)) = [placeholder]
  ∧ (∃ reassembly,
       result (serial w) = Val (ODeferred reassembly)
       ∧ result reassembly = Val (Some segment)
       ∧ map (λ l, match l with
                   | FileLine p => FileLine (basename p)
                   | _ => l
                   end) (written list_path (trace reassembly))
         = map (λ l, match l with
                     | FileLine p => FileLine (basename p)
                     | _ => l
                     end) (written list_path (trace (standard w)))
       ∧ last (commands (trace reassembly))
         = Some (cmd_concat_head serial_config list_path 30
                 ++ [Lit "-y"; Lit "-c:v"; Lit "libx264"; Lit "-pix_fmt"; Lit "yuv420p";
                     Lit segment]))
  ∧ result (standard w) = Val (OPath segment)
  ∧ last (commands (trace (standard w)))
    = Some (cmd_concat_head default_config list_path 30 ++ [Lit "-y"; Lit segment]).
Proof.
  intros w w0 serial standard list_path segment placeholder.
  split.
  { eexists. split; [vm_compute; reflexivity|].
    repeat split; vm_compute; reflexivity. }
  repeat (split; [vm_compute; reflexivity|]).
  split.
  { eexists. split; [vm_compute; reflexivity|].
    repeat split; vm_compute; reflexivity. }
  split; vm_compute; reflexivity.
Qed.

(** ** What a run leaves behind *)

(** C9. Two failure paths return before the deletions. A batch with no
    extracted frame whose placeholder synthesis exits with an error returns
    [None] and leaves its two working directories; a job whose segment
    concatenation exits with an error returns and leaves its segment list.
    The same job leaves only its output when every command completes. *)
Theorem C9_failure_paths_leave_artifacts :
  let batch := process_batch default_config "/tmp" (with_placeholder empty_batch NonZeroExit)
                 "/videos/in.mp4" 0 0 20 30 "/app" in
  let job := λ w, process_video default_config "/tmp" w "/videos/in.mp4" "/app" in
  result batch = Val ONone
  ∧ leftover [] (trace batch)
    = ["/tmp/in_batch_0_1700000000_extraction"; "/tmp/in_batch_0_1700000000_processed"]
  ∧ result (job (with_concat sample_video NonZeroExit)) = Val None
  ∧ leftover [] (trace (job (with_concat sample_video NonZeroExit)))
    = ["/tmp/in_segments.txt"]
  ∧ result (job sample_video) = Val (Some tt)
  ∧ leftover [] (trace (job sample_video)) = ["/app/output"; "/app/output/in.mkv"].
Proof.
  intros batch job. repeat split; vm_compute; reflexivity.
Qed.

(** * Further properties of the pipeline *)

(** ** The job before its batches *)

Lemma process_video_skipped (cfg : Config) (temp_dir : string) (w : VideoWorld)
    (video_file script_dir : string) :
  (vw_duration w <= 0)%Q →
  process_video cfg temp_dir w video_file script_dir
  = ([EPrint (MsgProcessingVideo video_file); EPrint (MsgSkipZeroDuration video_file)],
     Val None).
Proof. intros Hd. unfold process_video. apply Qle_bool_iff in Hd. by rewrite Hd. Qed.

(** X1. A video probed with a duration of 0 or less is skipped: the job
    prints its two messages and returns [None] without running a command,
    starting a thread, waiting or submitting a batch, and what is on disk
    is left as it was. *)
Theorem process_video_skips_without_duration (cfg : Config) (temp_dir : string)
    (w : VideoWorld) (video_file script_dir : string) (fs : list string) :
  (vw_duration w <= 0)%Q →
  let run := process_video cfg temp_dir w video_file script_dir in
  result run = Val None
  ∧ printed (trace run) = [MsgProcessingVideo video_file; MsgSkipZeroDuration video_file]
  ∧ commands (trace run) = []
  ∧ submissions (trace run) = []
  ∧ sleeps (trace run) = []
  ∧ Forall (λ e, ∀ th, e ≠ EThreadStart th) (trace run)
  ∧ leftover fs (trace run) = fs.
Proof.
  intros Hd run. subst run. rewrite process_video_skipped by exact Hd.
  repeat split; try done.
  repeat constructor; done.
Qed.

Lemma process_video_skips_witness :
  let w := {| vw_fps := 24; vw_duration := 0; vw_time_base := 1 # 1000;
              vw_convert := Completed; vw_batch := λ _, empty_batch;
              vw_completion := []; vw_concat := Completed; vw_merge := Completed |} in
  (vw_duration w <= 0)%Q
  ∧ result (process_video default_config "/tmp" w "/videos/in.mp4" "/app") = Val None.
Proof.
  intros w. assert (Hd : (vw_duration w <= 0)%Q) by (cbn; lra).
  split; [exact Hd|].
  exact (proj1 (process_video_skips_without_duration default_config "/tmp" w
                  "/videos/in.mp4" "/app" [] Hd)).
Defined.

(** X2. [convert_if_needed] is called outside any [try]: when the video has
    to be converted and the conversion command does not complete, the job
    raises the exception of that command right after it, before the
    progress thread is started and before any batch is submitted. *)
Theorem process_video_conversion_failure (cfg : Config) (temp_dir : string)
    (w : VideoWorld) (video_file script_dir : string) :
  (0 < vw_duration w)%Q →
  is_integer_fps (vw_fps w) = false ∨ lower (splitext video_file).2 ≠ ".mp4" →
  vw_convert w ≠ Completed →
  let run := process_video cfg temp_dir w video_file script_dir in
  result run
  = Raise (match vw_convert w with
           | TimedOut => TimeoutExpired
           | SpawnFailed => OtherException
           | _ => CalledProcessError
           end)
  ∧ length (commands (trace run)) = 1%nat
  ∧ submissions (trace run) = []
  ∧ sleeps (trace run) = []
  ∧ Forall (λ e, ∀ th, e ≠ EThreadStart th) (trace run).
Proof.
  intros Hd Hconv Hran run. subst run. unfold process_video.
  assert (Hb : Qle_bool (vw_duration w) 0 = false).
  { destruct (Qle_bool (vw_duration w) 0) eqn:E; [|done].
    apply Qle_bool_iff in E. lra. }
  rewrite Hb. unfold convert_if_needed.
  destruct Hconv as [Hi | Hext].
  - rewrite Hi. cbn [andb].
    destruct (vw_convert w); [done| | |];
      (repeat split; [done..|]; repeat constructor; done).
  - apply String.eqb_neq in Hext. rewrite Hext. rewrite andb_false_r. cbn [negb].
    destruct (is_integer_fps (vw_fps w));
      (destruct (vw_convert w); [done| | |];
         (repeat split; [done..|]; repeat constructor; done)).
Qed.

Lemma process_video_conversion_failure_witness :
  let w := {| vw_fps := 2997 # 100; vw_duration := 50; vw_time_base := 1 # 1000;
              vw_convert := NonZeroExit; vw_batch := λ _, empty_batch;
              vw_completion := [0; 1; 2]%nat; vw_concat := Completed;
              vw_merge := Completed |} in
  (0 < vw_duration w)%Q
  ∧ is_integer_fps (vw_fps w) = false
  ∧ vw_convert w ≠ Completed
  ∧ result (process_video default_config "/tmp" w "/videos/in.mp4" "/app")
    = Raise CalledProcessError.
Proof.
  intros w. assert (Hd : (0 < vw_duration w)%Q) by (cbn; lra).
  assert (Hi : is_integer_fps (vw_fps w) = false) by (vm_compute; reflexivity).
  assert (Hr : vw_convert w ≠ Completed) by discriminate.
  split; [exact Hd|]. split; [exact Hi|]. split; [exact Hr|].
  exact (proj1 (process_video_conversion_failure default_config "/tmp" w
                  "/videos/in.mp4" "/app" Hd (or_introl Hi) Hr)).
Defined.

(** ** The retry loop *)

Lemma sleeps_app (t1 t2 : list event) : sleeps (t1 ++ t2) = sleeps t1 ++ sleeps t2.
Proof. apply omap_app. Qed.

Lemma upscale_loop_completed (w : BatchWorld) (cmd : list arg) (batch_index : nat)
    (remaining : nat) (attempt : Z) :
  bw_esrgan w attempt = Completed →
  upscale_loop (S remaining) w cmd batch_index attempt = ([ERun cmd Completed], Val true).
Proof. intros H. cbn [upscale_loop]. by rewrite H. Qed.

Lemma upscale_loop_spawn_failed (w : BatchWorld) (cmd : list arg) (batch_index : nat)
    (remaining : nat) (attempt : Z) :
  bw_esrgan w attempt = SpawnFailed →
  upscale_loop (S remaining) w cmd batch_index attempt
  = ([ERun cmd SpawnFailed], Raise OtherException).
Proof. intros H. cbn [upscale_loop]. by rewrite H. Qed.

(** X3. Every failed engine call is followed by a wait of 5 seconds, the
    last one included: a loop whose [remaining] calls all fail waits
    [remaining] times before it gives up, and a loop whose call [k] is the
    first to complete has waited [k] times. *)
Theorem upscale_loop_waits (w : BatchWorld) (cmd : list arg) (batch_index : nat)
    (remaining : nat) (attempt : Z) :
  ((∀ j, (j < remaining)%nat → failed (bw_esrgan w (attempt + Z.of_nat j))) →
     sleeps (trace (upscale_loop remaining w cmd batch_index attempt))
     = replicate remaining 5%Q)
  ∧ (∀ k, (k < remaining)%nat →
       (∀ j, (j < k)%nat → failed (bw_esrgan w (attempt + Z.of_nat j))) →
       bw_esrgan w (attempt + Z.of_nat k) = Completed →
       sleeps (trace (upscale_loop remaining w cmd batch_index attempt))
       = replicate k 5%Q).
Proof.
  split.
  - revert attempt. induction remaining as [|r IH]; intros attempt Hfail; [done|].
    assert (H0 : failed (bw_esrgan w attempt)).
    { specialize (Hfail 0%nat). rewrite Z.add_0_r in Hfail. apply Hfail. lia. }
    destruct (upscale_loop_failed w cmd batch_index r attempt H0) as [m ->].
    unfold trace at 1. cbn [fst]. rewrite sleeps_app. cbn [replicate].
    rewrite IH; [done|]. intros j Hj. specialize (Hfail (S j)).
    replace (attempt + 1 + Z.of_nat j) with (attempt + Z.of_nat (S j)) by lia.
    apply Hfail. lia.
  - intros k. revert remaining attempt.
    induction k as [|k IH]; intros remaining attempt Hk Hfail Hok.
    + destruct remaining as [|r]; [lia|]. rewrite Z.add_0_r in Hok.
      by rewrite upscale_loop_completed.
    + destruct remaining as [|r]; [lia|].
      assert (H0 : failed (bw_esrgan w attempt)).
      { specialize (Hfail 0%nat). rewrite Z.add_0_r in Hfail. apply Hfail. lia. }
      destruct (upscale_loop_failed w cmd batch_index r attempt H0) as [m ->].
      unfold trace at 1. cbn [fst]. rewrite sleeps_app. cbn [replicate].
      rewrite (IH r (attempt + 1)); [done|lia| |].
      * intros j Hj. specialize (Hfail (S j)).
        replace (attempt + 1 + Z.of_nat j) with (attempt + Z.of_nat (S j)) by lia.
        apply Hfail. lia.
      * replace (attempt + 1 + Z.of_nat k) with (attempt + Z.of_nat (S k)) by lia.
        exact Hok.
Qed.

Lemma upscale_loop_waits_witness :
  let cmd := cmd_esrgan default_config "/app" "/tmp/e" "/tmp/p" in
  (2 < 3)%nat
  ∧ (∀ j, (j < 2)%nat → failed (bw_esrgan three_frames (0 + Z.of_nat j)))
  ∧ bw_esrgan three_frames (0 + Z.of_nat 2) = Completed
  ∧ sleeps (trace (upscale_loop 3 three_frames cmd 0 0)) = [5%Q; 5%Q].
Proof.
  intros cmd.
  assert (Hk : (2 < 3)%nat) by lia.
  assert (Hfail : ∀ j, (j < 2)%nat → failed (bw_esrgan three_frames (0 + Z.of_nat j))).
  { intros j Hj. right. destruct j as [|[|j]]; [reflexivity|reflexivity|lia]. }
  assert (Hok : bw_esrgan three_frames (0 + Z.of_nat 2) = Completed) by reflexivity.
  split; [exact Hk|]. split; [exact Hfail|]. split; [exact Hok|].
  exact (proj2 (upscale_loop_waits three_frames cmd 0 3 0) 2%nat Hk Hfail Hok).
Defined.

(** X4. An engine call that cannot be started is not retried: the
    exception is none of the two the loop handles. The batch then raises
    after one engine call, with the polling thread started and never
    joined, and without deleting its working directories. *)
Theorem process_batch_engine_not_started (cfg : Config) (temp_dir : string)
    (w : BatchWorld) (video_file : string) (batch_index : nat) (start_time duration : Q)
    (output_fps : Z) (script_dir : string) :
  let batch_id := batch_id_of w video_file batch_index in
  let extraction_dir := path_join temp_dir (batch_id +:+ "_extraction") in
  let processed_dir := path_join temp_dir (batch_id +:+ "_processed") in
  let count := length (glob_frames extraction_dir (bw_extracted w)) in
  let engine := cmd_esrgan cfg script_dir extraction_dir processed_dir in
  let run := process_batch cfg temp_dir w video_file batch_index start_time duration
               output_fps script_dir in
  (2 <= count)%nat →
  bw_extract w = Completed ∨ bw_extract w = NonZeroExit →
  bw_esrgan w 0 = SpawnFailed →
  result run = Raise OtherException
  ∧ trace run
    = extraction_events video_file batch_index start_time duration output_fps
        extraction_dir processed_dir (bw_extract w)
      ++ [EThreadStart PollThread; ERun engine SpawnFailed]
  ∧ calls engine (trace run) = 1%nat
  ∧ (EThreadJoin PollThread ∉ trace run)
  ∧ (∀ d, ERmTree d ∉ trace run).
Proof.
  intros batch_id extraction_dir processed_dir count engine run Hcount Hext Hspawn.
  assert (Erun := process_batch_enough cfg temp_dir w video_file batch_index start_time
                    duration output_fps script_dir Hext Hcount).
  cbv zeta in Erun. fold batch_id extraction_dir processed_dir count in Erun.
  rewrite processing_phase_spec in Erun. cbv zeta in Erun. fold engine in Erun.
  rewrite (upscale_loop_spawn_failed w engine batch_index 2 0 Hspawn) in Erun.
  unfold result at 1 2 in Erun. cbn [snd fst] in Erun. unfold trace in Erun.
  cbn [fst snd] in Erun.
  assert (Et : trace run
    = extraction_events video_file batch_index start_time duration output_fps
        extraction_dir processed_dir (bw_extract w)
      ++ [EThreadStart PollThread; ERun engine SpawnFailed]).
  { subst run. by rewrite Erun. }
  split; [subst run; by rewrite Erun|]. split; [exact Et|].
  split.
  { rewrite Et, calls_app. unfold engine at 1.
    rewrite calls_extraction_events. fold engine.
    unfold calls. cbn. by rewrite decide_True. }
  rewrite Et. unfold extraction_events.
  split; [|intros d]; destruct (decide (bw_extract w = NonZeroExit)); cbn [app];
    rewrite !elem_of_cons, elem_of_nil; intros H;
    repeat (destruct H as [H|H]; [discriminate H|]); exact H.
Qed.

Lemma process_batch_engine_not_started_witness :
  let w := with_esrgan three_frames (λ _, SpawnFailed) in
  (2 <= length (glob_frames "/tmp/in_batch_0_1700000000_extraction" (bw_extracted w)))%nat
  ∧ (bw_extract w = Completed ∨ bw_extract w = NonZeroExit)
  ∧ bw_esrgan w 0 = SpawnFailed
  ∧ result (process_batch default_config "/tmp" w "/videos/in.mp4" 0 0 20 30 "/app")
    = Raise OtherException.
Proof.
  intros w.
  assert (Hc : (2 <= length (glob_frames "/tmp/in_batch_0_1700000000_extraction"
                              (bw_extracted w)))%nat) by (vm_compute; lia).
  assert (He : bw_extract w = Completed ∨ bw_extract w = NonZeroExit) by (left; reflexivity).
  assert (Hs : bw_esrgan w 0 = SpawnFailed) by reflexivity.
  split; [exact Hc|]. split; [exact He|]. split; [exact Hs|].
  exact (proj1 (process_batch_engine_not_started default_config "/tmp" w "/videos/in.mp4"
                  0 0 20 30 "/app" Hc He Hs)).
Defined.

(** ** Reassembly when the concatenation fails *)

(** X5. A frame concatenation that exits with an error is only printed:
    both reassembly paths then delete the edit-list and their directories
    as after a success, and return the path of the segment all the same. *)
Theorem reassembly_concat_error (cfg : Config) (temp_dir : string) (w : BatchWorld)
    (batch_index : nat) (duration : Q) (output_fps : Z)
    (batch_id extraction_dir processed_dir reassembly_dir : string) (count : nat) :
  let concat_list_path := path_join temp_dir (batch_id +:+ "_frames.txt") in
  let segment_output := path_join temp_dir (batch_id +:+ "_segment.mp4") in
  let standard := standard_reassembly cfg temp_dir w batch_index duration output_fps
                    batch_id extraction_dir processed_dir count in
  let decoupled := do_reassembly cfg temp_dir w batch_index duration output_fps
                     batch_id reassembly_dir in
  bw_concat w = NonZeroExit →
  (sorted (glob_frames processed_dir (bw_processed w)) ≠ [] →
     result standard = Val (OPath segment_output)
     ∧ ∃ before cmd,
         trace standard
         = before ++ [ERun cmd NonZeroExit; EPrint (MsgReassemblyError batch_index);
                      ERemove concat_list_path; ERmTree extraction_dir;
                      ERmTree processed_dir])
  ∧ (sorted (glob_frames reassembly_dir (bw_processed w)) ≠ [] →
       result decoupled = Val (Some segment_output)
       ∧ ∃ before cmd,
           trace decoupled
           = before ++ [ERun cmd NonZeroExit; EPrint (MsgReassemblyError batch_index);
                        ERemove concat_list_path; ERmTree reassembly_dir]).
Proof.
  intros concat_list_path segment_output standard decoupled Hc. split.
  - intros Hne. subst standard. rewrite standard_reassembly_frames by exact Hne.
    rewrite Hc. split; [done|]. unfold trace, after_concat. cbn [fst map].
    match goal with |- ∃ before cmd, ?pe ++ ?o :: ?ws ++ ERun ?c _ :: _ = _ =>
      exists (pe ++ o :: ws), c end.
    rewrite <- app_assoc. reflexivity.
  - intros Hne. subst decoupled. rewrite do_reassembly_frames by exact Hne.
    rewrite Hc. split; [done|]. unfold trace, after_concat. cbn [fst map].
    match goal with |- ∃ before cmd, ?pe ++ ?o :: ?ws ++ ERun ?c _ :: _ = _ =>
      exists (pe ++ o :: ws), c end.
    rewrite <- app_assoc. reflexivity.
Qed.

Lemma reassembly_concat_error_witness :
  let w := {| bw_now := 1700000000; bw_extract := Completed;
              bw_extracted := ["frame_000001.png"; "frame_000002.png"];
              bw_placeholder := Completed; bw_esrgan := λ _, Completed; bw_polled := [2];
              bw_processed := ["frame_000001.png"; "frame_000002.png"];
              bw_concat := NonZeroExit |} in
  bw_concat w = NonZeroExit
  ∧ sorted (glob_frames "/tmp/b_processed" (bw_processed w)) ≠ []
  ∧ result (standard_reassembly default_config "/tmp" w 0 20 30 "b" "/tmp/b_extraction"
              "/tmp/b_processed" 2)
    = Val (OPath "/tmp/b_segment.mp4").
Proof.
  intros w. assert (Hc : bw_concat w = NonZeroExit) by reflexivity.
  assert (Hne : sorted (glob_frames "/tmp/b_processed" (bw_processed w)) ≠ [])
    by (vm_compute; discriminate).
  split; [exact Hc|]. split; [exact Hne|].
  exact (proj1 (proj1 (reassembly_concat_error default_config "/tmp" w 0 20 30 "b"
                         "/tmp/b_extraction" "/tmp/b_processed" "/tmp/b_r" 2 Hc) Hne)).
Defined.

(** ** Resolution of the deferred segments *)

(** X6. Resolving the segment table joins one reassembly thread per
    deferred slot and nothing else; the table keeps its length, a path
    stays a path and [None] stays [None]. *)
Theorem resolve_deferred_table (segment_files : list outcome) :
  ∃ table,
    result (resolve_deferred segment_files) = Val table
    ∧ length table = length segment_files
    ∧ trace (resolve_deferred segment_files)
      = replicate (length (filter (λ seg, is_deferred seg = true) segment_files))
          (EThreadJoin ReassemblyThread)
    ∧ (∀ i p, segment_files !! i = Some (OPath p) → table !! i = Some (Some p))
    ∧ (∀ i, segment_files !! i = Some ONone → table !! i = Some None).
Proof.
  exists (map resolved segment_files). rewrite resolve_deferred_spec.
  split; [done|]. split; [by rewrite length_map|]. split.
  - unfold trace. cbn [fst]. induction segment_files as [|seg l IH]; [done|].
    cbn [flat_map]. rewrite IH. destruct seg as [p| |r]; cbn [join_handle app].
    + by rewrite filter_cons_False.
    + by rewrite filter_cons_False.
    + by rewrite filter_cons_True.
  - split; intros i; [intros p|]; intros Hi; by rewrite list_lookup_fmap, Hi.
Qed.

(** ** The segment list *)

(** X7. Each slot of the resolved table gives either one line of the
    segment list or one warning: the lines written and the warnings
    printed add up to the number of batches. *)
Theorem write_segment_list_accounts (path : string) (segment_files : list (option string)) :
  let run := write_segment_list path segment_files in
  result run = Val tt
  ∧ (length (written path (trace run))
     + length (filter (λ m, is_missing_segment m = true) (printed (trace run))))%nat
    = length segment_files.
Proof.
  intros run. subst run. rewrite write_segment_list_spec. split; [done|].
  unfold trace. cbn [fst].
  change (EOpen path :: ?t) with ([EOpen path] ++ t).
  rewrite written_app. unfold printed. rewrite omap_app. cbn [app].
  change (omap _ [EOpen path]) with (@nil message). cbn [app].
  change (written path [EOpen path]) with (@nil concat_line). cbn [app].
  fold (printed (map (segment_line path) segment_files)).
  rewrite missing_segment_lines, written_segment_lines.
  induction segment_files as [|[p|] l IH]; [done| |].
  - cbn [omap list_omap fmap option_fmap option_map length].
    rewrite filter_cons_False by done. cbn [length] in *. lia.
  - cbn [omap list_omap fmap option_fmap option_map length].
    rewrite filter_cons_True by done. cbn [length] in *. lia.
Qed.

(** ** The end of the job *)

Lemma removed_app (t1 t2 : list event) : removed (t1 ++ t2) = removed t1 ++ removed t2.
Proof. apply omap_app. Qed.

Lemma removed_segment_lines (path : string) (segment_files : list (option string)) :
  removed (map (segment_line path) segment_files) = [].
Proof. induction segment_files as [|[p|] l IH]; done. Qed.

Lemma removed_removals (paths : list string) : removed (map ERemove paths) = paths.
Proof. induction paths as [|p l IH]; [done|]. unfold removed in *. cbn. by rewrite IH. Qed.

Lemma remove_segments_trace (segment_files : list (option string)) :
  for_each segment_files (λ seg,
    match seg with
    | Some p => if decide (p ≠ EmptyString) then emit (ERemove p) else mret tt
    | None => mret tt
    end)
  = (map ERemove (filter (λ p, p ≠ EmptyString) (omap id segment_files)), Val tt).
Proof.
  induction segment_files as [|seg l IH]; [done|].
  unfold for_each in *. cbn [foldr]. unfold mbind, M_bind in *. rewrite IH.
  destruct seg as [p|]; [|done]. cbn [omap list_omap id].
  destruct (decide (p ≠ EmptyString)).
  - by rewrite filter_cons_True.
  - by rewrite filter_cons_False.
Qed.

Lemma remove_converted_spec (converted_video video_file : string) :
  (if decide (converted_video ≠ video_file) then emit (ERemove converted_video) else mret tt)
  = ((if decide (converted_video ≠ video_file) then [ERemove converted_video] else []),
     Val tt).
Proof. by destruct (decide _). Qed.

Lemma final_ext_of_spec (cfg : Config) (video_file : string) :
  (if negb (String.eqb (lower (FINAL_FILE_FORMAT_OVERRIDE cfg)) "false")
   then FINAL_FILE_FORMAT_OVERRIDE cfg else (splitext video_file).2)
  = final_ext_of cfg video_file.
Proof. unfold final_ext_of. by destruct (String.eqb _ _). Qed.

(** The run of [assemble] for each way its two commands can end. *)
Lemma assemble_runs (cfg : Config) (temp_dir : string) (w : VideoWorld)
    (video_file script_dir converted_video : string) (segment_files : list (option string)) :
  let base_name := (splitext (basename video_file)).1 in
  let concat_list_file := path_join temp_dir (base_name +:+ "_segments.txt") in
  let video_no_audio := path_join temp_dir (base_name +:+ "_no_audio.mp4") in
  let output_dir := path_join script_dir "output" in
  let output_file := path_join output_dir (base_name +:+ final_ext_of cfg video_file) in
  let concat := cmd_concat_segments concat_list_file video_no_audio in
  let merge := cmd_merge video_no_audio video_file output_file in
  let listing :=
    (if decide (converted_video ≠ video_file) then [ERemove converted_video] else [])
    ++ EOpen concat_list_file :: map (segment_line concat_list_file) segment_files in
  assemble cfg temp_dir w video_file script_dir converted_video segment_files
  = match vw_concat w, vw_merge w with
    | Completed, Completed =>
        (listing ++ [ERun concat Completed; EMakeDirs output_dir; ERun merge Completed]
         ++ map ERemove (filter (λ p, p ≠ EmptyString) (omap id segment_files))
         ++ [ERemove concat_list_file; ERemove video_no_audio;
             EPrint (MsgFinished video_file output_file)], Val (Some tt))
    | Completed, NonZeroExit =>
        (listing ++ [ERun concat Completed; EMakeDirs output_dir; ERun merge NonZeroExit;
                     EPrint MsgMergeError], Val None)
    | Completed, TimedOut =>
        (listing ++ [ERun concat Completed; EMakeDirs output_dir; ERun merge TimedOut],
         Raise TimeoutExpired)
    | Completed, SpawnFailed =>
        (listing ++ [ERun concat Completed; EMakeDirs output_dir; ERun merge SpawnFailed],
         Raise OtherException)
    | NonZeroExit, _ =>
        (listing ++ [ERun concat NonZeroExit; EPrint MsgConcatError], Val None)
    | TimedOut, _ => (listing ++ [ERun concat TimedOut], Raise TimeoutExpired)
    | SpawnFailed, _ => (listing ++ [ERun concat SpawnFailed], Raise OtherException)
    end.
Proof.
  intros base_name concat_list_file video_no_audio output_dir output_file concat merge
    listing.
  unfold assemble. fold base_name concat_list_file video_no_audio output_dir.
  rewrite write_segment_list_spec, remove_converted_spec, remove_segments_trace,
    final_ext_of_spec.
  fold output_file concat merge. subst listing.
  generalize (if decide (converted_video ≠ video_file) then [ERemove converted_video]
              else []) as pre.
  generalize (map ERemove (filter (λ p, p ≠ EmptyString) (omap id segment_files))) as dels.
  generalize (map (segment_line concat_list_file) segment_files) as lines.
  clearbody concat merge output_file output_dir video_no_audio concat_list_file.
  intros lines dels pre.
  destruct (vw_concat w), (vw_merge w); cbn; rewrite ?app_nil_r, <- ?app_assoc; reflexivity.
Qed.

Lemma commands_segment_lines (path : string) (segment_files : list (option string)) :
  commands (map (segment_line path) segment_files) = [].
Proof. induction segment_files as [|[p|] l IH]; done. Qed.

Lemma commands_removals (paths : list string) : commands (map ERemove paths) = [].
Proof. by induction paths. Qed.

Lemma commands_listing (converted_video video_file path : string)
    (segment_files : list (option string)) :
  commands ((if decide (converted_video ≠ video_file) then [ERemove converted_video] else [])
            ++ EOpen path :: map (segment_line path) segment_files) = [].
Proof.
  rewrite commands_app. change (EOpen path :: ?t) with ([EOpen path] ++ t).
  rewrite commands_app, commands_segment_lines. by destruct (decide _).
Qed.

Lemma removed_listing (converted_video video_file path : string)
    (segment_files : list (option string)) :
  removed ((if decide (converted_video ≠ video_file) then [ERemove converted_video] else [])
           ++ EOpen path :: map (segment_line path) segment_files)
  = if decide (converted_video ≠ video_file) then [converted_video] else [].
Proof.
  rewrite removed_app. change (EOpen path :: ?t) with ([EOpen path] ++ t).
  rewrite removed_app, removed_segment_lines. by destruct (decide _).
Qed.

(** X8. When the concatenation of the segments and the merge complete,
    the job runs these two commands, the merge taking its audio and
    metadata from the original video and writing to the output directory
    under the base name of the video with the final extension, and then
    removes, in this order, the converted intermediate, every segment of
    the table, the segment list and the audio-less intermediate. *)
Theorem assemble_success (cfg : Config) (temp_dir : string) (w : VideoWorld)
    (video_file script_dir converted_video : string) (segment_files : list (option string)) :
  let base_name := (splitext (basename video_file)).1 in
  let concat_list_file := path_join temp_dir (base_name +:+ "_segments.txt") in
  let video_no_audio := path_join temp_dir (base_name +:+ "_no_audio.mp4") in
  let output_file := path_join (path_join script_dir "output")
                       (base_name +:+ final_ext_of cfg video_file) in
  let run := assemble cfg temp_dir w video_file script_dir converted_video segment_files in
  vw_concat w = Completed →
  vw_merge w = Completed →
  result run = Val (Some tt)
  ∧ commands (trace run)
    = [cmd_concat_segments concat_list_file video_no_audio;
       cmd_merge video_no_audio video_file output_file]
  ∧ removed (trace run)
    = (if decide (converted_video ≠ video_file) then [converted_video] else [])
      ++ filter (λ p, p ≠ EmptyString) (omap id segment_files)
      ++ [concat_list_file; video_no_audio].
Proof.
  intros base_name concat_list_file video_no_audio output_file run Hc Hm.
  subst run. rewrite assemble_runs, Hc, Hm. cbv zeta.
  fold base_name concat_list_file video_no_audio output_file.
  unfold trace, result. cbn [fst snd].
  split; [done|]. split.
  - by rewrite commands_app, commands_listing, !commands_app, commands_removals.
  - rewrite removed_app, removed_listing. f_equal.
    rewrite !removed_app, removed_removals. done.
Qed.

Lemma assemble_success_witness :
  let run := assemble default_config "/tmp" sample_video "/videos/in.avi" "/app"
               "/tmp/in_converted.mp4" [Some "/tmp/a.mp4"; None; Some "/tmp/c.mp4"] in
  vw_concat sample_video = Completed
  ∧ vw_merge sample_video = Completed
  ∧ removed (trace run)
    = ["/tmp/in_converted.mp4"; "/tmp/a.mp4"; "/tmp/c.mp4"; "/tmp/in_segments.txt";
       "/tmp/in_no_audio.mp4"].
Proof.
  intros run. split; [reflexivity|]. split; [reflexivity|].
  destruct (assemble_success default_config "/tmp" sample_video "/videos/in.avi" "/app"
              "/tmp/in_converted.mp4" [Some "/tmp/a.mp4"; None; Some "/tmp/c.mp4"]
              eq_refl eq_refl) as (_ & _ & Hr).
  etransitivity; [exact Hr|]. vm_compute. reflexivity.
Defined.

(** X9. When the concatenation of the segments or the merge exits with an
    error, the job prints the error and returns [None]; since the
    conversion, only the converted intermediate has been removed: the
    segments, the segment list and, after a failed merge, the audio-less
    intermediate are left. *)
Theorem assemble_failure_keeps_files (cfg : Config) (temp_dir : string) (w : VideoWorld)
    (video_file script_dir converted_video : string) (segment_files : list (option string)) :
  let run := assemble cfg temp_dir w video_file script_dir converted_video segment_files in
  vw_concat w = NonZeroExit ∨ (vw_concat w = Completed ∧ vw_merge w = NonZeroExit) →
  result run = Val None
  ∧ removed (trace run)
    = (if decide (converted_video ≠ video_file) then [converted_video] else [])
  ∧ (MsgConcatError ∈ printed (trace run) ∨ MsgMergeError ∈ printed (trace run)).
Proof.
  intros run Hfail. subst run. rewrite assemble_runs. cbv zeta.
  unfold trace, result.
  destruct Hfail as [-> | [-> ->]]; cbn [fst snd];
    (split; [done|]);
    (split; [rewrite removed_app, removed_listing; cbn; by rewrite app_nil_r|]).
  - left. unfold printed. rewrite omap_app. apply elem_of_app. right. cbn. by left.
  - right. unfold printed. rewrite omap_app. apply elem_of_app. right. cbn. by left.
Qed.

Lemma assemble_failure_witness :
  let w := with_concat sample_video NonZeroExit in
  (vw_concat w = NonZeroExit ∨ (vw_concat w = Completed ∧ vw_merge w = NonZeroExit))
  ∧ result (assemble default_config "/tmp" w "/videos/in.mp4" "/app" "/videos/in.mp4"
              [Some "/tmp/a.mp4"]) = Val None.
Proof.
  intros w.
  assert (H : vw_concat w = NonZeroExit ∨ (vw_concat w = Completed ∧ vw_merge w = NonZeroExit))
    by (left; reflexivity).
  split; [exact H|].
  exact (proj1 (assemble_failure_keeps_files default_config "/tmp" w "/videos/in.mp4" "/app"
                  "/videos/in.mp4" [Some "/tmp/a.mp4"] H)).
Defined.

(** ** Probing *)

Lemma probe_duration_cases (pw : ProbeWorld) (video_file duration_str : string) :
  probe_duration pw video_file duration_str
  = if String.eqb duration_str "N/A"
    then ([ProbeRun (cmd_probe_format video_file) (pw_format pw)],
          if is_completed (pw_format pw) then Some (strip_str (pw_format_out pw)) else None)
    else ([], Some duration_str).
Proof. reflexivity. Qed.

Lemma probe_body_no_error (float : string → option Q) (pw : ProbeWorld)
    (video_file : string) :
  Forall (λ e, ∃ argv r, e = ProbeRun argv r) (probe_body float pw video_file).1.
Proof.
  unfold probe_body.
  destruct (is_completed (pw_stream pw)); cbn [negb]; [|repeat econstructor].
  destruct (pw_stream_lines pw) as [|l0 [|l1 rest]]; [repeat econstructor..|].
  rewrite probe_duration_cases.
  destruct (String.eqb _ _), (is_completed (pw_format pw)),
    (parse_ratio float (strip_str l0)), (is_completed (pw_time_base pw));
    cbn [negb fst app];
    repeat match goal with
           | |- context [match ?x with Some _ => _ | None => _ end] => destruct x
           end;
    cbn [fst app]; repeat econstructor.
Qed.

(** X10. [get_video_info] never raises. It prints its error exactly when
    the body of its [try] raised, and it then returns [(24.0, 0.0, 0.001)]:
    a job started on these values skips the video and runs no command; a
    video that cannot be probed is never processed at the fallback rate. *)
Theorem get_video_info_failure_skips (float : string → option Q) (pw : ProbeWorld)
    (cfg : Config) (temp_dir : string) (w : VideoWorld) (video_file script_dir : string) :
  let probe := get_video_info float pw video_file in
  let job := process_video cfg temp_dir w video_file script_dir in
  (ProbeError video_file ∈ probe.1 ↔ (probe_body float pw video_file).2 = None)
  ∧ (ProbeError video_file ∈ probe.1 →
       probe.2 = fallback_info
       ∧ (probed_as probe.2 w → result job = Val None ∧ commands (trace job) = [])).
Proof.
  intros probe job. subst probe job. unfold get_video_info.
  pose proof (probe_body_no_error float pw video_file) as Hquiet.
  destruct (probe_body float pw video_file) as [t [info|]] eqn:E; cbn [fst snd] in *.
  - assert (Hno : ProbeError video_file ∉ t).
    { intros Hin. rewrite Forall_forall in Hquiet.
      destruct (Hquiet _ Hin) as (argv & r & Hr). discriminate Hr. }
    split; [split; [by intros ?|done]|]. by intros ?.
  - assert (Hin : ProbeError video_file ∈ t ++ [ProbeError video_file]).
    { apply elem_of_app. right. by left. }
    split; [by split|]. intros _. split; [done|].
    intros (_ & Hd & _). cbn in Hd.
    assert (Hle : (vw_duration w <= 0)%Q) by (rewrite Hd; lra).
    by rewrite process_video_skipped.
Qed.

Lemma get_video_info_failure_witness :
  let pw := {| pw_stream := NonZeroExit; pw_stream_lines := [];
               pw_format := Completed; pw_format_out := EmptyString;
               pw_time_base := Completed; pw_time_base_out := EmptyString |} in
  let probe := get_video_info float_of_int_literal pw "/videos/in.mp4" in
  ProbeError "/videos/in.mp4" ∈ probe.1 ∧ probe.2 = fallback_info.
Proof.
  intros pw probe.
  destruct (get_video_info_failure_skips float_of_int_literal pw default_config "/tmp"
              sample_video "/videos/in.mp4" "/app") as [Hiff Hfail].
  assert (Hin : ProbeError "/videos/in.mp4" ∈ probe.1) by (apply Hiff; reflexivity).
  split; [exact Hin|]. exact (proj1 (Hfail Hin)).
Defined.

Lemma probes_app (t1 t2 : list probe_event) : probes (t1 ++ t2) = probes t1 ++ probes t2.
Proof. apply omap_app. Qed.

(** X11. [get_video_info] runs at most three probes, in the order
    stream, format, time base, and the first is always run. The format
    probe is run exactly when the stream probe completed with at least two
    lines of which the second is [N/A]; no probe follows one that did not
    complete. *)
Theorem get_video_info_probes (float : string → option Q) (pw : ProbeWorld)
    (video_file : string) :
  let t := (get_video_info float pw video_file).1 in
  let na := match pw_stream_lines pw with
            | _ :: line1 :: _ => String.eqb (strip_str line1) "N/A"
            | _ => false
            end in
  let asked := is_completed (pw_stream pw) && na in
  (∃ tb : bool, probes t
         = cmd_probe_stream video_file
           :: (if asked then [cmd_probe_format video_file] else [])
           ++ (if tb then [cmd_probe_time_base video_file] else []))
  ∧ (pw_stream pw ≠ Completed → probes t = [cmd_probe_stream video_file])
  ∧ (asked = true → pw_format pw ≠ Completed →
       probes t = [cmd_probe_stream video_file; cmd_probe_format video_file]).
Proof.
  intros t na asked. subst t asked na. unfold get_video_info, probe_body.
  destruct (pw_stream pw) eqn:Es; cbn [is_completed negb andb];
    try (split; [by exists false|]; split; [done|]; by intros ?).
  destruct (pw_stream_lines pw) as [|l0 [|l1 rest]];
    try (split; [by exists false|]; split; [done|]; by intros ?).
  rewrite probe_duration_cases.
  destruct (String.eqb (strip_str l1) "N/A") eqn:Ena.
  - destruct (pw_format pw) eqn:Ef; cbn [is_completed];
      try (split; [by exists false|]; split; [done|]; by intros ?).
    destruct (parse_ratio float (strip_str l0));
      [|split; [by exists false|]; split; [done|]; by intros ? ?].
    destruct (float (strip_str (pw_format_out pw)));
      [|split; [by exists false|]; split; [done|]; by intros ? ?].
    destruct (is_completed (pw_time_base pw)); cbn [negb];
      [|split; [by exists true|]; split; [done|]; by intros ? ?].
    destruct (parse_ratio float (strip_str (pw_time_base_out pw)));
      (split; [by exists true|]; split; [done|]; by intros ? ?).
  - destruct (parse_ratio float (strip_str l0));
      [|split; [by exists false|]; split; [done|]; by intros ?].
    destruct (float (strip_str l1));
      [|split; [by exists false|]; split; [done|]; by intros ?].
    destruct (is_completed (pw_time_base pw)); cbn [negb];
      [|split; [by exists true|]; split; [done|]; by intros ?].
    destruct (parse_ratio float (strip_str (pw_time_base_out pw)));
      (split; [by exists true|]; split; [done|]; by intros ?).
Qed.

Lemma parse_ratio_zero_denominator (float : string → option Q) (s num den : string) (d : Q) :
  has_char slash s = true → split "/" s = [num; den] → float den = Some d → (d == 0)%Q →
  parse_ratio float s = None.
Proof.
  intros Hs Hsplit Hden Hd. unfold parse_ratio. rewrite Hs, Hsplit, Hden.
  destruct (float num) as [n|]; [|done]. cbn.
  apply Qeq_bool_iff in Hd. by rewrite Hd.
Qed.

(** X12. A frame rate printed as [num/den] with a denominator that reads
    as zero (the [0/0] of a stream without an average rate) makes the
    division raise: the function prints its error, returns the fallback
    values and never probes the time base. *)
Theorem get_video_info_zero_denominator (float : string → option Q) (pw : ProbeWorld)
    (video_file line0 line1 num den : string) (rest : list string) (d : Q) :
  pw_stream pw = Completed →
  pw_stream_lines pw = line0 :: line1 :: rest →
  has_char slash (strip_str line0) = true →
  split "/" (strip_str line0) = [num; den] →
  float den = Some d →
  (d == 0)%Q →
  let probe := get_video_info float pw video_file in
  probe.2 = fallback_info
  ∧ ProbeError video_file ∈ probe.1
  ∧ cmd_probe_time_base video_file ∉ probes probe.1.
Proof.
  intros Hs Hlines Hslash Hsplit Hden Hd probe. subst probe.
  pose proof (parse_ratio_zero_denominator float _ num den d Hslash Hsplit Hden Hd) as Hr.
  unfold get_video_info, probe_body. rewrite Hs, Hlines. cbn [is_completed negb].
  rewrite probe_duration_cases, Hr.
  destruct (String.eqb (strip_str line1) "N/A"), (is_completed (pw_format pw));
    cbn [fst snd app]; (split; [done|]);
    (split; [repeat first [apply list_elem_of_here | apply list_elem_of_further]|]);
    cbn; rewrite ?elem_of_cons, elem_of_nil; intros H;
    repeat (destruct H as [H|H]; [discriminate H|]); exact H.
Qed.

Lemma get_video_info_zero_denominator_witness :
  let pw := {| pw_stream := Completed; pw_stream_lines := ["0/0"; "12"];
               pw_format := Completed; pw_format_out := "12";
               pw_time_base := Completed; pw_time_base_out := "1/1000" |} in
  pw_stream pw = Completed
  ∧ split "/" (strip_str "0/0") = ["0"; "0"]
  ∧ float_of_int_literal "0" = Some 0%Q
  ∧ (get_video_info float_of_int_literal pw "/videos/in.mp4").2 = fallback_info.
Proof.
  intros pw.
  assert (H1 : pw_stream pw = Completed) by reflexivity.
  assert (H2 : pw_stream_lines pw = ["0/0"; "12"]) by reflexivity.
  assert (H3 : has_char slash (strip_str "0/0") = true) by reflexivity.
  assert (H4 : split "/" (strip_str "0/0") = ["0"; "0"]) by reflexivity.
  assert (H5 : float_of_int_literal "0" = Some 0%Q) by reflexivity.
  assert (H6 : (0 == 0)%Q) by reflexivity.
  split; [exact H1|]. split; [exact H4|]. split; [exact H5|].
  exact (proj1 (get_video_info_zero_denominator float_of_int_literal pw "/videos/in.mp4"
                  "0/0" "12" "0" "0" [] 0%Q H1 H2 H3 H4 H5 H6)).
Defined.

(** ** The script *)

Lemma main_loop_no_raise (cfg : Config) (temp_dir script_dir : string) (total : nat)
    (jobs : list Job) :
  ∀ (i : nat) (st : nat * Q),
  Forall (λ job, raises cfg temp_dir script_dir job = false) jobs →
  let done := filter (λ job, finished cfg temp_dir script_dir job = true) jobs in
  ∃ t, main_loop cfg temp_dir script_dir total i jobs st
       = (t, Val ((st.1 + length done)%nat, add_elapsed st.2 done))
     ∧ attempted t = imap (λ n job, ((i + n)%nat, job_video job)) jobs
     ∧ global_progress t = seq (S st.1) (length done)
     ∧ Forall (λ e, is_summary e = false) t.
Proof.
  induction jobs as [|job rest IH]; intros i [k s] Hok; cbn [fst snd].
  - exists []. cbn. rewrite Nat.add_0_r. done.
  - apply Forall_cons in Hok as [Hjob Hrest]. cbn [main_loop].
    unfold raises in Hjob.
    destruct (elapsed_of cfg temp_dir script_dir job) as [[elapsed|]|e] eqn:E; [| |done].
    + rewrite filter_cons_True by (unfold finished; by rewrite E).
      destruct (IH (S i) (S k, (s + job_elapsed job)%Q) Hrest) as (t & Et & Ha & Hp & Hs).
      cbn [fst snd] in *.
      assert (elapsed = job_elapsed job) as ->.
      { unfold elapsed_of in E. destruct (result _) as [[?|]|?]; congruence. }
      rewrite Et. eexists. split; [|split; [|split]].
      * cbn [length]. unfold add_elapsed. cbn [foldl].
        match goal with |- (_, Val (?a, _)) = (_, Val (?b, _)) =>
          replace b with a by lia end. reflexivity.
      * unfold attempted in *. cbn [omap list_omap imap]. rewrite Ha.
        rewrite Nat.add_0_r. f_equal. apply imap_ext. intros; cbn; f_equal; lia.
      * unfold global_progress in *. cbn [omap list_omap length seq]. by rewrite Hp.
      * by repeat constructor.
    + rewrite filter_cons_False by (unfold finished; by rewrite E).
      destruct (IH (S i) (k, s) Hrest) as (t & Et & Ha & Hp & Hs). cbn [fst snd] in *.
      rewrite Et. eexists. split; [reflexivity|]. split; [|split].
      * unfold attempted in *. cbn [omap list_omap imap]. rewrite Ha.
        rewrite Nat.add_0_r. f_equal. apply imap_ext. intros; cbn; f_equal; lia.
      * exact Hp.
      * by constructor.
Qed.

(** X13. When no job raises, [main] starts the job of every video found,
    in the order of the walk and numbered from 1; it prints one progress
    line per job that returned its elapsed time, with the counts 1, 2, ...
    up to the number [k] of such jobs, which is at most the number of
    videos; and it ends with the total of their elapsed times when
    [k > 0], and with [No videos were processed] otherwise. *)
Theorem main_counts_processed_videos (cfg : Config) (temp_dir script_dir : string)
    (jobs : list Job) :
  jobs ≠ [] →
  Forall (λ job, raises cfg temp_dir script_dir job = false) jobs →
  let run := main cfg temp_dir script_dir jobs in
  let done := filter (λ job, finished cfg temp_dir script_dir job = true) jobs in
  run.2 = Val tt
  ∧ attempted run.1 = imap (λ n job, (S n, job_video job)) jobs
  ∧ global_progress run.1 = seq 1 (length done)
  ∧ (length done <= length jobs)%nat
  ∧ last run.1 = Some (if decide (0 < length done)%nat then MainTotal (add_elapsed 0 done)
                       else MainNoneProcessed)
  ∧ length (filter (λ e, is_summary e = true) run.1) = 1%nat.
Proof.
  intros Hne Hok run done. subst run. unfold main.
  rewrite decide_False by (by destruct jobs).
  destruct (main_loop_no_raise cfg temp_dir script_dir (length jobs) jobs 1 (0%nat, 0%Q) Hok)
    as (t & Et & Ha & Hp & Hs).
  cbn [fst snd] in Et, Hp. fold done in Et, Hp. rewrite Et. cbn [fst snd].
  split; [done|]. split.
  { unfold attempted in *. cbn [omap list_omap]. rewrite omap_app, Ha.
    destruct (decide _); cbn; by rewrite app_nil_r. }
  split.
  { unfold global_progress in *. cbn [omap list_omap]. rewrite omap_app, Hp.
    destruct (decide _); cbn; by rewrite app_nil_r. }
  split; [apply length_filter|]. split.
  { change (MainStarted :: ?l) with ([MainStarted] ++ l).
    by rewrite app_assoc, last_snoc. }
  rewrite filter_cons_False by done. rewrite filter_app.
  assert (Ht : filter (λ e, is_summary e = true) t = []).
  { clear -Hs. induction Hs as [|e l He _ IH]; [done|].
    rewrite filter_cons_False; [exact IH|]. by rewrite He. }
  rewrite Ht. by destruct (decide _).
Qed.

Lemma main_counts_witness :
  let jobs := [processed_job; skipped_job] in
  let run := main default_config "/tmp" "/app" jobs in
  jobs ≠ []
  ∧ Forall (λ job, raises default_config "/tmp" "/app" job = false) jobs
  ∧ attempted run.1 = [(1%nat, "/app/input/a.mp4"); (2%nat, "/app/input/b.mp4")]
  ∧ global_progress run.1 = [1%nat].
Proof.
  intros jobs run.
  assert (Hne : jobs ≠ []) by discriminate.
  assert (Hok : Forall (λ job, raises default_config "/tmp" "/app" job = false) jobs).
  { repeat constructor; vm_compute; reflexivity. }
  split; [exact Hne|]. split; [exact Hok|].
  destruct (main_counts_processed_videos default_config "/tmp" "/app" jobs Hne Hok)
    as (_ & Ha & Hp & _).
  split.
  - etransitivity; [exact Ha|]. reflexivity.
  - etransitivity; [exact Hp|]. vm_compute. reflexivity.
Defined.

(** X14. [main] calls [process_video] outside any [try]: the first job
    that raises ends the script with its exception. The videos found after
    it are never started, and no summary line is printed. *)
Theorem main_stops_at_first_exception (cfg : Config) (temp_dir script_dir : string)
    (before after : list Job) (job : Job) (e : exn) :
  Forall (λ job, raises cfg temp_dir script_dir job = false) before →
  elapsed_of cfg temp_dir script_dir job = Raise e →
  let run := main cfg temp_dir script_dir (before ++ job :: after) in
  run.2 = Raise e
  ∧ attempted run.1 = imap (λ n job, (S n, job_video job)) (before ++ [job])
  ∧ (∀ video, video ∈ map job_video after → video ∉ map job_video (before ++ [job]) →
       ∀ i, (i, video) ∉ attempted run.1)
  ∧ filter (λ e, is_summary e = true) run.1 = [].
Proof.
  intros Hok Hraise run.
  assert (Hloop : ∀ i st, ∃ t,
    main_loop cfg temp_dir script_dir (length (before ++ job :: after)) i
      (before ++ job :: after) st = (t, Raise e)
    ∧ attempted t = imap (λ n job, ((i + n)%nat, job_video job)) (before ++ [job])
    ∧ Forall (λ e, is_summary e = false) t).
  { generalize (length (before ++ job :: after)) as total. intros total.
    induction Hok as [|j l Hj _ IH]; intros i st.
    - cbn [app main_loop]. rewrite Hraise. eexists. split; [reflexivity|].
      split; [cbn; by rewrite Nat.add_0_r|by repeat constructor].
    - cbn [app main_loop]. unfold raises in Hj.
      destruct (elapsed_of cfg temp_dir script_dir j) as [[elapsed|]|e'] eqn:E; [| |done].
      + destruct (IH (S i) (S st.1, (st.2 + elapsed)%Q)) as (t & Et & Ha & Hs).
        rewrite Et. eexists. split; [reflexivity|]. split; [|by repeat constructor].
        unfold attempted in *. cbn [omap list_omap imap]. rewrite Ha, Nat.add_0_r.
        f_equal. apply imap_ext. intros; cbn; f_equal; lia.
      + destruct (IH (S i) st) as (t & Et & Ha & Hs).
        rewrite Et. eexists. split; [reflexivity|]. split; [|by constructor].
        unfold attempted in *. cbn [omap list_omap imap]. rewrite Ha, Nat.add_0_r.
        f_equal. apply imap_ext. intros; cbn; f_equal; lia. }
  destruct (Hloop 1%nat (0%nat, 0%Q)) as (t & Et & Ha & Hs).
  subst run. unfold main. rewrite decide_False by (rewrite length_app; cbn; lia).
  rewrite Et. cbn [fst snd].
  assert (Hatt : attempted (MainStarted :: t)
                 = imap (λ n job, (S n, job_video job)) (before ++ [job])) by exact Ha.
  split; [done|]. split; [exact Hatt|]. split.
  - intros video _ Hnot i Hin. rewrite Hatt in Hin. apply Hnot.
    apply list_elem_of_lookup in Hin as [n Hn]. rewrite list_lookup_imap in Hn.
    destruct ((before ++ [job]) !! n) as [j|] eqn:Ej; [|done].
    cbn in Hn. injection Hn as _ <-.
    apply list_elem_of_fmap. exists j. split; [done|]. by eapply list_elem_of_lookup_2.
  - rewrite filter_cons_False by done.
    clear -Hs. induction Hs as [|x l Hx _ IH]; [done|].
    rewrite filter_cons_False; [exact IH|]. by rewrite Hx.
Qed.

Lemma main_stops_witness :
  let run := main default_config "/tmp" "/app" [processed_job; failing_job; skipped_job] in
  Forall (λ job, raises default_config "/tmp" "/app" job = false) [processed_job]
  ∧ elapsed_of default_config "/tmp" "/app" failing_job = Raise CalledProcessError
  ∧ run.2 = Raise CalledProcessError
  ∧ attempted run.1 = [(1%nat, "/app/input/a.mp4"); (2%nat, "/app/input/c.avi")].
Proof.
  intros run.
  assert (Hok : Forall (λ job, raises default_config "/tmp" "/app" job = false)
                  [processed_job]) by (repeat constructor; vm_compute; reflexivity).
  assert (He : elapsed_of default_config "/tmp" "/app" failing_job = Raise CalledProcessError)
    by (vm_compute; reflexivity).
  split; [exact Hok|]. split; [exact He|].
  destruct (main_stops_at_first_exception default_config "/tmp" "/app" [processed_job]
              [skipped_job] failing_job CalledProcessError Hok He) as (Hr & Ha & _).
  split; [exact Hr|]. etransitivity; [exact Ha|]. reflexivity.
Defined.

(** ** The length of a reassembled segment *)





(** ** What a batch reports as progress *)








(** ** The integer test on the frame rate *)

Lemma py_round_unique (x : Q) (n : Z) :
  (Qabs (x - inject_Z n) < 1 # 2)%Q → py_round x = n.
Proof.
  intros H. apply Qabs_Qlt_condition in H as [Hlo Hhi].
  pose proof (Qfloor_le x) as Hf. pose proof (Qlt_floor x) as Hc.
  rewrite inject_Z_plus in Hc. change (inject_Z 1) with 1%Q in Hc.
  unfold py_round. set (f := Qfloor x) in *.
  assert (Hle : f <= n).
  { destruct (Z_le_gt_dec f n) as [|Hgt]; [done|]. exfalso.
    assert (Hq : (inject_Z (n + 1) <= inject_Z f)%Q) by (rewrite <- Zle_Qle; lia).
    rewrite inject_Z_plus in Hq. change (inject_Z 1) with 1%Q in Hq. lra. }
  assert (Hge : n - 1 <= f).
  { destruct (Z_le_gt_dec (n - 1) f) as [|Hgt]; [done|]. exfalso.
    assert (Hq : (inject_Z (f + 2) <= inject_Z n)%Q) by (rewrite <- Zle_Qle; lia).
    rewrite inject_Z_plus in Hq. change (inject_Z 2) with 2%Q in Hq. lra. }
  destruct (decide (f = n)) as [E|E].
  - rewrite E in *.
    destruct (Qcompare (x - inject_Z n) (1 # 2)) eqn:C; [|done|].
    + apply Qeq_alt in C. lra.
    + apply Qgt_alt in C. lra.
  - assert (E' : f = n - 1) by lia. rewrite E' in *.
    assert (Hgt : (1 # 2 < x - inject_Z (n - 1))%Q).
    { assert (Hq : (inject_Z (n - 1) == inject_Z n - 1)%Q).
      { unfold Z.sub. rewrite inject_Z_plus. reflexivity. }
      lra. }
    destruct (Qcompare (x - inject_Z (n - 1)) (1 # 2)) eqn:C; [| |lia].
    + apply Qeq_alt in C. lra.
    + apply Qlt_alt in C. lra.
Qed.

(** X17. [is_integer_fps] answers whether the rate is within the tolerance
    of some integer: it is true exactly when an integer [n] with
    [|fps - n| < 1e-6] exists, and this integer is then [round(fps)], the
    rate the pipeline runs at. *)
Theorem is_integer_fps_iff_near_integer (fps : Q) :
  (is_integer_fps fps = true ↔ ∃ n : Z, (Qabs (fps - inject_Z n) < 1 # 1000000)%Q)
  ∧ (∀ n : Z, (Qabs (fps - inject_Z n) < 1 # 1000000)%Q → py_round fps = n).
Proof.
  assert (Hnear : ∀ n : Z, (Qabs (fps - inject_Z n) < 1 # 1000000)%Q → py_round fps = n).
  { intros n Hn. apply py_round_unique. eapply Qlt_trans; [exact Hn|]. reflexivity. }
  split; [|exact Hnear]. split.
  - intros H. exists (py_round fps). by apply is_integer_fps_spec.
  - intros [n Hn]. apply is_integer_fps_spec. unfold tol.
    by rewrite (Hnear n Hn).
Qed.

(** ** Quoting of paths *)

Lemma str_chars (s : string) : str (chars s) = s.
Proof. apply string_of_list_ascii_of_string. Qed.

Lemma chars_str (l : list ascii) : chars (str l) = l.
Proof. apply list_ascii_of_string_of_list_ascii. Qed.

(** X18. In the lines of the two list files a path is written with every
    backslash doubled and every other character kept: the quoted path has
    one more character per backslash, and a path without backslash is
    written as it is. *)
Theorem escape_backslashes_spec (s : string) :
  length (chars (escape_backslashes s))
  = (length (chars s) + length (filter (λ c, c = backslash) (chars s)))%nat
  ∧ (has_char backslash s = false → escape_backslashes s = s)
  ∧ filter (λ c, c ≠ backslash) (chars (escape_backslashes s))
    = filter (λ c, c ≠ backslash) (chars s).
Proof.
  unfold escape_backslashes. rewrite chars_str.
  assert (Hchar : ∀ c, Ascii.eqb c backslash = true ↔ c = backslash)
    by (intros c; apply Ascii.eqb_eq).
  split; [|split].
  - induction (chars s) as [|c l IH]; [done|]. cbn [flat_map].
    rewrite length_app, IH. destruct (Ascii.eqb c backslash) eqn:E.
    + apply Hchar in E. rewrite filter_cons_True by done. cbn [length]. lia.
    + rewrite filter_cons_False; [cbn [length]; lia|].
      intros Hc. apply Hchar in Hc. congruence.
  - intros Hno. rewrite <- (str_chars s) at 2. f_equal.
    rewrite <- (str_chars s) in Hno. revert Hno.
    induction (chars s) as [|c l IH]; [done|]. cbn [str string_of_list_ascii has_char flat_map].
    rewrite Ascii.eqb_sym. destruct (Ascii.eqb c backslash); [done|].
    cbn [orb app]. intros Hno. f_equal. by apply IH.
  - induction (chars s) as [|c l IH]; [done|]. cbn [flat_map].
    rewrite filter_app, IH. destruct (Ascii.eqb c backslash) eqn:E.
    + apply Hchar in E. subst c. rewrite !filter_cons_False by (by intros H; apply H).
      by rewrite filter_nil.
    + assert (c ≠ backslash) by (intros Hc; apply Hchar in Hc; congruence).
      by rewrite !filter_cons_True.
Qed.

(** ** The progress line *)

Lemma py_round_positive (x : Q) : (1 # 2 < x)%Q → 1 <= py_round x.
Proof.
  intros Hx. pose proof (py_round_nearest x) as Hn.
  apply Qabs_Qle_condition in Hn as [_ Hhi].
  assert (Hpos : (0 < inject_Z (py_round x))%Q) by lra.
  change 0%Q with (inject_Z 0) in Hpos. rewrite <- Zlt_Qlt in Hpos. lia.
Qed.

(** X19. The percentage of the progress line divides by the total number
    of frames, [ceil(duration * round(fps))]. For a job that is not
    skipped this total is at least 1 when the rate is above 1/2, and the
    percentage of a count between 0 and the total is between 0 and 100;
    when the rate is below 1/2 it rounds to 0, the total is 0 and the
    division raises. *)
Theorem progress_percentage (duration fps : Q) (current : Z) :
  (0 < duration)%Q →
  let total := total_frames duration (py_round fps) in
  ((1 # 2 < fps)%Q →
     1 <= total
     ∧ ∃ p, percentage current total = Some p
            ∧ (0 <= current <= total → (0 <= p <= 100)%Q))
  ∧ ((0 <= fps < 1 # 2)%Q → total = 0 ∧ percentage current total = None).
Proof.
  intros Hd total. split.
  - intros Hfps. pose proof (py_round_positive fps Hfps) as Hr.
    assert (Htotal : 1 <= total).
    { subst total. unfold total_frames.
      assert (Hq : (0 < duration * inject_Z (py_round fps))%Q).
      { apply Qmult_lt_0_compat; [exact Hd|].
        change 0%Q with (inject_Z 0). rewrite <- Zlt_Qlt. lia. }
      pose proof (Qle_ceiling (duration * inject_Z (py_round fps))) as Hc.
      assert (Hpos : (inject_Z 0 < inject_Z (Qceiling (duration * inject_Z (py_round fps))))%Q).
      { change (inject_Z 0) with 0%Q. lra. }
      rewrite <- Zlt_Qlt in Hpos. lia. }
    split; [exact Htotal|]. unfold percentage.
    destruct (total =? 0) eqn:E; [apply Z.eqb_eq in E; lia|].
    eexists. split; [reflexivity|]. intros [Hlo Hhi].
    assert (Ht : (0 < inject_Z total)%Q).
    { change 0%Q with (inject_Z 0). rewrite <- Zlt_Qlt. lia. }
    assert (Hc0 : (0 <= inject_Z current)%Q).
    { change 0%Q with (inject_Z 0). by rewrite <- Zle_Qle. }
    assert (Hc1 : (inject_Z current <= inject_Z total)%Q) by (by rewrite <- Zle_Qle).
    assert (Hratio : (0 <= inject_Z current / inject_Z total <= 1)%Q).
    { split.
      - apply Qle_shift_div_l; [exact Ht|]. lra.
      - apply Qle_shift_div_r; [exact Ht|]. lra. }
    lra.
  - intros [Hlo Hhi].
    assert (Hr : py_round fps = 0).
    { apply py_round_unique. apply Qabs_Qlt_condition. change (inject_Z 0) with 0%Q.
      split; lra. }
    assert (Htotal : total = 0).
    { subst total. unfold total_frames. rewrite Hr. change (inject_Z 0) with 0%Q.
      assert (Hz : (duration * 0 == inject_Z 0)%Q) by (change (inject_Z 0) with 0%Q; ring).
      rewrite (Qceiling_comp _ _ Hz). apply Qceiling_Z. }
    split; [exact Htotal|]. by rewrite Htotal.
Qed.

Lemma progress_percentage_witness :
  (0 < 50)%Q
  ∧ (1 # 2 < 2997 # 100)%Q
  ∧ total_frames 50 (py_round (2997 # 100)) = 1500
  ∧ percentage 750 (total_frames 50 (py_round (2997 # 100))) = Some (750 / 1500 * 100)%Q.
Proof.
  assert (Hd : (0 < 50)%Q) by reflexivity.
  assert (Hf : (1 # 2 < 2997 # 100)%Q) by reflexivity.
  split; [exact Hd|]. split; [exact Hf|].
  destruct (proj1 (progress_percentage 50 (2997 # 100) 750 Hd) Hf) as (_ & p & Hp & _).
  split; [vm_compute; reflexivity|].
  rewrite Hp. vm_compute in Hp. injection Hp as <-. vm_compute. reflexivity.
Defined.

(** ** The converted file is not converted again *)

Lemma chars_app (a b : string) : chars (a +:+ b) = chars a ++ chars b.
Proof.
  unfold chars. induction a as [|c a IH]; [done|]. cbn. rewrite <- IH. reflexivity.
Qed.

Lemma has_char_elem (c : ascii) (s : string) : has_char c s = true ↔ c ∈ chars s.
Proof.
  induction s as [|d s IH]; cbn [has_char chars list_ascii_of_string].
  - split; [done|]. by intros ?%elem_of_nil.
  - rewrite orb_true_iff, IH, elem_of_cons. unfold chars.
    split; (intros [H|H]; [left|by right]).
    + by apply Ascii.eqb_eq in H.
    + by apply Ascii.eqb_eq.
Qed.

Lemma has_char_false (c : ascii) (s : string) : has_char c s = false ↔ c ∉ chars s.
Proof.
  rewrite <- has_char_elem. by destruct (has_char c s).
Qed.

Lemma basename_no_slash (s : string) : has_char slash s = false → basename s = s.
Proof.
  destruct s as [|c rest]; [done|]. cbn [has_char basename].
  intros H. apply orb_false_iff in H as [Hc Hrest].
  rewrite Ascii.eqb_sym, Hc, Hrest. done.
Qed.

Lemma basename_slash_free (p : string) : has_char slash (basename p) = false.
Proof.
  induction p as [|c rest IH]; [done|]. cbn [basename].
  destruct (Ascii.eqb c slash) eqn:Ec; [exact IH|].
  destruct (has_char slash rest) eqn:Er; [exact IH|].
  cbn [has_char]. by rewrite Ascii.eqb_sym, Ec, Er.
Qed.

(** What follows the last separator of [a ++ "/" ++ s] is [s]. *)
Lemma basename_after_slash (a s : string) :
  has_char slash s = false → basename (a +:+ String slash s) = s.
Proof.
  intros Hs. induction a as [|c a IH].
  - change (EmptyString +:+ String slash s) with (String slash s).
    cbn [basename]. rewrite Ascii.eqb_refl. by apply basename_no_slash.
  - change (String c a +:+ String slash s) with (String c (a +:+ String slash s)).
    cbn [basename].
    assert (Hin : has_char slash (a +:+ String slash s) = true).
    { apply has_char_elem. rewrite chars_app. apply elem_of_app. right. by left. }
    rewrite Hin. by destruct (Ascii.eqb c slash).
Qed.

Lemma str_app (l1 l2 : list ascii) : str (l1 ++ l2) = str l1 +:+ str l2.
Proof.
  unfold str. induction l1 as [|c l1 IH]; [done|]. cbn. rewrite IH. reflexivity.
Qed.

Lemma append_assoc (a b c : string) : (a +:+ b) +:+ c = a +:+ (b +:+ c).
Proof.
  induction a as [|x a IH]; [reflexivity|].
  change (String x ((a +:+ b) +:+ c) = String x (a +:+ (b +:+ c))). by rewrite IH.
Qed.

Lemma path_join_basename (a b : string) :
  b ≠ EmptyString → has_char slash b = false → basename (path_join a b) = b.
Proof.
  intros Hne Hb. unfold path_join.
  destruct b as [|c b']; [done|]. cbn [chars list_ascii_of_string].
  assert (Hc : Ascii.eqb c slash = false).
  { cbn [has_char] in Hb. apply orb_false_iff in Hb as [Hc _]. by rewrite Ascii.eqb_sym. }
  rewrite Hc. destruct (last (chars a)) as [d|] eqn:El.
  - destruct (Ascii.eqb d slash) eqn:Ed.
    + apply Ascii.eqb_eq in Ed. subst d.
      apply last_Some in El as [l El].
      rewrite <- (str_chars a), El, str_app.
      change (str [slash]) with (String slash EmptyString).
      rewrite append_assoc.
      change (String slash EmptyString +:+ String c b') with (String slash (String c b')).
      by apply basename_after_slash.
    + change (a +:+ "/" +:+ String c b') with (a +:+ String slash (String c b')).
      by apply basename_after_slash.
  - apply last_None in El. rewrite <- (str_chars a), El. cbn.
    by apply basename_no_slash.
Qed.

Lemma rfind_app_Some (c : ascii) (l1 l2 : list ascii) (i : nat) :
  rfind c l2 = Some i → rfind c (l1 ++ l2) = Some (length l1 + i)%nat.
Proof.
  intros H. induction l1 as [|d l1 IH]; [done|]. cbn [app rfind length]. by rewrite IH.
Qed.

Lemma string_length_chars (s : string) : String.length s = length (chars s).
Proof. induction s as [|c s IH]; [done|]. cbn. by rewrite IH. Qed.

(** The extension of a name that ends in [_converted.mp4]. *)
Lemma splitext_converted (p b : string) :
  basename p = b +:+ "_converted.mp4" → (splitext p).2 = ".mp4".
Proof.
  intros Hb. unfold splitext. rewrite Hb, chars_app.
  rewrite (rfind_app_Some dot (chars b) (chars "_converted.mp4") 10) by reflexivity.
  rewrite take_app_add', drop_app_add' by reflexivity.
  rewrite forallb_app.
  change (forallb (Ascii.eqb dot) (take 10 (chars "_converted.mp4"))) with false.
  rewrite andb_false_r. reflexivity.
Qed.

Lemma splitext_stem_slash_free (q : string) :
  has_char slash q = false → has_char slash (splitext q).1 = false.
Proof.
  intros Hq. unfold splitext.
  destruct (rfind dot (chars (basename q))) as [i|]; [|exact Hq].
  destruct (forallb _ _); [exact Hq|]. cbn [fst].
  apply has_char_false. rewrite chars_str. intros Hin.
  apply has_char_false in Hq. apply Hq.
  apply elem_of_take in Hin as (j & Hj & _). by eapply list_elem_of_lookup_2.
Qed.

Lemma converted_path_ext (temp_dir video_file : string) :
  lower (splitext (converted_path_of temp_dir video_file)).2 = ".mp4".
Proof.
  unfold converted_path_of.
  set (b := (splitext (basename video_file)).1).
  assert (Hb : has_char slash b = false).
  { apply splitext_stem_slash_free, basename_slash_free. }
  rewrite (splitext_converted _ b); [reflexivity|].
  apply path_join_basename.
  - intros Hempty. apply (f_equal chars) in Hempty. rewrite chars_app in Hempty.
    by destruct (chars b).
  - apply has_char_false. rewrite chars_app. intros [Hin|Hin]%elem_of_app.
    + by apply has_char_false in Hb.
    + vm_compute in Hin. repeat (apply elem_of_cons in Hin as [Hin|Hin]; [discriminate Hin|]).
      by apply elem_of_nil in Hin.
Qed.

Lemma is_integer_fps_integer (n : Z) :
  py_round (inject_Z n) = n ∧ is_integer_fps (inject_Z n) = true.
Proof.
  assert (Hz : (Qabs (inject_Z n - inject_Z n) == 0)%Q).
  { assert (E : (inject_Z n - inject_Z n == 0)%Q) by ring. by rewrite E. }
  assert (Hr : py_round (inject_Z n) = n).
  { apply py_round_unique. rewrite Hz. reflexivity. }
  split; [exact Hr|]. apply is_integer_fps_spec. rewrite Hr, Hz. reflexivity.
Qed.

(** X20. Normalisation reaches its fixed point in one step: whatever
    [convert_if_needed] returns for a video, calling it again on that file
    at the rate [round(fps)] the pipeline uses runs no command and returns
    the same path. The converted file is in the target container and at an
    integer rate. *)
Theorem convert_if_needed_fixed_point (temp_dir : string) (ran ran' : run_result)
    (video_file : string) (fps : Q) (converted_video : string) :
  result (convert_if_needed temp_dir ran video_file fps) = Val converted_video →
  let again := convert_if_needed temp_dir ran' converted_video
                 (inject_Z (py_round fps)) in
  lower (splitext converted_video).2 = ".mp4"
  ∧ result again = Val converted_video
  ∧ commands (trace again) = [].
Proof.
  intros Hfirst again.
  assert (Hext : lower (splitext converted_video).2 = ".mp4").
  { unfold convert_if_needed in Hfirst.
    destruct (is_integer_fps fps);
      destruct (String.eqb (lower (splitext video_file).2) ".mp4") eqn:E;
      cbn [andb negb] in Hfirst.
    - apply String.eqb_eq in E. injection Hfirst as <-. exact E.
    - destruct ran; try discriminate Hfirst. injection Hfirst as <-.
      apply converted_path_ext.
    - destruct ran; try discriminate Hfirst. injection Hfirst as <-.
      apply converted_path_ext.
    - destruct ran; try discriminate Hfirst. injection Hfirst as <-.
      apply converted_path_ext. }
  split; [exact Hext|]. subst again. unfold convert_if_needed.
  rewrite (proj2 (is_integer_fps_integer (py_round fps))), Hext. by split.
Qed.

Lemma convert_if_needed_fixed_point_witness :
  result (convert_if_needed "/tmp" Completed "/videos/in.avi" (2997 # 100))
  = Val "/tmp/in_converted.mp4"
  ∧ result (convert_if_needed "/tmp" NonZeroExit "/tmp/in_converted.mp4"
              (inject_Z (py_round (2997 # 100))))
    = Val "/tmp/in_converted.mp4".
Proof.
  assert (H : result (convert_if_needed "/tmp" Completed "/videos/in.avi" (2997 # 100))
              = Val "/tmp/in_converted.mp4") by (vm_compute; reflexivity).
  split; [exact H|].
  exact (proj1 (proj2 (convert_if_needed_fixed_point "/tmp" Completed NonZeroExit
                         "/videos/in.avi" (2997 # 100) "/tmp/in_converted.mp4" H))).
Defined.

(** ** The installer *)

Lemma basename_of_directory (a : string) : basename (a +:+ "/") = EmptyString.
Proof. by apply (basename_after_slash a EmptyString). Qed.

(** X21. The first loop of the installer copies an entry exactly when its
    last component is one of the three binaries, and always to that name
    directly inside the bin folder, whatever directories the entry is
    under: the target has the binary's name as last component. Entries
    that are directories are never copied, and the copies follow the order
    of the archive. *)
Theorem extract_bin_targets (names : list string) (bin_folder : string) :
  copies (extract_bin names bin_folder)
  = map (λ file, (file, path_join bin_folder (basename file)))
      (filter (λ file, basename file ∈ bin_files) names)
  ∧ (∀ entry target, (entry, target) ∈ copies (extract_bin names bin_folder) →
       entry ∈ names
       ∧ basename target = basename entry
       ∧ basename target ∈ bin_files)
  ∧ (∀ dir target, (dir +:+ "/", target) ∉ copies (extract_bin names bin_folder)).
Proof.
  assert (Hcopies : copies (extract_bin names bin_folder)
    = map (λ file, (file, path_join bin_folder (basename file)))
        (filter (λ file, basename file ∈ bin_files) names)).
  { unfold extract_bin, copies. induction names as [|file l IH]; [done|].
    cbn [flat_map]. rewrite map_app, IH. destruct (decide (basename file ∈ bin_files)).
    - by rewrite filter_cons_True.
    - by rewrite filter_cons_False. }
  assert (Hin : ∀ entry target, (entry, target) ∈ copies (extract_bin names bin_folder) →
            entry ∈ names ∧ basename entry ∈ bin_files
            ∧ target = path_join bin_folder (basename entry)).
  { intros entry target H. rewrite Hcopies in H.
    apply list_elem_of_fmap in H as (file & [= -> ->] & Hfile).
    apply list_elem_of_filter in Hfile as [Hbin Hfile]. done. }
  split; [exact Hcopies|]. split.
  - intros entry target H. destruct (Hin entry target H) as (Hn & Hbin & ->).
    assert (Hb : basename (path_join bin_folder (basename entry)) = basename entry).
    { apply path_join_basename; [|apply basename_slash_free].
      intros Hempty. rewrite Hempty in Hbin. vm_compute in Hbin.
      repeat (apply elem_of_cons in Hbin as [Hbin|Hbin]; [discriminate Hbin|]).
      by apply elem_of_nil in Hbin. }
    split; [exact Hn|]. split; [exact Hb|]. by rewrite Hb.
  - intros dir target H. destruct (Hin _ _ H) as (_ & Hbin & _).
    rewrite basename_of_directory in Hbin.
    repeat (apply elem_of_cons in Hbin as [Hbin|Hbin]; [discriminate Hbin|]).
    by apply elem_of_nil in Hbin.
Qed.
